(** * karacopy: selection of lyrics, media and cover art from a music library

    A shallow embedding of [karacopy.py].  Python strings are lists of
    characters ([list ascii], code points below 256); the functions of
    [str], [os.path], [re] and [int] the script calls are written out with
    their POSIX behaviour ([os.path.sep] is the slash).  The file system the
    script walks is a finite tree of directories and files without symbolic
    links, listed in the order [os.scandir] returns the entries;
    [os.path.exists] is an arbitrary predicate on paths.  [print],
    [sys.exit] and exceptions are threaded through a small monad. *)

From Stdlib Require Import String Ascii List ZArith Bool Lia DecimalString.
Import ListNotations.

(** ** Python strings *)

Definition pystr := list ascii.

(** A string literal of the script. *)
Definition str (s : String.string) : pystr := String.list_ascii_of_string s.
Arguments str s%_string.

Module PyStr.

Fixpoint eqb (a b : pystr) : bool :=
  match a, b with
  | [], [] => true
  | x :: a', y :: b' => Ascii.eqb x y && eqb a' b'
  | _, _ => false
  end.

(** [x in l] for a list of strings [l]. *)
Definition mem (x : pystr) (l : list pystr) : bool := existsb (eqb x) l.

(** [c in chars] for a string [chars] used as a set of characters. *)
Definition in_chars (chars : pystr) (c : ascii) : bool :=
  existsb (Ascii.eqb c) chars.

Fixpoint drop_while (p : ascii -> bool) (s : pystr) : pystr :=
  match s with
  | [] => []
  | c :: t => if p c then drop_while p t else s
  end.

Definition lstrip_by (p : ascii -> bool) (s : pystr) : pystr := drop_while p s.
Definition rstrip_by (p : ascii -> bool) (s : pystr) : pystr :=
  rev (drop_while p (rev s)).
Definition strip_by (p : ascii -> bool) (s : pystr) : pystr :=
  rstrip_by p (lstrip_by p s).

(** [s.strip(chars)]: every leading and every trailing character that
    belongs to the set [chars] is removed. *)
Definition strip (s chars : pystr) : pystr := strip_by (in_chars chars) s.

(** [s.startswith(prefix)] *)
Fixpoint startswith (s prefix : pystr) {struct prefix} : bool :=
  match prefix, s with
  | [], _ => true
  | p :: ps, c :: cs => Ascii.eqb c p && startswith cs ps
  | _ :: _, [] => false
  end.

(** [s.endswith(suffix)] *)
Definition endswith (s suffix : pystr) : bool :=
  startswith (rev s) (rev suffix).

(** [s.split(sep)] for a separator of one character: never empty. *)
Fixpoint split (s : pystr) (sep : ascii) : list pystr :=
  match s with
  | [] => [[]]
  | c :: t =>
      if Ascii.eqb c sep then [] :: split t sep
      else match split t sep with
           | w :: ws => (c :: w) :: ws
           | [] => [[c]]
           end
  end.

(** [s.rfind(c)] for one character: the highest index of [c], or -1. *)
Fixpoint rfind (s : pystr) (c : ascii) : Z :=
  match s with
  | [] => (-1)%Z
  | x :: t =>
      let r := rfind t c in
      if (0 <=? r)%Z then (r + 1)%Z
      else if Ascii.eqb x c then 0%Z else (-1)%Z
  end.

(** The slice [s[i:j]] for [0 <= i]. *)
Definition slice (s : pystr) (i j : Z) : pystr :=
  firstn (Z.to_nat (j - i)) (skipn (Z.to_nat i) s).

(** [str.isspace] and the decimal digits, on code points below 256. *)
Definition isspace (c : ascii) : bool :=
  let n := nat_of_ascii c in
  ((9 <=? n) && (n <=? 13)) || ((28 <=? n) && (n <=? 32))
  || (n =? 133) || (n =? 160).

Definition isdigit (c : ascii) : bool :=
  let n := nat_of_ascii c in (48 <=? n) && (n <=? 57).

Definition digit_val (c : ascii) : Z := (Z.of_nat (nat_of_ascii c) - 48)%Z.

End PyStr.

(** ** [int(s)] on a string *)

(** Decimal digits, where one underscore may stand between two digits. *)
Fixpoint int_digits (s : pystr) (acc : Z) (after_digit : bool) : option Z :=
  match s with
  | [] => if after_digit then Some acc else None
  | c :: t =>
      if PyStr.isdigit c then int_digits t (10 * acc + PyStr.digit_val c)%Z true
      else if Ascii.eqb c "_" && after_digit then int_digits t acc false
      else None
  end.

(** [int(s)]: surrounding white space is dropped, a sign may come first;
    [None] stands for [ValueError]. *)
Definition py_int (s : pystr) : option Z :=
  match PyStr.strip_by PyStr.isspace s with
  | [] => None
  | c :: t =>
      if Ascii.eqb c "-" then option_map Z.opp (int_digits t 0%Z false)
      else if Ascii.eqb c "+" then int_digits t 0%Z false
      else int_digits (c :: t) 0%Z false
  end.

(** ** [os.path] (posixpath) *)

Module os_path.

Definition sep : ascii := "/".
Definition extsep : ascii := ".".

(** [os.path.join(a, b)] *)
Definition join (a b : pystr) : pystr :=
  if PyStr.startswith b [sep] then b
  else if match a with [] => true | _ => PyStr.endswith a [sep] end
       then a ++ b
       else a ++ sep :: b.

(** [os.path.splitext(p)]: the extension starts at the last dot of the
    last segment, unless only dots stand before it in that segment. *)
Definition splitext (p : pystr) : pystr * pystr :=
  let sepIndex := PyStr.rfind p sep in
  let dotIndex := PyStr.rfind p extsep in
  if (sepIndex <? dotIndex)%Z then
    if existsb (fun c => negb (Ascii.eqb c extsep))
               (PyStr.slice p (sepIndex + 1) dotIndex)
    then (firstn (Z.to_nat dotIndex) p, skipn (Z.to_nat dotIndex) p)
    else (p, [])
  else (p, []).

End os_path.

(** ** [re.findall("\[(\d{4})\]", s)] *)

(** The pattern matched at the head of [s]: the group, if it matches. *)
Definition match_year (s : pystr) : option pystr :=
  match s with
  | o :: d1 :: d2 :: d3 :: d4 :: c :: _ =>
      if Ascii.eqb o "[" && PyStr.isdigit d1 && PyStr.isdigit d2
         && PyStr.isdigit d3 && PyStr.isdigit d4 && Ascii.eqb c "]"
      then Some [d1; d2; d3; d4] else None
  | _ => None
  end.

Arguments match_year s : simpl never.

(** The scan of [findall]: leftmost matches that do not overlap; after a
    match the scan resumes behind it ([skip] characters are still to be
    passed over). *)
Fixpoint findall_from (skip : nat) (s : pystr) : list pystr :=
  match s with
  | [] => []
  | _ :: t =>
      match skip with
      | S k => findall_from k t
      | O => match match_year s with
             | Some g => g :: findall_from 5 t
             | None => findall_from 0 t
             end
      end
  end.

Definition re_findall_year (s : pystr) : list pystr := findall_from 0 s.

(** ** Effects: [print], [sys.exit], exceptions *)

Inductive exn : Type :=
| IndexError (msg : pystr)
| ValueError (literal : pystr)
| Exception (msg : pystr).

(** [str(e)], what [print(e)] writes. *)
Definition exn_str (e : exn) : pystr :=
  match e with
  | IndexError msg => msg
  | ValueError l =>
      str "invalid literal for int() with base 10: '" ++ l ++ str "'"
  | Exception msg => msg
  end.

Inductive outcome (A : Type) : Type :=
| Return (a : A)
| SysExit (code : Z)
| Raise (e : exn).
Arguments Return {A} a.
Arguments SysExit {A} code.
Arguments Raise {A} e.

(** A computation: the lines it printed and how it ended. *)
Definition M (A : Type) : Type := (list pystr * outcome A)%type.

Definition ret {A} (a : A) : M A := ([], Return a).
Definition print (line : pystr) : M unit := ([line], Return tt).
Definition sys_exit {A} (code : Z) : M A := ([], SysExit code).
Definition raise {A} (e : exn) : M A := ([], Raise e).

Definition bind {A B} (m : M A) (k : A -> M B) : M B :=
  match m with
  | (out, Return a) => let (out', r) := k a in (out ++ out', r)
  | (out, SysExit c) => (out, SysExit c)
  | (out, Raise e) => (out, Raise e)
  end.

(** [try: m  except Exception as e: h e] ([SystemExit] is not an
    [Exception] and passes through). *)
Definition try_except {A} (m : M A) (h : exn -> M A) : M A :=
  match m with
  | (out, Raise e) => let (out', r) := h e in (out ++ out', r)
  | other => other
  end.

Declare Scope py_scope.
Delimit Scope py_scope with py.
Notation "x <- m ;; k" := (bind m (fun x => k))
  (at level 61, m at next level, right associativity) : py_scope.
Notation "m ;;; k" := (bind m (fun _ => k))
  (at level 61, right associativity) : py_scope.

(** [l[-k]] for [k >= 1]. *)
Definition index_neg {A} (l : list A) (k : nat) : M A :=
  match nth_error (rev l) (Nat.pred k) with
  | Some x => ret x
  | None => raise (IndexError (str "list index out of range"))
  end.

(** [int(s)] as a computation. *)
Definition int_ (s : pystr) : M Z :=
  match py_int s with
  | Some z => ret z
  | None => raise (ValueError s)
  end.

(** ** The file system *)

Unset Elimination Schemes.
Inductive node : Type :=
| File (name : pystr)
| Dir (name : pystr) (entries : list node).
Set Elimination Schemes.

Definition dirs_of (entries : list node) : list node :=
  filter (fun e => match e with Dir _ _ => true | File _ => false end) entries.

Definition files_of (entries : list node) : list pystr :=
  flat_map (fun e => match e with File f => [f] | Dir _ _ => [] end) entries.

Definition node_name (e : node) : pystr :=
  match e with File f => f | Dir d _ => d end.

(** One item of [os.walk]: [(root, dirs, files)]; a directory of [dirs]
    is kept with its content, which is what a later [os.walk] of it finds. *)
Definition walk_item : Type := (pystr * list node * list pystr)%type.

(** The walk below a directory [e] reached under the path [top]; a file
    among the entries contributes nothing, so the recursion runs over the
    directories of [dirs], in their order. *)
Fixpoint walk_dir (topdown : bool) (top : pystr) (e : node) : list walk_item :=
  match e with
  | File _ => []
  | Dir _ entries =>
      let here := (top, dirs_of entries, files_of entries) in
      let below :=
        flat_map (fun d => walk_dir topdown (os_path.join top (node_name d)) d)
                 entries in
      if topdown then here :: below else below ++ [here]
  end.

Definition entries_of (e : node) : list node :=
  match e with File _ => [] | Dir _ entries => entries end.

(** [os.walk(top, topdown)] when [top] is a directory with content
    [entries].  The empty path names no directory: [os.scandir] fails on it
    and the walk, which ignores that error, yields nothing. *)
Definition os_walk (topdown : bool) (top : pystr) (entries : list node)
  : list walk_item :=
  match top with
  | [] => []
  | _ => walk_dir topdown top (Dir top entries)
  end.

(** A [for] loop that updates a value and stops at the first [sys.exit] or
    exception. *)
Fixpoint for_each {A S : Type} (l : list A) (s : S) (body : S -> A -> M S)
  : M S :=
  match l with
  | [] => ret s
  | x :: t => (s' <- body s x ;; for_each t s' body)%py
  end.

(** ** The script *)

Definition EXTS_MEDIA : list pystr := [str "mp3"; str "m4a"].
Definition EXTS_ART : list pystr := [str "jpg"].
Definition EXTS_LYRICS : list pystr := [str "lrc"].
Definition ALLOWED_EXTS : list pystr := EXTS_MEDIA ++ EXTS_ART ++ EXTS_LYRICS.

Definition get_path_depth (path : pystr) : Z :=
  Z.of_nat
    (length (PyStr.split (PyStr.strip path [os_path.sep]) os_path.sep)).

Definition get_file_ext (path : pystr) : pystr :=
  let '(_, ext) := os_path.splitext path in
  PyStr.strip ext (str ".").

Definition is_file_type_media (path : pystr) : bool :=
  PyStr.mem (get_file_ext path) EXTS_MEDIA.

(** The [try] block of [process_album_dir]:
    [int(re.findall("\[(\d{4})\]", album_name)[-1])]. *)
Definition album_year (album_name : pystr) : M Z :=
  (g <- index_neg (re_findall_year album_name) 1 ;; int_ g)%py.

(** The condition on the year, with the short circuits of [or] and [and]. *)
Definition year_in_range (min_year max_year : pystr) (year : Z) : M bool :=
  (above <- (if PyStr.eqb min_year (str "any") then ret true
             else (m <- int_ min_year ;; ret (m <=? year)%Z)) ;;
   if above : bool
   then (if PyStr.eqb max_year (str "any") then ret true
         else (m <- int_ max_year ;; ret (year <=? m)%Z))
   else ret false)%py.

(** [copy_file] up to the path it hands to [shutil.copy] as destination;
    creating the directories and copying are left out. *)
Definition copy_file (source_dir dest_dir source_file_abspath : pystr)
  : M pystr :=
  if negb (PyStr.startswith source_file_abspath source_dir)
  then raise (Exception (str "Source file path doesn't match source directory"))
  else
    let rel_file_path :=
      PyStr.strip (PyStr.strip source_file_abspath source_dir) [os_path.sep] in
    let dest_file_abspath := os_path.join dest_dir rel_file_path in
    ret dest_file_abspath.

Section Script.

(** [os.path.exists] *)
Variable path_exists : pystr -> bool.

(** What one file [f] of directory [root] appends to [ret]. *)
Definition select_file (root f : pystr) : list pystr :=
  let ext := get_file_ext f in
  if PyStr.mem ext EXTS_LYRICS then
    os_path.join root f ::
      (let '(basename, _) := os_path.splitext f in
       flat_map
         (fun ext =>
            let mf := os_path.join root (basename ++ str "." ++ ext) in
            if path_exists mf then [mf] else [])
         EXTS_MEDIA)
  else if PyStr.mem ext EXTS_ART then [os_path.join root f]
  else [].

(** The two nested loops over [os.walk(album_path)]. *)
Definition select_files (album_path : pystr) (entries : list node)
  : list pystr :=
  flat_map (fun item : walk_item =>
              let '(root, _, files) := item in
              flat_map (select_file root) files)
           (os_walk true album_path entries).

Definition process_album_dir (album_path : pystr) (entries : list node)
           (min_year max_year : pystr) : M (list pystr) :=
  (let tokens := PyStr.split album_path os_path.sep in
   album_name <- index_neg tokens 1 ;;
   artist_name <- index_neg tokens 2 ;;
   year <- try_except (album_year album_name)
             (fun e =>
                print (str "Exception processing album: " ++ album_name) ;;;
                print (exn_str e) ;;;
                sys_exit 1%Z) ;;
   inside <- year_in_range min_year max_year year ;;
   if inside : bool then ret (select_files album_path entries) else ret [])%py.

Definition walk_media_dir (media_path : pystr) (entries : list node)
           (min_year max_year : pystr) : M (list pystr) :=
  let base_depth := get_path_depth media_path in
  for_each (os_walk false media_path entries) []
    (fun files (item : walk_item) =>
       let '(root, dirs, _) := item in
       for_each dirs files
         (fun files d =>
            let fullpath := os_path.join root (node_name d) in
            let current_depth := get_path_depth fullpath in
            if (current_depth - base_depth =? 2)%Z
            then (sel <- process_album_dir fullpath (entries_of d)
                           min_year max_year ;;
                  ret (files ++ sel))%py
            else ret files)).

End Script.

(** ** Notions used to state the properties *)

(** The value of a string of decimal digits. *)
Definition decimal_value (digits : pystr) : Z :=
  fold_left (fun acc c => (10 * acc + PyStr.digit_val c)%Z) digits 0%Z.

(** [name] holds, at index [i], an opening bracket, the four decimal digits
    [digits] and a closing bracket. *)
Definition year_token_at (name : pystr) (i : nat) (digits : pystr) : Prop :=
  length digits = 4 /\
  Forall (fun c => PyStr.isdigit c = true) digits /\
  exists pre post,
    length pre = i /\
    name = pre ++ "["%char :: digits ++ "]"%char :: post.

(** A name without the separator, and the names a directory entry can
    have. *)
Definition sep_free (s : pystr) : bool :=
  forallb (fun c => negb (Ascii.eqb c os_path.sep)) s.

Definition dot_free (s : pystr) : bool :=
  forallb (fun c => negb (Ascii.eqb c os_path.extsep)) s.

Definition has_non_dot (s : pystr) : bool :=
  existsb (fun c => negb (Ascii.eqb c os_path.extsep)) s.

Definition valid_name (s : pystr) : bool :=
  match s with [] => false | _ => sep_free s end.

Fixpoint wf_node (e : node) : bool :=
  match e with
  | File f => valid_name f
  | Dir d entries => valid_name d && forallb wf_node entries
  end.

Definition wf_entries (entries : list node) : bool := forallb wf_node entries.

(** [file_in top entries dir f]: below the directory of path [top] and
    content [entries], a file named [f] lies in the directory that the walk
    reaches under the path [dir]. *)
Inductive file_in : pystr -> list node -> pystr -> pystr -> Prop :=
| file_here top entries f :
    In (File f) entries -> file_in top entries top f
| file_below top entries name sub dir f :
    In (Dir name sub) entries ->
    file_in (os_path.join top name) sub dir f ->
    file_in top entries dir f.

(** What [os.path.join] puts before a name that does not start with the
    separator. *)
Definition dir_prefix (a : pystr) : pystr :=
  match a with
  | [] => []
  | _ => if PyStr.endswith a [os_path.sep] then a else a ++ [os_path.sep]
  end.

(** The directories [walk_media_dir] meets, in the order it meets them, each
    with its full path; and those it hands to [process_album_dir]. *)
Definition visited_dirs (media_path : pystr) (entries : list node)
  : list (pystr * node) :=
  flat_map (fun item : walk_item =>
              let '(root, dirs, _) := item in
              map (fun d => (os_path.join root (node_name d), d)) dirs)
           (os_walk false media_path entries).

Definition is_album_dir (media_path fullpath : pystr) : bool :=
  (get_path_depth fullpath - get_path_depth media_path =? 2)%Z.

Definition album_dirs (media_path : pystr) (entries : list node)
  : list (pystr * node) :=
  filter (fun v => is_album_dir media_path (fst v))
         (visited_dirs media_path entries).

(** A library root whose depth counts its segments: it has a character
    other than the separator and does not end with two separators. *)
Definition proper_root (top : pystr) : bool :=
  match PyStr.strip top [os_path.sep] with
  | [] => false
  | _ => negb (PyStr.endswith top [os_path.sep; os_path.sep])
  end.

(** [dir_at k top entries fullpath d]: the directory [d] lies [k] levels
    below the directory of path [top] and content [entries], and the walk
    builds [fullpath] for it. *)
Inductive dir_at : nat -> pystr -> list node -> pystr -> node -> Prop :=
| dir_child top entries d :
    In d (dirs_of entries) ->
    dir_at 1 top entries (os_path.join top (node_name d)) d
| dir_below k top entries name sub fullpath d :
    In (Dir name sub) entries ->
    dir_at k (os_path.join top name) sub fullpath d ->
    dir_at (S k) top entries fullpath d.

(** A year bound of the configuration: ["any"] or an integer literal. *)
Definition valid_bound (s : pystr) : Prop :=
  s = str "any" \/ exists z, py_int s = Some z.

(** [album_path] has an album and an artist segment, and the album segment
    yields the year [y]. *)
Definition album_of_year (album_path : pystr) (y : Z) : Prop :=
  exists album_name artist_name,
    index_neg (PyStr.split album_path os_path.sep) 1 = ret album_name
    /\ index_neg (PyStr.split album_path os_path.sep) 2 = ret artist_name
    /\ album_year album_name = ret y.

(** Every match of the pattern in [s], overlapping or not, left to right. *)
Fixpoint all_matches (s : pystr) : list pystr :=
  match s with
  | [] => []
  | _ :: t =>
      match match_year s with
      | Some g => g :: all_matches t
      | None => all_matches t
      end
  end.

(** [s] is not empty and its first character is neither in the set
    [chars] nor the separator. *)
Definition starts_outside (chars s : pystr) : bool :=
  match s with
  | [] => false
  | c :: _ => negb (PyStr.in_chars chars c) && negb (Ascii.eqb c os_path.sep)
  end.

(** The bracketed years of [s] with their indices, [k] being the index of
    the head of [s]. *)
Fixpoint year_tokens_from (k : nat) (s : pystr) : list (nat * pystr) :=
  match s with
  | [] => []
  | _ :: t =>
      match match_year s with
      | Some g => (k, g) :: year_tokens_from (S k) t
      | None => year_tokens_from (S k) t
      end
  end.

Definition year_tokens (name : pystr) : list (nat * pystr) :=
  year_tokens_from 0 name.

(** ** A small library *)

Definition example_album : list node :=
  [File (str "01.lrc"); File (str "01.mp3"); File (str "02.mp3");
   File (str "cover.jpg"); File (str ".lrc"); File (str "notes");
   Dir (str "cd2") [File (str "a.lrc"); File (str "back.jpg")]].

Definition example_library : list node :=
  [Dir (str "ArtistX")
     [Dir (str "Album [1985]") example_album;
      Dir (str "Demos") [File (str "d.lrc")];
      Dir (str "Late [1991]") [File (str "l.lrc")]];
   File (str "readme.txt")].

(** The same library without the folder that has no year. *)
Definition example_library_dated : list node :=
  [Dir (str "ArtistX")
     [Dir (str "Album [1985]") example_album;
      Dir (str "Late [1991]") [File (str "l.lrc")]];
   File (str "readme.txt")].

Definition example_selection : list pystr :=
  [str "/music/ArtistX/Album [1985]/01.lrc";
   str "/music/ArtistX/Album [1985]/01.mp3";
   str "/music/ArtistX/Album [1985]/cover.jpg";
   str "/music/ArtistX/Album [1985]/cd2/a.lrc";
   str "/music/ArtistX/Album [1985]/cd2/back.jpg"].

(** What the walk selects from that library under the source folder of the
    script when no media file exists. *)
Definition source_selection : list pystr :=
  [str "D:\Music/ArtistX/Album [1985]/01.lrc";
   str "D:\Music/ArtistX/Album [1985]/cover.jpg";
   str "D:\Music/ArtistX/Album [1985]/cd2/a.lrc";
   str "D:\Music/ArtistX/Album [1985]/cd2/back.jpg"].

(** [os.path.exists] when the only media file with a lyrics sibling is
    [01.mp3]. *)
Definition example_exists (p : pystr) : bool :=
  PyStr.eqb p (str "/music/ArtistX/Album [1985]/01.mp3").

(** ** The console and the operations on files

    The interactive part of the script: what it reads from standard input,
    what it writes and which operations on files it performs, in their
    order.  Standard input is the list of the lines still to be read;
    [input()] at its end raises [EOFError].  An operation on files that
    fails raises [OSError] and leaves no event. *)

Inductive io_exn : Type :=
| PyExn (e : exn)
| ValueErrorMsg (msg : pystr)
| KeyError (key : pystr)
| EOFError
| OSError (msg : pystr)
| OverflowError.

Inductive event : Type :=
| Stdout (text : pystr)
| Rmtree (path : pystr)
| Mkdir (path : pystr)
| MkdirParents (path : pystr)
| Copy (src dst : pystr).

Inductive result (A : Type) : Type :=
| Done (a : A)
| Exited (code : Z)
| Failed (e : io_exn).
Arguments Done {A} a.
Arguments Exited {A} code.
Arguments Failed {A} e.

Definition IO (A : Type) : Type :=
  list pystr -> (list pystr * list event * result A)%type.

Definition io_ret {A} (a : A) : IO A := fun stdin => (stdin, [], Done a).

Definition io_raise {A} (e : io_exn) : IO A :=
  fun stdin => (stdin, [], Failed e).

Definition io_bind {A B} (m : IO A) (k : A -> IO B) : IO B :=
  fun stdin =>
    match m stdin with
    | (stdin1, ev1, Done a) =>
        let '(stdin2, ev2, r) := k a stdin1 in (stdin2, ev1 ++ ev2, r)
    | (stdin1, ev1, Exited c) => (stdin1, ev1, Exited c)
    | (stdin1, ev1, Failed e) => (stdin1, ev1, Failed e)
    end.

Notation "x <~ m ;; k" := (io_bind m (fun x => k))
  (at level 61, m at next level, right associativity) : py_scope.
Notation "m ;;~ k" := (io_bind m (fun _ => k))
  (at level 61, right associativity) : py_scope.

(** [sys.stdout.write(text)] *)
Definition stdout_write (text : pystr) : IO unit :=
  fun stdin => (stdin, [Stdout text], Done tt).

Definition newline : ascii := ascii_of_nat 10.

(** [print(line)] *)
Definition io_print (line : pystr) : IO unit :=
  stdout_write (line ++ [newline]).

(** A computation of the selection part, run at the console. *)
Definition lift {A} (m : M A) : IO A :=
  fun stdin =>
    (stdin,
     map (fun line => Stdout (line ++ [newline])) (fst m),
     match snd m with
     | Return a => Done a
     | SysExit c => Exited c
     | Raise e => Failed (PyExn e)
     end).

(** [io_for l body]: a [for] loop over [l] that stops at the first
    exception. *)
Fixpoint io_for {A : Type} (l : list A) (body : A -> IO unit) : IO unit :=
  match l with
  | [] => io_ret tt
  | x :: t => (body x ;;~ io_for t body)%py
  end.

(** [s.lower()] on code points below 256. *)
Definition lower_char (c : ascii) : ascii :=
  let n := nat_of_ascii c in
  if ((65 <=? n) && (n <=? 90))
     || ((192 <=? n) && (n <=? 222) && negb (n =? 215))
  then ascii_of_nat (n + 32) else c.

Definition lower (s : pystr) : pystr := map lower_char s.

(** [key in d] and [d[key]] for a dictionary with string keys. *)
Fixpoint dict_get {V : Type} (d : list (pystr * V)) (key : pystr) : option V :=
  match d with
  | [] => None
  | (k, v) :: rest => if PyStr.eqb key k then Some v else dict_get rest key
  end.

(** [str(n)] for an integer. *)
Definition str_of_int (n : Z) : pystr :=
  list_ascii_of_string (DecimalString.NilZero.string_of_int (Z.to_int n)).

(** [os.path.split(p)] *)
Definition os_path_split (p : pystr) : pystr * pystr :=
  let i := Z.to_nat (PyStr.rfind p os_path.sep + 1) in
  let head := firstn i p in
  let tail := skipn i p in
  if match head with [] => false | _ => true end
     && negb (forallb (Ascii.eqb os_path.sep) head)
  then (PyStr.rstrip_by (PyStr.in_chars [os_path.sep]) head, tail)
  else (head, tail).

Definition valid : list (pystr * bool) :=
  [(str "yes", true); (str "y", true); (str "ye", true);
   (str "no", false); (str "n", false)].

(** The [while True] loop of [query_yes_no]: one turn for each line read. *)
Fixpoint query_loop (text : pystr) (default : option pystr)
         (stdin : list pystr) : list pystr * list event * result bool :=
  match stdin with
  | [] => ([], [Stdout text], Failed EOFError)
  | line :: rest =>
      let choice := lower line in
      match default, choice with
      | Some d, [] =>
          match dict_get valid d with
          | Some answer => (rest, [Stdout text], Done answer)
          | None => (rest, [Stdout text], Failed (KeyError d))
          end
      | _, _ =>
          match dict_get valid choice with
          | Some answer => (rest, [Stdout text], Done answer)
          | None =>
              let '(stdin', events, r) := query_loop text default rest in
              (stdin',
               Stdout text
                 :: Stdout (str "Please respond with 'yes' or 'no' (or 'y' or 'n')."
                            ++ [newline])
                 :: events,
               r)
          end
      end
  end.

Definition query_yes_no (question : pystr) (default : option pystr) : IO bool :=
  match
    match default with
    | None => Some (str " [y/n] ")
    | Some d =>
        if PyStr.eqb d (str "yes") then Some (str " [Y/n] ")
        else if PyStr.eqb d (str "no") then Some (str " [y/N] ")
        else None
    end
  with
  | Some prompt => query_loop (question ++ prompt) default
  | None =>
      io_raise (ValueErrorMsg
                  (str "invalid default answer: '"
                   ++ match default with Some d => d | None => [] end
                   ++ str "'"))
  end.

(** ** [sizeof_fmt]

    The function computes on floats, but only divides by 1024: a division
    by a power of two is exact on binary floats (the values stay above 1,
    far from underflow), so the float in hand is always [F / 1024 ^ k] for
    an integer [F], here kept as the pair of [F] and [k].  The one rounding
    is the conversion of the integer argument to a float, to 53 significant
    bits with ties to even; it raises [OverflowError] from [2 ^ 1024] on.
    The format [.1f] rounds the exact value to one decimal, ties to even. *)

(** [num / den] rounded to the nearest integer, ties to even, for
    [0 <= num] and [0 < den]. *)
Definition round_half_even (num den : Z) : Z :=
  let q := (num / den)%Z in
  let r := (num mod den)%Z in
  if (2 * r <? den)%Z then q
  else if (den <? 2 * r)%Z then (q + 1)%Z
  else if Z.even q then q else (q + 1)%Z.

(** [float(n)] for an integer [n], as the integer it is equal to; [None]
    stands for [OverflowError]. *)
Definition float_of_int (n : Z) : option Z :=
  let a := Z.abs n in
  let e := (Z.log2 a - 52)%Z in
  let r := if (e <=? 0)%Z then a
           else (round_half_even a (2 ^ e) * 2 ^ e)%Z in
  if (2 ^ 1024 <=? r)%Z then None else Some (Z.sgn n * r)%Z.

(** The format [.1f] of the float [F / 1024 ^ k]. *)
Definition format_tenths (F : Z) (k : nat) : pystr :=
  let q := round_half_even (10 * Z.abs F) (1024 ^ Z.of_nat k) in
  (if (F <? 0)%Z then str "-" else [])
  ++ str_of_int (q / 10) ++ str "." ++ str_of_int (q mod 10).

(** The turns of the loop of [sizeof_fmt] once [num] is a float, and the
    [return] behind the loop. *)
Fixpoint sizeof_units (units : list pystr) (F : Z) (k : nat) (suffix : pystr)
  : pystr :=
  match units with
  | [] => format_tenths F k ++ str " Yi" ++ suffix
  | unit :: rest =>
      if (Z.abs F <? 1024 * 1024 ^ Z.of_nat k)%Z
      then format_tenths F k ++ str " " ++ unit ++ suffix
      else sizeof_units rest F (S k) suffix
  end.

(** [sizeof_fmt(num, suffix)] for an integer [num]; [None] stands for
    [OverflowError]. *)
Definition sizeof_fmt (num : Z) (suffix : pystr) : option pystr :=
  if (Z.abs num <? 1024)%Z
  then Some (format_tenths num 0 ++ str " " ++ [] ++ suffix)
  else
    match float_of_int num with
    | None => None
    | Some F =>
        Some (sizeof_units [str "Ki"; str "Mi"; str "Gi"; str "Ti";
                            str "Pi"; str "Ei"; str "Zi"] F 1 suffix)
    end.

Definition SOURCE_FOLDER : pystr := str "D:\Music".
Definition DEST_FOLDER : pystr := str "D:\Playlists\1980s".
Definition MIN_YEAR : pystr := str "1980".
Definition MAX_YEAR : pystr := str "1989".

Section Console.

(** [os.path.exists] *)
Variable path_exists : pystr -> bool.

(** The operations on files that fail, with the message of their error. *)
Variable fs_error : event -> option pystr.

(** [os.stat(path).st_size], or the message of the [OSError]. *)
Variable os_stat : pystr -> Z + pystr.

(** An operation on files: it fails, or it is done and recorded. *)
Definition fs_op (op : event) : IO unit :=
  fun stdin =>
    match fs_error op with
    | Some msg => (stdin, [], Failed (OSError msg))
    | None => (stdin, [op], Done tt)
    end.

Definition show_copy_proceed_menu (files : list pystr) (dest_folder : pystr)
  : IO bool :=
  (proceed <~ query_yes_no (str "Proceed with copy?") (Some (str "yes")) ;;
   if negb proceed
   then io_print (str "Copy aborted") ;;~ io_ret false
   else
     io_print (str "Proceeding with copy") ;;~
     (if path_exists dest_folder
      then
        overwrite <~ query_yes_no
          (str "Destination folder exists, are you sure you wish to overwrite it (all contents will be lost)?")
          (Some (str "yes")) ;;
        if negb overwrite
        then io_print (str "Copy aborted") ;;~ io_ret false
        else
          fs_op (Rmtree dest_folder) ;;~
          fs_op (Mkdir dest_folder) ;;~
          io_print (str "Existing folder deleted successfully. Proceeding with copy") ;;~
          io_ret true
      else io_ret true))%py.

(** The whole of [copy_file]: the destination of the claims' [copy_file],
    the directory of the destination created with its parents, the copy. *)
Definition copy_file_io (source_dir dest_dir source_file_abspath : pystr)
  : IO unit :=
  (dest_file_abspath <~ lift (copy_file source_dir dest_dir source_file_abspath) ;;
   let '(dest_dir_abspath, _) := os_path_split dest_file_abspath in
   fs_op (MkdirParents dest_dir_abspath) ;;~
   fs_op (Copy source_file_abspath dest_file_abspath))%py.

Definition copy_files (files : list pystr) (source_dir dest_dir : pystr)
  : IO unit :=
  (io_for files (fun f => copy_file_io source_dir dest_dir f) ;;~
   io_print (str "Copied " ++ str_of_int (Z.of_nat (length files))
             ++ str " files"))%py.

(** The loop of [show_copy_stats] with its two counters. *)
Fixpoint stats_loop (files : list pystr) (tot_size_bytes media_file_count : Z)
  : IO (Z * Z) :=
  match files with
  | [] => io_ret (tot_size_bytes, media_file_count)
  | f :: rest =>
      (io_print f ;;~
       match os_stat f with
       | inr msg => io_raise (OSError msg)
       | inl st_size =>
           stats_loop rest (tot_size_bytes + st_size)
                      (if is_file_type_media f
                       then media_file_count + 1 else media_file_count)
       end)%py
  end.

Definition show_copy_stats (files : list pystr) : IO unit :=
  (io_print (str "Files to be copied:") ;;~
   counters <~ stats_loop files 0 0 ;;
   let '(tot_size_bytes, media_file_count) := counters in
   io_print (str "Total number of files to be copied (including media/lyrics/art): "
             ++ str_of_int (Z.of_nat (length files))) ;;~
   io_print (str "Total number of media files to be copied: "
             ++ str_of_int media_file_count) ;;~
   match sizeof_fmt tot_size_bytes (str "B") with
   | None => io_raise OverflowError
   | Some size =>
       io_print (str "Total filesize to be copied: "
                 ++ str_of_int tot_size_bytes ++ str " bytes ("
                 ++ size ++ str ")")
   end)%py.

(** [main()], for the content [entries] of the source folder. *)
Definition main (entries : list node) : IO unit :=
  (files <~ lift (walk_media_dir path_exists SOURCE_FOLDER entries
                                 MIN_YEAR MAX_YEAR) ;;
   show_copy_stats files ;;~
   proceed <~ show_copy_proceed_menu files DEST_FOLDER ;;
   if proceed : bool
   then copy_files files SOURCE_FOLDER DEST_FOLDER
   else io_ret tt)%py.

End Console.

(** The answer that ends the loop of [query_yes_no] at a line, if the line
    is an answer. *)
Definition answer_of (default : option pystr) (line : pystr) : option bool :=
  match default, lower line with
  | Some d, [] => dict_get valid d
  | _, choice => dict_get valid choice
  end.

(** The two operations of [copy_file] on a file whose destination it can
    compute. *)
Definition copy_ops (source_dir dest_dir f : pystr) : list event :=
  match copy_file source_dir dest_dir f with
  | (_, Return dest) => [MkdirParents (fst (os_path_split dest)); Copy f dest]
  | _ => []
  end.

Definition no_fs_error : event -> option pystr := fun _ => None.

(** The operations on files among the events. *)
Definition fs_events (events : list event) : list event :=
  filter (fun e => match e with Stdout _ => false | _ => true end) events.

(** What is written, in one string. *)
Definition stdout_text (events : list event) : pystr :=
  flat_map (fun e => match e with Stdout t => t | _ => [] end) events.

(** * Properties *)

(** ** Strings *)

Lemma eqb_eq (a b : pystr) : PyStr.eqb a b = true <-> a = b.
Proof.
  revert b; induction a as [|x a IH]; intros [|y b]; simpl; split;
    try congruence; try reflexivity.
  - rewrite andb_true_iff, Ascii.eqb_eq, IH. intros [-> ->]; reflexivity.
  - intros [= -> ->]. rewrite Ascii.eqb_refl. simpl. apply IH; reflexivity.
Qed.

Lemma eqb_refl (a : pystr) : PyStr.eqb a a = true.
Proof. apply eqb_eq; reflexivity. Qed.

Lemma eqb_neq (a b : pystr) : PyStr.eqb a b = false <-> a <> b.
Proof.
  rewrite <- eqb_eq. destruct (PyStr.eqb a b); split; congruence.
Qed.

(** ** The monad *)

Lemma bind_ret_l (A B : Type) (a : A) (k : A -> M B) : bind (ret a) k = k a.
Proof. unfold bind, ret. destruct (k a); reflexivity. Qed.

Lemma bind_ret_r (A : Type) (m : M A) : bind m (fun a => ret a) = m.
Proof.
  destruct m as [out [a| |]]; simpl; try reflexivity.
  rewrite app_nil_r. reflexivity.
Qed.

Lemma bind_assoc (A B C : Type) (m : M A) (k : A -> M B) (h : B -> M C) :
  bind (bind m k) h = bind m (fun a => bind (k a) h).
Proof.
  destruct m as [out [a| |]]; simpl; try reflexivity.
  destruct (k a) as [out' [b| |]]; simpl; try reflexivity.
  destruct (h b) as [out'' r]. rewrite app_assoc. reflexivity.
Qed.

Lemma try_except_ret (A : Type) (a : A) (h : exn -> M A) :
  try_except (ret a) h = ret a.
Proof. reflexivity. Qed.

(** ** Destination mapping *)

Lemma drop_while_all (p : ascii -> bool) (a b : pystr) :
  forallb p a = true -> PyStr.drop_while p (a ++ b) = PyStr.drop_while p b.
Proof.
  induction a as [|c a IH]; [reflexivity|]. simpl.
  rewrite andb_true_iff. intros [-> Ha]. apply IH. exact Ha.
Qed.

Lemma rstrip_by_stop (p : ascii -> bool) (q : pystr) (c : ascii) :
  p c = false -> PyStr.rstrip_by p (q ++ [c]) = q ++ [c].
Proof.
  intros Hc. unfold PyStr.rstrip_by. rewrite rev_app_distr. simpl.
  rewrite Hc. simpl. rewrite rev_involutive. reflexivity.
Qed.

Lemma in_chars_self (chars : pystr) : forallb (PyStr.in_chars chars) chars = true.
Proof.
  apply forallb_forall. intros c Hc. unfold PyStr.in_chars.
  apply existsb_exists. exists c. split; [exact Hc|apply Ascii.eqb_refl].
Qed.

Lemma startswith_app (a b : pystr) : PyStr.startswith (a ++ b) a = true.
Proof.
  induction a as [|c a IH]; [reflexivity|]. simpl.
  rewrite Ascii.eqb_refl. exact IH.
Qed.

(** Leading separators in front of a string that starts outside the set:
    [lstrip] leaves some of them and the string. *)
Lemma lstrip_separators (p : ascii -> bool) (seps rest : pystr) (c : ascii)
      (t : pystr) :
  forallb (Ascii.eqb os_path.sep) seps = true ->
  rest = c :: t -> p c = false ->
  exists seps',
    PyStr.drop_while p (seps ++ rest) = seps' ++ rest
    /\ forallb (Ascii.eqb os_path.sep) seps' = true.
Proof.
  intros Hseps -> Hc. induction seps as [|x seps IH].
  - exists []. simpl. rewrite Hc. split; reflexivity.
  - simpl in Hseps. apply andb_true_iff in Hseps. destruct Hseps as [Hx Hseps].
    simpl. destruct (p x).
    + apply IH. exact Hseps.
    + exists (x :: seps). split; [reflexivity|]. simpl. rewrite Hx. exact Hseps.
Qed.

(** X24: where [copy_file] does what its docstring says: the remainder of the
    source path behind the source directory and the separators starts and
    ends with characters that are neither the separator nor characters of
    the source directory. *)
Lemma copy_file_remainder (source_dir dest_dir seps rest : pystr) :
  forallb (Ascii.eqb os_path.sep) seps = true ->
  starts_outside source_dir rest = true ->
  starts_outside source_dir (rev rest) = true ->
  copy_file source_dir dest_dir (source_dir ++ seps ++ rest)
  = ret (os_path.join dest_dir rest).
Proof.
  intros Hseps Hfirst Hlast. unfold copy_file.
  rewrite startswith_app. cbn [negb]. do 2 f_equal. f_equal.
  destruct rest as [|c t]; [discriminate Hfirst|].
  simpl in Hfirst. apply andb_true_iff in Hfirst.
  destruct Hfirst as [Hc Hcsep]. apply negb_true_iff in Hc, Hcsep.
  destruct (exists_last (l := c :: t)) as (q & l & Hql); [discriminate|].
  rewrite Hql in Hlast. rewrite rev_app_distr in Hlast. simpl in Hlast.
  apply andb_true_iff in Hlast. destruct Hlast as [Hl Hlsep].
  apply negb_true_iff in Hl, Hlsep.
  unfold PyStr.strip, PyStr.strip_by, PyStr.lstrip_by.
  rewrite drop_while_all by apply in_chars_self.
  destruct (lstrip_separators (PyStr.in_chars source_dir) seps (c :: t) c t
              Hseps eq_refl Hc) as (seps' & -> & Hseps').
  rewrite Hql at 1. rewrite app_assoc, (rstrip_by_stop _ _ _ Hl), <- app_assoc.
  rewrite <- Hql.
  assert (Hin : forall x, PyStr.in_chars [os_path.sep] x = Ascii.eqb os_path.sep x).
  { intros x. unfold PyStr.in_chars. simpl. rewrite orb_false_r. apply Ascii.eqb_sym. }
  rewrite drop_while_all
    by (apply forallb_forall; intros x Hx; rewrite Hin;
        rewrite forallb_forall in Hseps'; apply Hseps'; exact Hx).
  simpl PyStr.drop_while. rewrite Hcsep. cbn [orb].
  rewrite Hql. apply rstrip_by_stop. rewrite Hin, Ascii.eqb_sym. exact Hlsep.
Qed.

(** C8: for source root [/music], destination root [/out] and the source
    path [/music/ArtistX/Album [1985]/01.mp3], [copy_file] copies to
    [/out/ArtistX/Album [1985]/01.mp3]. *)
Theorem copy_file_example :
  copy_file (str "/music") (str "/out")
            (str "/music/ArtistX/Album [1985]/01.mp3")
  = ([], Return (str "/out/ArtistX/Album [1985]/01.mp3")).
Proof. reflexivity. Qed.

(** C1: the destination is not always the destination root joined with the
    remainder of the source path.  [strip] takes the source root as a set of
    characters: a lyrics file under [/music] loses the final [c] of its
    extension, a first folder named [sia] loses [si], and the path of the
    docstring of [copy_file] loses the [M] of its first folder. *)
Theorem copy_file_strips_a_character_set :
  copy_file (str "/music") (str "/out")
            (str "/music/ArtistX/Album [1985]/01.lrc")
  = ([], Return (str "/out/ArtistX/Album [1985]/01.lr"))
  /\ copy_file (str "/music") (str "/out")
               (str "/music/sia/Album [1985]/01.mp3")
     = ([], Return (str "/out/a/Album [1985]/01.mp3"))
  /\ PyStr.strip
       (str "D:\Music\Martha and the Muffins\Danseparc [1983]\01 - Obedience.mp3")
       (str "D:\Music")
     = str "artha and the Muffins\Danseparc [1983]\01 - Obedience.mp3".
Proof. repeat split; reflexivity. Qed.

(** ** Year extraction *)

Lemma isdigit_not_special (c : ascii) :
  PyStr.isdigit c = true ->
  PyStr.isspace c = false /\ Ascii.eqb c "[" = false
  /\ Ascii.eqb c "-" = false /\ Ascii.eqb c "+" = false.
Proof.
  destruct c as [[|] [|] [|] [|] [|] [|] [|] [|]]; vm_compute;
    intros H; try discriminate H; repeat split.
Qed.

Lemma match_year_inv (s g : pystr) :
  match_year s = Some g ->
  exists d1 d2 d3 d4 rest,
    s = "["%char :: d1 :: d2 :: d3 :: d4 :: "]"%char :: rest
    /\ g = [d1; d2; d3; d4]
    /\ PyStr.isdigit d1 = true /\ PyStr.isdigit d2 = true
    /\ PyStr.isdigit d3 = true /\ PyStr.isdigit d4 = true.
Proof.
  unfold match_year.
  destruct s as [|o [|d1 [|d2 [|d3 [|d4 [|c rest]]]]]]; simpl; try discriminate.
  destruct (Ascii.eqb o "[") eqn:Ho; simpl; try discriminate.
  destruct (PyStr.isdigit d1) eqn:H1; simpl; try discriminate.
  destruct (PyStr.isdigit d2) eqn:H2; simpl; try discriminate.
  destruct (PyStr.isdigit d3) eqn:H3; simpl; try discriminate.
  destruct (PyStr.isdigit d4) eqn:H4; simpl; try discriminate.
  destruct (Ascii.eqb c "]") eqn:Hc; simpl; try discriminate.
  intros [= <-]. apply Ascii.eqb_eq in Ho, Hc. subst o c.
  exists d1, d2, d3, d4, rest. repeat split; assumption.
Qed.

Lemma match_year_digit_head (c : ascii) (t : pystr) :
  Ascii.eqb c "[" = false -> match_year (c :: t) = None.
Proof.
  intros H. unfold match_year.
  destruct t as [|d1 [|d2 [|d3 [|d4 [|x rest]]]]]; simpl; try reflexivity.
  rewrite H. reflexivity.
Qed.

(** The five positions behind a match start no match: the scan of
    [findall] loses nothing by resuming behind the match. *)
Lemma no_match_inside (s g : pystr) (c : ascii) (j : nat) :
  match_year (c :: s) = Some g -> j < 5 -> match_year (skipn j s) = None.
Proof.
  intros H Hj. apply match_year_inv in H.
  destruct H as (d1 & d2 & d3 & d4 & rest & Hs & _ & H1 & H2 & H3 & H4).
  injection Hs as -> ->.
  apply isdigit_not_special in H1, H2, H3, H4.
  destruct j as [|[|[|[|[|j]]]]]; try lia; cbn [skipn];
    apply match_year_digit_head; try tauto; reflexivity.
Qed.

Lemma findall_from_all_matches (s : pystr) (k : nat) :
  (forall j, j < k -> match_year (skipn j s) = None) ->
  findall_from k s = all_matches s.
Proof.
  revert k; induction s as [|c t IH]; intros k Hk; [reflexivity|].
  destruct k as [|k].
  - simpl findall_from. simpl all_matches.
    destruct (match_year (c :: t)) as [g|] eqn:Hm.
    + f_equal. apply IH. intros j Hj. eapply no_match_inside; eassumption.
    + apply IH. intros j Hj; lia.
  - simpl findall_from. simpl all_matches.
    pose proof (Hk 0%nat ltac:(lia)) as H0. cbn [skipn] in H0. rewrite H0.
    apply IH. intros j Hj. apply (Hk (S j)). lia.
Qed.

Lemma re_findall_year_all_matches (s : pystr) :
  re_findall_year s = all_matches s.
Proof. apply findall_from_all_matches. intros j Hj; lia. Qed.

Lemma year_token_match (name : pystr) (i : nat) (digits : pystr) :
  year_token_at name i digits <-> match_year (skipn i name) = Some digits.
Proof.
  split.
  - intros (Hlen & Hdig & pre & post & Hpre & ->).
    subst i. rewrite skipn_app, skipn_all, Nat.sub_diag. simpl skipn.
    destruct digits as [|d1 [|d2 [|d3 [|d4 [|x r]]]]]; try discriminate Hlen.
    inversion Hdig as [|? ? H1 Hdig1]; subst.
    inversion Hdig1 as [|? ? H2 Hdig2]; subst.
    inversion Hdig2 as [|? ? H3 Hdig3]; subst.
    inversion Hdig3 as [|? ? H4 _]; subst.
    unfold match_year. simpl. rewrite H1, H2, H3, H4. reflexivity.
  - intros H. pose proof H as H'. apply match_year_inv in H'.
    destruct H' as (d1 & d2 & d3 & d4 & rest & Hs & -> & H1 & H2 & H3 & H4).
    split; [reflexivity|]. split; [repeat constructor; assumption|].
    exists (firstn i name), rest. split.
    + apply firstn_length_le.
      destruct (Nat.le_gt_cases i (length name)) as [Hle|Hgt]; [assumption|].
      rewrite skipn_all2 in Hs by lia. discriminate Hs.
    + simpl. rewrite <- Hs. symmetry. apply firstn_skipn.
Qed.

Lemma year_tokens_from_spec (s : pystr) :
  forall k j d,
    In (j, d) (year_tokens_from k s)
    <-> exists i, j = k + i /\ match_year (skipn i s) = Some d.
Proof.
  induction s as [|c t IH]; intros k j d.
  - split; [intros []|]. intros (i & _ & H). rewrite skipn_nil in H. discriminate H.
  - assert (Hrest : In (j, d) (year_tokens_from (S k) t)
                    <-> exists i, j = k + S i
                                  /\ match_year (skipn (S i) (c :: t)) = Some d).
    { rewrite IH. split; intros (i & Hj & Hm); exists i; (split; [lia|exact Hm]). }
    cbn [year_tokens_from]. split.
    + intros Hin.
      assert (Hcase : (j = k /\ match_year (c :: t) = Some d)
                      \/ In (j, d) (year_tokens_from (S k) t)).
      { destruct (match_year (c :: t)) as [g|]; [|right; exact Hin].
        destruct Hin as [[= <- <-]|Hin]; [left; split; reflexivity|right; exact Hin]. }
      destruct Hcase as [[-> Hm]|Hin'].
      * exists 0. split; [lia|exact Hm].
      * apply Hrest in Hin'. destruct Hin' as (i & Hj & Hm). exists (S i). split; assumption.
    + intros ([|i] & Hj & Hm).
      * cbn [skipn] in Hm. rewrite Hm. left. f_equal. lia.
      * assert (Hin : In (j, d) (year_tokens_from (S k) t))
          by (apply Hrest; exists i; split; assumption).
        destruct (match_year (c :: t)); [right|]; exact Hin.
Qed.

(** [year_tokens] lists exactly the bracketed years of a name. *)
Lemma year_tokens_spec (name : pystr) (j : nat) (d : pystr) :
  year_token_at name j d <-> In (j, d) (year_tokens name).
Proof.
  rewrite year_token_match. unfold year_tokens. rewrite year_tokens_from_spec.
  split.
  - intros H. exists j. split; [reflexivity|exact H].
  - intros (i & -> & H). exact H.
Qed.

Lemma all_matches_nil (s : pystr) :
  all_matches s = [] <-> forall j, match_year (skipn j s) = None.
Proof.
  induction s as [|c t IH].
  - split; [|reflexivity]. intros _ j. destruct j; reflexivity.
  - simpl all_matches. destruct (match_year (c :: t)) as [g|] eqn:Hm.
    + split; [discriminate|]. intros H. specialize (H 0%nat). simpl in H. congruence.
    + rewrite IH. split.
      * intros H [|j]; [exact Hm|apply H].
      * intros H j. apply (H (S j)).
Qed.

Lemma index_neg_last_cons (A : Type) (x : A) (l : list A) :
  l <> [] -> index_neg (x :: l) 1 = index_neg l 1.
Proof.
  intros Hl. unfold index_neg. simpl rev.
  destruct (rev l) as [|y r] eqn:Hr.
  - apply (f_equal (@rev A)) in Hr. rewrite rev_involutive in Hr. contradiction.
  - reflexivity.
Qed.

(** The last of all matches is the match at the highest index. *)
Lemma all_matches_last (s : pystr) :
  all_matches s <> [] ->
  exists i g,
    match_year (skipn i s) = Some g
    /\ (forall j, i < j -> match_year (skipn j s) = None)
    /\ index_neg (all_matches s) 1 = ret g.
Proof.
  induction s as [|c t IH]; [intros H; contradiction H; reflexivity|].
  intros Hne. destruct (all_matches t) as [|g0 l0] eqn:Ht.
  - simpl in Hne |- *. rewrite Ht in *.
    destruct (match_year (c :: t)) as [g|] eqn:Hm; [|contradiction Hne; reflexivity].
    exists 0%nat, g. split; [exact Hm|]. split; [|reflexivity].
    intros [|j] Hj; [lia|]. simpl. apply all_matches_nil. exact Ht.
  - destruct IH as (i & g & Hi & Hafter & Hlast); [discriminate|].
    exists (S i), g. split; [exact Hi|]. split.
    + intros [|j] Hj; [lia|]. simpl. apply Hafter. lia.
    + simpl all_matches. rewrite Ht in *.
      destruct (match_year (c :: t)); [|exact Hlast].
      rewrite index_neg_last_cons by discriminate. exact Hlast.
Qed.

Lemma py_int_four_digits (g : pystr) :
  length g = 4 -> Forall (fun c => PyStr.isdigit c = true) g ->
  py_int g = Some (decimal_value g).
Proof.
  intros Hlen Hdig.
  destruct g as [|d1 [|d2 [|d3 [|d4 [|x r]]]]]; try discriminate Hlen.
  inversion Hdig as [|? ? H1 Hdig1]; subst.
  inversion Hdig1 as [|? ? H2 Hdig2]; subst.
  inversion Hdig2 as [|? ? H3 Hdig3]; subst.
  inversion Hdig3 as [|? ? H4 _]; subst.
  destruct (isdigit_not_special _ H1) as (S1 & _ & M1 & P1).
  destruct (isdigit_not_special _ H4) as (S4 & _ & _ & _).
  assert (Hstrip : PyStr.strip_by PyStr.isspace [d1; d2; d3; d4]
                   = [d1; d2; d3; d4]).
  { unfold PyStr.strip_by, PyStr.lstrip_by, PyStr.rstrip_by.
    cbn [PyStr.drop_while]. rewrite S1. cbn [rev app PyStr.drop_while].
    rewrite S4. reflexivity. }
  unfold py_int. rewrite Hstrip, M1, P1.
  cbn [int_digits]. rewrite H1, H2, H3, H4. reflexivity.
Qed.

Lemma album_year_last_match (name : pystr) :
  (exists i digits, year_token_at name i digits) ->
  exists i digits,
    year_token_at name i digits
    /\ (forall j digits', year_token_at name j digits' -> j <= i)
    /\ album_year name = ret (decimal_value digits).
Proof.
  intros (i0 & d0 & H0). apply year_token_match in H0.
  destruct (all_matches_last name) as (i & g & Hi & Hafter & Hlast).
  { intros Hnil. rewrite all_matches_nil in Hnil. rewrite Hnil in H0. discriminate. }
  exists i, g. split; [apply year_token_match; exact Hi|]. split.
  - intros j d' Hj. apply year_token_match in Hj.
    destruct (Nat.le_gt_cases j i) as [Hle|Hgt]; [exact Hle|].
    rewrite Hafter in Hj by lia. discriminate.
  - unfold album_year. rewrite re_findall_year_all_matches, Hlast.
    apply year_token_match in Hi. destruct Hi as (Hlen & Hdig & _).
    unfold int_. simpl. rewrite (py_int_four_digits _ Hlen Hdig). reflexivity.
Qed.

(** C3: when the album name holds a 4-digit integer in square brackets,
    year extraction returns the integer of the rightmost such token; with
    exactly one token it returns that one. *)
Theorem album_year_is_last_token (name : pystr) :
  ((exists i digits, year_token_at name i digits) ->
   exists i digits,
     year_token_at name i digits
     /\ (forall j digits', year_token_at name j digits' -> j <= i)
     /\ album_year name = ret (decimal_value digits))
  /\ (forall i digits,
        year_token_at name i digits ->
        (forall j digits', year_token_at name j digits' -> j = i) ->
        album_year name = ret (decimal_value digits)).
Proof.
  split; [apply album_year_last_match|].
  intros i digits Hi Huniq.
  destruct (album_year_last_match name) as (i' & d' & Hi' & _ & Hres);
    [exists i, digits; exact Hi|].
  pose proof (Huniq _ _ Hi') as ->.
  apply year_token_match in Hi, Hi'. rewrite Hi in Hi'. injection Hi' as <-.
  exact Hres.
Qed.

(** ** The year filter *)

Lemma not_any_of_int (s : pystr) (z : Z) :
  py_int s = Some z -> PyStr.eqb s (str "any") = false.
Proof.
  intros H. apply eqb_neq. intros ->. discriminate H.
Qed.

Lemma year_in_range_bounded (smin smax : pystr) (lo hi y : Z) :
  py_int smin = Some lo -> py_int smax = Some hi ->
  year_in_range smin smax y = ret ((lo <=? y)%Z && (y <=? hi)%Z).
Proof.
  intros Hlo Hhi. unfold year_in_range, int_.
  rewrite (not_any_of_int _ _ Hlo), (not_any_of_int _ _ Hhi), Hlo, Hhi.
  simpl. destruct (lo <=? y)%Z; reflexivity.
Qed.

Lemma process_album_dir_of_year (path_exists : pystr -> bool)
      (album_path : pystr) (entries : list node) (min_year max_year : pystr)
      (y : Z) :
  album_of_year album_path y ->
  process_album_dir path_exists album_path entries min_year max_year
  = bind (year_in_range min_year max_year y)
         (fun inside : bool =>
            ret (if inside then select_files path_exists album_path entries
                 else [])).
Proof.
  intros (album_name & artist_name & Hal & Har & Hy).
  unfold process_album_dir.
  rewrite Hal, bind_ret_l, Har, bind_ret_l, Hy, try_except_ret, bind_ret_l.
  destruct (year_in_range min_year max_year y) as [out [[|]| |]]; reflexivity.
Qed.

(** C5: the year filter is inclusive at both bounds and reads ["any"] as no
    bound: with both bounds ["any"] every year passes; a bound that is
    ["any"] leaves only the other one; with two integer bounds the years
    from the lower to the upper bound pass, the bounds themselves included
    when the lower is not above the upper; an album whose year is outside
    the range yields the empty selection and no error, an album whose year
    is inside yields what the walk of its folder selects. *)
Theorem year_filter_inclusive :
  (forall y, year_in_range (str "any") (str "any") y = ret true)
  /\ (forall smax hi y,
        py_int smax = Some hi ->
        year_in_range (str "any") smax y = ret (y <=? hi)%Z)
  /\ (forall smin lo y,
        py_int smin = Some lo ->
        year_in_range smin (str "any") y = ret (lo <=? y)%Z)
  /\ (forall smin smax lo hi y,
        py_int smin = Some lo -> py_int smax = Some hi ->
        year_in_range smin smax y = ret ((lo <=? y)%Z && (y <=? hi)%Z))
  /\ (forall smin smax lo hi,
        py_int smin = Some lo -> py_int smax = Some hi -> (lo <= hi)%Z ->
        year_in_range smin smax lo = ret true
        /\ year_in_range smin smax hi = ret true)
  /\ (forall path_exists album_path entries smin smax y,
        album_of_year album_path y ->
        year_in_range smin smax y = ret false ->
        process_album_dir path_exists album_path entries smin smax = ret [])
  /\ (forall path_exists album_path entries smin smax y,
        album_of_year album_path y ->
        year_in_range smin smax y = ret true ->
        process_album_dir path_exists album_path entries smin smax
        = ret (select_files path_exists album_path entries)).
Proof.
  repeat apply conj.
  - reflexivity.
  - intros smax hi y Hhi. unfold year_in_range, int_.
    rewrite (not_any_of_int _ _ Hhi), Hhi. reflexivity.
  - intros smin lo y Hlo. unfold year_in_range, int_.
    rewrite (not_any_of_int _ _ Hlo), Hlo. simpl.
    destruct (lo <=? y)%Z; reflexivity.
  - apply year_in_range_bounded.
  - intros smin smax lo hi Hlo Hhi Hle.
    rewrite !(@year_in_range_bounded smin smax lo hi _ Hlo Hhi).
    split; f_equal; apply andb_true_iff; split; apply Z.leb_le; lia.
  - intros pe album_path entries smin smax y Hal Hout.
    rewrite (process_album_dir_of_year _ _ _ _ _ _ Hal), Hout. reflexivity.
  - intros pe album_path entries smin smax y Hal Hin.
    rewrite (process_album_dir_of_year _ _ _ _ _ _ Hal), Hin. reflexivity.
Qed.

(** ** [rfind], [join] and [splitext] *)

Lemma rfind_ge (s : pystr) (c : ascii) : (-1 <= PyStr.rfind s c)%Z.
Proof.
  induction s as [|x t IH]; simpl; [lia|].
  destruct (0 <=? PyStr.rfind t c)%Z eqn:E.
  - apply Z.leb_le in E. lia.
  - destruct (Ascii.eqb x c); lia.
Qed.

Lemma rfind_lt (s : pystr) (c : ascii) :
  (PyStr.rfind s c < Z.of_nat (length s))%Z.
Proof.
  induction s as [|x t IH]; simpl length; [simpl; lia|].
  cbn [PyStr.rfind]. cbv zeta.
  destruct (0 <=? PyStr.rfind t c)%Z eqn:E.
  - lia.
  - destruct (Ascii.eqb x c); lia.
Qed.

Lemma rfind_app (a b : pystr) (c : ascii) :
  PyStr.rfind (a ++ b) c
  = if (0 <=? PyStr.rfind b c)%Z
    then (Z.of_nat (length a) + PyStr.rfind b c)%Z
    else PyStr.rfind a c.
Proof.
  induction a as [|x a IH].
  - simpl. destruct (0 <=? PyStr.rfind b c)%Z eqn:E; [reflexivity|].
    apply Z.leb_gt in E. pose proof (rfind_ge b c). lia.
  - cbn [app PyStr.rfind]. cbv zeta. rewrite IH.
    destruct (0 <=? PyStr.rfind b c)%Z eqn:E.
    + apply Z.leb_le in E.
      replace (0 <=? Z.of_nat (length a) + PyStr.rfind b c)%Z with true
        by (symmetry; apply Z.leb_le; lia).
      simpl length. lia.
    + reflexivity.
Qed.

Lemma rfind_absent (s : pystr) (c : ascii) :
  forallb (fun x => negb (Ascii.eqb x c)) s = true -> PyStr.rfind s c = (-1)%Z.
Proof.
  induction s as [|x t IH]; simpl; [reflexivity|].
  rewrite andb_true_iff, negb_true_iff. intros [Hx Ht].
  rewrite (IH Ht), Hx. reflexivity.
Qed.

Lemma rfind_found (s : pystr) (c : ascii) :
  (0 <= PyStr.rfind s c)%Z ->
  exists a b,
    s = a ++ c :: b
    /\ Z.of_nat (length a) = PyStr.rfind s c
    /\ forallb (fun x => negb (Ascii.eqb x c)) b = true.
Proof.
  induction s as [|x t IH]; [simpl; lia|].
  cbn [PyStr.rfind]. cbv zeta.
  destruct (0 <=? PyStr.rfind t c)%Z eqn:E.
  - intros _. apply Z.leb_le in E. destruct (IH E) as (a & b & -> & Hlen & Hb).
    exists (x :: a), b. repeat split; [|exact Hb]. simpl length. lia.
  - apply Z.leb_gt in E. destruct (Ascii.eqb x c) eqn:Hx; [|lia].
    intros _. apply Ascii.eqb_eq in Hx. subst x.
    exists [], t. repeat split.
    clear IH. induction t as [|y t IHt]; [reflexivity|].
    cbn [PyStr.rfind] in E. cbv zeta in E.
    destruct (0 <=? PyStr.rfind t c)%Z eqn:E'.
    + apply Z.leb_le in E'. lia.
    + destruct (Ascii.eqb y c) eqn:Hy; [lia|].
      simpl. rewrite Hy. simpl. apply IHt. apply Z.leb_gt in E'. exact E'.
Qed.

Lemma sep_free_app (a b : pystr) :
  sep_free (a ++ b) = sep_free a && sep_free b.
Proof. apply forallb_app. Qed.

Lemma dot_free_app (a b : pystr) :
  dot_free (a ++ b) = dot_free a && dot_free b.
Proof. apply forallb_app. Qed.

Lemma valid_name_sep_free (s : pystr) : valid_name s = true -> sep_free s = true.
Proof. destruct s; [discriminate|]. exact (fun H => H). Qed.

Lemma sep_free_startswith (f : pystr) :
  sep_free f = true -> PyStr.startswith f [os_path.sep] = false.
Proof.
  destruct f as [|c t]; [reflexivity|]. simpl.
  rewrite andb_true_iff, negb_true_iff. intros [-> _]. reflexivity.
Qed.

Lemma endswith_sep_inv (a : pystr) :
  PyStr.endswith a [os_path.sep] = true -> exists q, a = q ++ [os_path.sep].
Proof.
  unfold PyStr.endswith. simpl rev. intros H.
  destruct (rev a) as [|c r] eqn:Hr; [discriminate|].
  simpl in H. rewrite andb_true_r in H. apply Ascii.eqb_eq in H. subst c.
  exists (rev r). apply (f_equal (@rev ascii)) in Hr.
  rewrite rev_involutive in Hr. subst a. reflexivity.
Qed.

Lemma endswith_sep_last (q : pystr) (c : ascii) :
  PyStr.endswith (q ++ [c]) [os_path.sep] = Ascii.eqb c os_path.sep.
Proof.
  unfold PyStr.endswith. rewrite rev_app_distr. simpl. apply andb_true_r.
Qed.

Lemma join_prefix (a f : pystr) :
  PyStr.startswith f [os_path.sep] = false ->
  os_path.join a f = dir_prefix a ++ f.
Proof.
  intros H. unfold os_path.join, dir_prefix. rewrite H.
  destruct a as [|c a]; [reflexivity|].
  destruct (PyStr.endswith (c :: a) [os_path.sep]); [reflexivity|].
  rewrite <- app_assoc. reflexivity.
Qed.

Lemma dir_prefix_shape (a : pystr) :
  dir_prefix a = [] \/ exists q, dir_prefix a = q ++ [os_path.sep].
Proof.
  unfold dir_prefix. destruct a as [|c a]; [left; reflexivity|]. right.
  destruct (PyStr.endswith (c :: a) [os_path.sep]) eqn:E.
  - apply endswith_sep_inv. exact E.
  - exists (c :: a). reflexivity.
Qed.

Lemma dir_prefix_nonempty (a : pystr) :
  a <> [] -> exists q, dir_prefix a = q ++ [os_path.sep].
Proof.
  intros Ha. destruct (dir_prefix_shape a) as [H|H]; [|exact H].
  unfold dir_prefix in H. destruct a as [|c a]; [contradiction Ha; reflexivity|].
  destruct (PyStr.endswith (c :: a) [os_path.sep]); [discriminate|].
  destruct a; discriminate.
Qed.

Lemma firstn_length_app (A : Type) (a b : list A) :
  firstn (length a) (a ++ b) = a.
Proof. induction a as [|x a IH]; simpl; [destruct b|]; congruence. Qed.

Lemma skipn_length_app (A : Type) (a b : list A) :
  skipn (length a) (a ++ b) = b.
Proof. induction a as [|x a IH]; simpl; congruence. Qed.

Lemma firstn_length_plus (A : Type) (a b : list A) (n : nat) :
  firstn (length a + n) (a ++ b) = a ++ firstn n b.
Proof. induction a as [|x a IH]; simpl; congruence. Qed.

Lemma skipn_length_plus (A : Type) (a b : list A) (n : nat) :
  skipn (length a + n) (a ++ b) = skipn n b.
Proof. induction a as [|x a IH]; simpl; congruence. Qed.

(** [splitext] either finds no extension or cuts before the last dot. *)
Lemma splitext_cases (p : pystr) :
  os_path.splitext p = (p, [])
  \/ exists b x,
      os_path.splitext p = (b, os_path.extsep :: x)
      /\ p = b ++ os_path.extsep :: x
      /\ dot_free x = true
      /\ (PyStr.rfind p os_path.sep < Z.of_nat (length b))%Z
      /\ has_non_dot
           (PyStr.slice p (PyStr.rfind p os_path.sep + 1) (Z.of_nat (length b)))
         = true.
Proof.
  unfold os_path.splitext.
  destruct (PyStr.rfind p os_path.sep <? PyStr.rfind p os_path.extsep)%Z eqn:E;
    [|left; reflexivity].
  apply Z.ltb_lt in E. pose proof (rfind_ge p os_path.sep) as Hs.
  destruct (rfind_found p os_path.extsep) as (a & b & Hp & Hlen & Hb); [lia|].
  rewrite <- Hlen in *. rewrite Nat2Z.id.
  fold (has_non_dot (PyStr.slice p (PyStr.rfind p os_path.sep + 1)
                                 (Z.of_nat (length a)))).
  destruct (has_non_dot _) eqn:Hnd; [|left; reflexivity].
  right. exists a, b. rewrite Hp at 1 2 3.
  rewrite firstn_length_app, skipn_length_app.
  repeat split; try assumption.
Qed.

Lemma splitext_prefix (pre f : pystr) :
  pre = [] \/ (exists q, pre = q ++ [os_path.sep]) ->
  sep_free f = true ->
  os_path.splitext (pre ++ f)
  = (pre ++ fst (os_path.splitext f), snd (os_path.splitext f)).
Proof.
  intros Hpre Hf. unfold os_path.splitext.
  pose proof (rfind_absent f os_path.sep Hf) as Hfs.
  assert (Hsep : PyStr.rfind (pre ++ f) os_path.sep
                 = (Z.of_nat (length pre) - 1)%Z).
  { rewrite rfind_app, Hfs. change (0 <=? -1)%Z with false. cbv iota.
    destruct Hpre as [->|[q ->]]; [reflexivity|].
    rewrite rfind_app.
    replace (PyStr.rfind [os_path.sep] os_path.sep) with 0%Z by reflexivity.
    change (0 <=? 0)%Z with true. cbv iota. rewrite length_app. simpl length. lia. }
  rewrite Hsep, Hfs, rfind_app.
  pose proof (rfind_ge f os_path.extsep) as Hge.
  pose proof (rfind_lt pre os_path.extsep) as Hlt.
  destruct (0 <=? PyStr.rfind f os_path.extsep)%Z eqn:E.
  - apply Z.leb_le in E.
    replace (Z.of_nat (length pre) - 1
             <? Z.of_nat (length pre) + PyStr.rfind f os_path.extsep)%Z
      with true by (symmetry; apply Z.ltb_lt; lia).
    replace (-1 <? PyStr.rfind f os_path.extsep)%Z
      with true by (symmetry; apply Z.ltb_lt; lia).
    unfold PyStr.slice.
    replace (Z.to_nat (Z.of_nat (length pre) - 1 + 1)) with (length pre) by lia.
    rewrite skipn_length_app.
    replace (Z.of_nat (length pre) + PyStr.rfind f os_path.extsep
             - (Z.of_nat (length pre) - 1 + 1))%Z
      with (PyStr.rfind f os_path.extsep - (-1 + 1))%Z by lia.
    simpl (Z.to_nat (-1 + 1)). cbn [skipn].
    replace (Z.to_nat (Z.of_nat (length pre) + PyStr.rfind f os_path.extsep))
      with (length pre + Z.to_nat (PyStr.rfind f os_path.extsep))%nat by lia.
    rewrite firstn_length_plus, skipn_length_plus.
    destruct (existsb _ _); reflexivity.
  - apply Z.leb_gt in E.
    replace (Z.of_nat (length pre) - 1 <? PyStr.rfind pre os_path.extsep)%Z
      with false by (symmetry; apply Z.ltb_ge; lia).
    replace (-1 <? PyStr.rfind f os_path.extsep)%Z
      with false by (symmetry; apply Z.ltb_ge; lia).
    reflexivity.
Qed.

Lemma drop_while_dot_free (s : pystr) :
  dot_free s = true -> PyStr.drop_while (PyStr.in_chars (str ".")) s = s.
Proof.
  destruct s as [|c t]; [reflexivity|]. simpl.
  rewrite andb_true_iff, negb_true_iff. intros [Hc _].
  unfold os_path.extsep in Hc. rewrite Hc. reflexivity.
Qed.

Lemma dot_free_rev (s : pystr) : dot_free (rev s) = dot_free s.
Proof.
  unfold dot_free. induction s as [|c t IH]; [reflexivity|].
  simpl. rewrite forallb_app, IH. simpl. rewrite andb_true_r. apply andb_comm.
Qed.

Lemma strip_dot (x : pystr) :
  dot_free x = true -> PyStr.strip (os_path.extsep :: x) (str ".") = x.
Proof.
  intros Hx. unfold PyStr.strip, PyStr.strip_by, PyStr.lstrip_by, PyStr.rstrip_by.
  cbn [PyStr.drop_while]. replace (PyStr.in_chars (str ".") os_path.extsep) with true by reflexivity.
  rewrite (drop_while_dot_free _ Hx).
  rewrite drop_while_dot_free by (rewrite dot_free_rev; exact Hx).
  apply rev_involutive.
Qed.

Lemma get_file_ext_inv (p x : pystr) :
  get_file_ext p = x -> x <> [] ->
  exists b,
    os_path.splitext p = (b, os_path.extsep :: x)
    /\ p = b ++ os_path.extsep :: x
    /\ dot_free x = true
    /\ (PyStr.rfind p os_path.sep < Z.of_nat (length b))%Z
    /\ has_non_dot
         (PyStr.slice p (PyStr.rfind p os_path.sep + 1) (Z.of_nat (length b)))
       = true.
Proof.
  intros Hext Hx. unfold get_file_ext in Hext.
  destruct (splitext_cases p) as [H|(b & x0 & H & Hp & Hdf & Hlt & Hnd)];
    rewrite H in Hext.
  - subst x. contradiction Hx. reflexivity.
  - rewrite (strip_dot _ Hdf) in Hext. subst x0. exists b. repeat split; assumption.
Qed.

(** The extension of a joined path is the extension of the joined name. *)
Lemma get_file_ext_join (a f : pystr) :
  sep_free f = true -> get_file_ext (os_path.join a f) = get_file_ext f.
Proof.
  intros Hf. rewrite join_prefix by (apply sep_free_startswith; exact Hf).
  unfold get_file_ext. rewrite (splitext_prefix _ _ (dir_prefix_shape a) Hf).
  destruct (os_path.splitext f). reflexivity.
Qed.

(** A separator-free name with an extension: stem, dot, extension. *)
Lemma get_file_ext_name (f x : pystr) :
  sep_free f = true -> get_file_ext f = x -> x <> [] ->
  exists b,
    os_path.splitext f = (b, os_path.extsep :: x)
    /\ f = b ++ os_path.extsep :: x
    /\ dot_free x = true /\ sep_free x = true
    /\ sep_free b = true /\ has_non_dot b = true.
Proof.
  intros Hf Hext Hx.
  destruct (get_file_ext_inv _ _ Hext Hx) as (b & Hsp & Hp & Hdf & _ & Hnd).
  exists b. rewrite Hp in Hf. rewrite sep_free_app in Hf.
  apply andb_true_iff in Hf. destruct Hf as [Hb Hx'].
  simpl in Hx'.
  repeat split; try assumption.
  assert (Hs : PyStr.rfind f os_path.sep = (-1)%Z).
  { apply rfind_absent. rewrite Hp. fold (sep_free (b ++ os_path.extsep :: x)).
    rewrite sep_free_app, Hb. simpl. exact Hx'. }
  rewrite Hs in Hnd. unfold PyStr.slice in Hnd. simpl (Z.to_nat (-1 + 1)) in Hnd.
  cbn [skipn] in Hnd.
  replace (Z.to_nat (Z.of_nat (length b) - (-1 + 1))) with (length b) in Hnd by lia.
  rewrite Hp, firstn_length_app in Hnd. exact Hnd.
Qed.

(** The name the script builds for the media sibling splits back into the
    stem and the media extension. *)
Lemma splitext_stem (b x : pystr) :
  sep_free b = true -> has_non_dot b = true ->
  dot_free x = true -> sep_free x = true ->
  os_path.splitext (b ++ os_path.extsep :: x) = (b, os_path.extsep :: x).
Proof.
  intros Hb Hnd Hdx Hsx. unfold os_path.splitext.
  assert (Hs : PyStr.rfind (b ++ os_path.extsep :: x) os_path.sep = (-1)%Z).
  { apply rfind_absent. fold (sep_free (b ++ os_path.extsep :: x)).
    rewrite sep_free_app, Hb. simpl. exact Hsx. }
  assert (Hd : PyStr.rfind (b ++ os_path.extsep :: x) os_path.extsep
               = Z.of_nat (length b)).
  { rewrite rfind_app. cbn [PyStr.rfind]. cbv zeta.
    rewrite (rfind_absent x os_path.extsep Hdx). change (0 <=? -1)%Z with false. cbv iota.
    rewrite Ascii.eqb_refl. change (0 <=? 0)%Z with true. cbv iota. lia. }
  rewrite Hs, Hd.
  replace (-1 <? Z.of_nat (length b))%Z with true by (symmetry; apply Z.ltb_lt; lia).
  unfold PyStr.slice. simpl (Z.to_nat (-1 + 1)). cbn [skipn].
  replace (Z.to_nat (Z.of_nat (length b) - (-1 + 1))) with (length b) by lia.
  rewrite Nat2Z.id, firstn_length_app, skipn_length_app.
  unfold has_non_dot in Hnd. rewrite Hnd. reflexivity.
Qed.

Lemma get_file_ext_stem (b x : pystr) :
  sep_free b = true -> has_non_dot b = true ->
  dot_free x = true -> sep_free x = true ->
  get_file_ext (b ++ os_path.extsep :: x) = x.
Proof.
  intros Hb Hnd Hdx Hsx. unfold get_file_ext.
  rewrite (splitext_stem _ _ Hb Hnd Hdx Hsx). apply strip_dot. exact Hdx.
Qed.

(** ** The walk of a directory *)

Lemma node_induction (P : node -> Prop) :
  (forall f, P (File f)) ->
  (forall d entries, Forall P entries -> P (Dir d entries)) ->
  forall e, P e.
Proof.
  intros HF HD. fix IH 1. intros [f|d entries]; [apply HF|].
  apply HD. induction entries as [|x t IHt]; constructor; [apply IH|exact IHt].
Qed.

Lemma in_files_of (entries : list node) (f : pystr) :
  In f (files_of entries) <-> In (File f) entries.
Proof.
  unfold files_of. rewrite in_flat_map. split.
  - intros ([g|d sub] & Hin & Hf); simpl in Hf; [|contradiction].
    destruct Hf as [<-|[]]. exact Hin.
  - intros Hin. exists (File f). split; [exact Hin|left; reflexivity].
Qed.

Lemma in_dirs_of (entries : list node) (d : node) :
  In d (dirs_of entries)
  <-> In d entries /\ exists name sub, d = Dir name sub.
Proof.
  unfold dirs_of. rewrite filter_In. split.
  - intros [Hin Hd]. split; [exact Hin|].
    destruct d as [f|name sub]; [discriminate|]. exists name, sub. reflexivity.
  - intros [Hin (name & sub & ->)]. split; [exact Hin|reflexivity].
Qed.

Lemma walk_dir_in (topdown : bool) (top name : pystr) (entries : list node)
      (item : walk_item) :
  In item (walk_dir topdown top (Dir name entries))
  <-> item = (top, dirs_of entries, files_of entries)
      \/ exists d,
          In d entries
          /\ In item (walk_dir topdown (os_path.join top (node_name d)) d).
Proof.
  cbn [walk_dir]. destruct topdown.
  - cbn [In]. rewrite in_flat_map. split; (intros [H|H]; [left; congruence|right; exact H]).
  - rewrite in_app_iff, in_flat_map. cbn [In]. split.
    + intros [H|[H|[]]]; [right; exact H|left; congruence].
    + intros [H|H]; [right; left; congruence|left; exact H].
Qed.

Lemma walk_dir_file_in (topdown : bool) (e : node) :
  forall top root dirs files f,
    In (root, dirs, files) (walk_dir topdown top e) -> In f files ->
    file_in top (entries_of e) root f.
Proof.
  induction e as [g|name entries IH] using node_induction;
    intros top root dirs files f Hitem Hf; [contradiction Hitem|].
  apply walk_dir_in in Hitem. destruct Hitem as [Heq|(d & Hd & Hitem)].
  - injection Heq as -> _ ->. apply file_here. apply in_files_of. exact Hf.
  - rewrite Forall_forall in IH. specialize (IH d Hd _ _ _ _ _ Hitem Hf).
    destruct d as [g|name' sub]; [contradiction Hitem|].
    eapply file_below; eassumption.
Qed.

Lemma file_in_walk_dir (topdown : bool) (top : pystr) (entries : list node)
      (root f : pystr) :
  file_in top entries root f ->
  forall name,
  exists dirs files,
    In (root, dirs, files) (walk_dir topdown top (Dir name entries))
    /\ In f files.
Proof.
  induction 1 as [top entries f Hin|top entries name' sub dir f Hin _ IH];
    intros name.
  - exists (dirs_of entries), (files_of entries). split.
    + apply walk_dir_in. left. reflexivity.
    + apply in_files_of. exact Hin.
  - destruct (IH name') as (dirs & files & Hitem & Hf).
    exists dirs, files. split; [|exact Hf].
    apply walk_dir_in. right. exists (Dir name' sub). split; assumption.
Qed.

Lemma os_walk_files (topdown : bool) (top : pystr) (entries : list node)
      (root f : pystr) :
  top <> [] ->
  (file_in top entries root f
   <-> exists dirs files,
        In (root, dirs, files) (os_walk topdown top entries) /\ In f files).
Proof.
  intros Htop. unfold os_walk. destruct top as [|c t]; [contradiction Htop; reflexivity|].
  split.
  - intros H. apply file_in_walk_dir. exact H.
  - intros (dirs & files & Hitem & Hf).
    apply (walk_dir_file_in topdown (Dir (c :: t) entries) _ _ _ _ _ Hitem Hf).
Qed.

Lemma file_in_valid (top : pystr) (entries : list node) (root f : pystr) :
  file_in top entries root f -> wf_entries entries = true ->
  valid_name f = true.
Proof.
  induction 1 as [top entries f Hin|top entries name sub dir f Hin _ IH];
    intros Hwf; unfold wf_entries in Hwf; rewrite forallb_forall in Hwf.
  - exact (Hwf _ Hin).
  - apply IH. specialize (Hwf _ Hin). simpl in Hwf.
    apply andb_true_iff in Hwf. exact (proj2 Hwf).
Qed.

(** ** What is selected *)

Lemma mem_in (x : pystr) (l : list pystr) : PyStr.mem x l = true <-> In x l.
Proof.
  unfold PyStr.mem. rewrite existsb_exists. split.
  - intros (y & Hy & He). apply eqb_eq in He. subst y. exact Hy.
  - intros H. exists x. split; [exact H|apply eqb_refl].
Qed.

Lemma select_file_in (path_exists : pystr -> bool) (root f p : pystr) :
  In p (select_file path_exists root f)
  <-> (get_file_ext f = str "lrc"
       /\ (p = os_path.join root f
           \/ exists x,
               In x EXTS_MEDIA
               /\ p = os_path.join root
                        (fst (os_path.splitext f) ++ os_path.extsep :: x)
               /\ path_exists p = true))
      \/ (get_file_ext f = str "jpg" /\ p = os_path.join root f).
Proof.
  unfold select_file.
  destruct (PyStr.mem (get_file_ext f) EXTS_LYRICS) eqn:Hl.
  - apply mem_in in Hl. destruct Hl as [Hl|[]].
    destruct (os_path.splitext f) as [basename e] eqn:Hsp. cbn [fst In].
    rewrite in_flat_map. split.
    + intros [<-|(x & Hx & Hp)]; left; (split; [congruence|]).
      * left. reflexivity.
      * right. exists x. split; [exact Hx|].
        change (str "." ++ x) with (os_path.extsep :: x) in Hp.
        destruct (path_exists _) eqn:Hex; [|contradiction Hp].
        destruct Hp as [<-|[]]. split; [reflexivity|exact Hex].
    + intros [[_ [->|(x & Hx & -> & Hex)]]|[Hj _]].
      * left. reflexivity.
      * right. exists x. split; [exact Hx|].
        change (str "." ++ x) with (os_path.extsep :: x).
        rewrite Hex. left. reflexivity.
      * rewrite Hj in Hl. discriminate Hl.
  - destruct (PyStr.mem (get_file_ext f) EXTS_ART) eqn:Ha.
    + apply mem_in in Ha. destruct Ha as [Ha|[]]. cbn [In]. split.
      * intros [<-|[]]. right. split; congruence.
      * intros [[Hlrc _]|[_ ->]]; [|left; reflexivity].
        rewrite Hlrc in Hl. discriminate Hl.
    + split; [intros []|].
      intros [[Hlrc _]|[Hj _]].
      * rewrite Hlrc in Hl. discriminate Hl.
      * rewrite Hj in Ha. discriminate Ha.
Qed.

Lemma select_files_in (path_exists : pystr -> bool) (top : pystr)
      (entries : list node) (p : pystr) :
  top <> [] ->
  (In p (select_files path_exists top entries)
   <-> exists root f,
        file_in top entries root f /\ In p (select_file path_exists root f)).
Proof.
  intros Htop. unfold select_files. rewrite in_flat_map. split.
  - intros ([[root dirs] files] & Hitem & Hp). apply in_flat_map in Hp.
    destruct Hp as (f & Hf & Hp). exists root, f. split; [|exact Hp].
    apply (os_walk_files true _ _ _ _ Htop). exists dirs, files. split; assumption.
  - intros (root & f & Hin & Hp).
    apply (os_walk_files true _ _ _ _ Htop) in Hin.
    destruct Hin as (dirs & files & Hitem & Hf).
    exists (root, dirs, files). split; [exact Hitem|].
    apply in_flat_map. exists f. split; assumption.
Qed.

Lemma media_ext_plain (x : pystr) :
  In x EXTS_MEDIA -> dot_free x = true /\ sep_free x = true.
Proof. intros [<-|[<-|[]]]; split; reflexivity. Qed.

(** Every selected path is its directory joined with a separator-free
    name: the lyrics or art file itself, or the media sibling of a lyrics
    file that [os.path.exists] accepted. *)
Lemma selected_shape (path_exists : pystr -> bool) (root f p : pystr) :
  sep_free f = true ->
  In p (select_file path_exists root f) ->
  exists n,
    p = os_path.join root n /\ sep_free n = true
    /\ ((n = f /\ (get_file_ext f = str "lrc" \/ get_file_ext f = str "jpg"))
        \/ (get_file_ext f = str "lrc"
            /\ In (get_file_ext n) EXTS_MEDIA
            /\ fst (os_path.splitext n) = fst (os_path.splitext f)
            /\ path_exists p = true)).
Proof.
  intros Hf Hp. apply select_file_in in Hp.
  destruct Hp as [[Hl [->|(x & Hx & -> & Hex)]]|[Hj ->]].
  - exists f. split; [reflexivity|]. split; [exact Hf|]. left. split; [reflexivity|left; exact Hl].
  - destruct (get_file_ext_name f (str "lrc") Hf Hl) as
      (b & Hsp & Hfb & _ & _ & Hb & Hnd); [discriminate|].
    destruct (media_ext_plain x Hx) as [Hdx Hsx].
    rewrite Hsp in *. cbn [fst] in *.
    exists (b ++ os_path.extsep :: x). split; [reflexivity|]. split.
    + rewrite sep_free_app, Hb. exact Hsx.
    + right. split; [exact Hl|]. split.
      * rewrite (get_file_ext_stem _ _ Hb Hnd Hdx Hsx). exact Hx.
      * split; [|exact Hex].
        rewrite (splitext_stem _ _ Hb Hnd Hdx Hsx). reflexivity.
  - exists f. split; [reflexivity|]. split; [exact Hf|]. left. split; [reflexivity|right; exact Hj].
Qed.

Lemma selected_ext (path_exists : pystr -> bool) (root f p : pystr) :
  sep_free f = true ->
  In p (select_file path_exists root f) ->
  In (get_file_ext p) ALLOWED_EXTS.
Proof.
  intros Hf Hp.
  destruct (selected_shape path_exists root f p Hf Hp) as (n & -> & Hn & Hcase).
  rewrite (get_file_ext_join _ _ Hn).
  destruct Hcase as [[-> [H|H]]|(_ & H & _)].
  - rewrite H. right; right; right; left. reflexivity.
  - rewrite H. right; right; left. reflexivity.
  - apply in_or_app. left. exact H.
Qed.

Lemma select_files_ext (path_exists : pystr -> bool) (top : pystr)
      (entries : list node) (p : pystr) :
  wf_entries entries = true ->
  In p (select_files path_exists top entries) ->
  In (get_file_ext p) ALLOWED_EXTS.
Proof.
  intros Hwf Hp. destruct top as [|c t]; [contradiction Hp|].
  apply select_files_in in Hp; [|discriminate].
  destruct Hp as (root & f & Hin & Hp).
  eapply selected_ext; [|exact Hp].
  apply valid_name_sep_free. eapply file_in_valid; eassumption.
Qed.

Lemma bind_return_inv (A B : Type) (m : M A) (k : A -> M B)
      (out : list pystr) (b : B) :
  bind m k = (out, Return b) ->
  exists o1 a o2,
    m = (o1, Return a) /\ k a = (o2, Return b) /\ out = o1 ++ o2.
Proof.
  destruct m as [o1 [a| |]]; simpl; try discriminate.
  destruct (k a) as [o2 r] eqn:Hk. intros [= <- ->].
  exists o1, a, o2. repeat split. exact Hk.
Qed.

(** When [process_album_dir] returns, it returns nothing or the selection
    of the walk. *)
Lemma process_album_dir_returns (path_exists : pystr -> bool)
      (album_path : pystr) (entries : list node) (min_year max_year : pystr)
      (out : list pystr) (sel : list pystr) :
  process_album_dir path_exists album_path entries min_year max_year
  = (out, Return sel) ->
  sel = [] \/ sel = select_files path_exists album_path entries.
Proof.
  unfold process_album_dir. intros H.
  apply bind_return_inv in H. destruct H as (o1 & album_name & o2 & _ & H & _).
  apply bind_return_inv in H. destruct H as (o3 & artist_name & o4 & _ & H & _).
  apply bind_return_inv in H. destruct H as (o5 & year & o6 & _ & H & _).
  apply bind_return_inv in H. destruct H as (o7 & inside & o8 & _ & H & _).
  destruct inside; injection H as _ <-; [right|left]; reflexivity.
Qed.

Lemma album_of_year_nonempty (album_path : pystr) (y : Z) :
  album_of_year album_path y -> album_path <> [].
Proof.
  intros (album_name & artist_name & _ & H & _) ->. discriminate H.
Qed.

(** ** Art *)

(** C7: in an album folder that passes the year filter, every file of the
    subtree whose extension is exactly [jpg] is selected, whatever lyrics
    files the folder holds. *)
Theorem art_always_selected (path_exists : pystr -> bool)
        (album_path : pystr) (entries : list node) (min_year max_year : pystr)
        (y : Z) :
  album_of_year album_path y ->
  year_in_range min_year max_year y = ret true ->
  exists sel,
    process_album_dir path_exists album_path entries min_year max_year
    = ret sel
    /\ forall dir f,
        file_in album_path entries dir f ->
        get_file_ext f = str "jpg" ->
        In (os_path.join dir f) sel.
Proof.
  intros Hal Hin. exists (select_files path_exists album_path entries). split.
  - rewrite (process_album_dir_of_year _ _ _ _ _ _ Hal), Hin. reflexivity.
  - intros dir f Hf Hext.
    apply select_files_in; [eapply album_of_year_nonempty; eassumption|].
    exists dir, f. split; [exact Hf|].
    apply select_file_in. right. split; [exact Hext|reflexivity].
Qed.

(** ** Directories of the walk and their names *)

(** A name and what follows it up to the next separator are determined by
    their concatenation. *)
Lemma sep_span_unique (a a' x x' : pystr) :
  sep_free a = true -> sep_free a' = true ->
  (x = [] \/ exists t, x = os_path.sep :: t) ->
  (x' = [] \/ exists t, x' = os_path.sep :: t) ->
  a ++ x = a' ++ x' -> a = a' /\ x = x'.
Proof.
  revert a'. induction a as [|c a IH]; intros [|c' a'] Ha Ha' Hx Hx' Heq.
  - split; [reflexivity|exact Heq].
  - simpl in Heq. simpl in Ha'. apply andb_true_iff in Ha'.
    destruct Ha' as [Hc' _]. destruct Hx as [->|[t ->]]; [discriminate|].
    injection Heq as <- _. discriminate Hc'.
  - simpl in Heq. simpl in Ha. apply andb_true_iff in Ha.
    destruct Ha as [Hc _]. destruct Hx' as [->|[t ->]]; [discriminate|].
    injection Heq as -> _. discriminate Hc.
  - simpl in Heq, Ha, Ha'. apply andb_true_iff in Ha, Ha'.
    injection Heq as -> Heq.
    destruct (IH a' (proj2 Ha) (proj2 Ha') Hx Hx' Heq) as [-> ->].
    split; reflexivity.
Qed.

Lemma sep_free_rev (s : pystr) : sep_free (rev s) = sep_free s.
Proof.
  unfold sep_free. induction s as [|c t IH]; [reflexivity|].
  simpl. rewrite forallb_app, IH. simpl. rewrite andb_true_r. apply andb_comm.
Qed.

Lemma prefix_name_unique (pre pre' n n' : pystr) :
  (pre = [] \/ exists q, pre = q ++ [os_path.sep]) ->
  (pre' = [] \/ exists q, pre' = q ++ [os_path.sep]) ->
  sep_free n = true -> sep_free n' = true ->
  pre ++ n = pre' ++ n' -> pre = pre' /\ n = n'.
Proof.
  intros Hpre Hpre' Hn Hn' Heq.
  apply (f_equal (@rev ascii)) in Heq. rewrite !rev_app_distr in Heq.
  apply sep_span_unique in Heq.
  - destruct Heq as [H1 H2].
    apply (f_equal (@rev ascii)) in H1, H2. rewrite !rev_involutive in H1, H2.
    split; assumption.
  - rewrite sep_free_rev. exact Hn.
  - rewrite sep_free_rev. exact Hn'.
  - destruct Hpre as [->|[q ->]]; [left; reflexivity|right].
    rewrite rev_app_distr. exists (rev q). reflexivity.
  - destruct Hpre' as [->|[q ->]]; [left; reflexivity|right].
    rewrite rev_app_distr. exists (rev q). reflexivity.
Qed.

Lemma join_name_unique (a a' n n' : pystr) :
  sep_free n = true -> sep_free n' = true ->
  os_path.join a n = os_path.join a' n' ->
  dir_prefix a = dir_prefix a' /\ n = n'.
Proof.
  intros Hn Hn'.
  rewrite !join_prefix by (apply sep_free_startswith; assumption).
  apply prefix_name_unique; try assumption; apply dir_prefix_shape.
Qed.

Lemma valid_name_last (n : pystr) :
  valid_name n = true ->
  exists q c, n = q ++ [c] /\ Ascii.eqb c os_path.sep = false.
Proof.
  intros Hn. destruct (exists_last (l := n)) as (q & c & ->).
  { intros ->. discriminate Hn. }
  exists q, c. split; [reflexivity|].
  apply valid_name_sep_free in Hn. rewrite sep_free_app in Hn.
  apply andb_true_iff in Hn. destruct Hn as [_ Hc]. simpl in Hc.
  rewrite andb_true_r in Hc. apply negb_true_iff in Hc. exact Hc.
Qed.

Lemma dir_prefix_length (a : pystr) : length a <= length (dir_prefix a).
Proof.
  unfold dir_prefix. destruct a as [|c a]; [simpl; lia|].
  destruct (PyStr.endswith (c :: a) [os_path.sep]); [lia|].
  rewrite length_app. lia.
Qed.

(** A directory joined with an entry name is longer and does not end with
    the separator. *)
Lemma join_valid_name (top name : pystr) :
  valid_name name = true ->
  length top < length (os_path.join top name)
  /\ PyStr.endswith (os_path.join top name) [os_path.sep] = false.
Proof.
  intros Hn.
  rewrite join_prefix
    by (apply sep_free_startswith, valid_name_sep_free; exact Hn).
  destruct (valid_name_last name Hn) as (q & c & -> & Hc). split.
  - rewrite !length_app. pose proof (dir_prefix_length top). simpl. lia.
  - rewrite app_assoc, endswith_sep_last. exact Hc.
Qed.

(** The directories the walk reaches: the top, or longer paths that do not
    end with the separator. *)
Lemma file_in_dir (top : pystr) (entries : list node) (dir f : pystr) :
  file_in top entries dir f -> wf_entries entries = true ->
  dir = top
  \/ (length top < length dir
      /\ PyStr.endswith dir [os_path.sep] = false).
Proof.
  induction 1 as [top entries f Hin|top entries name sub dir f Hin _ IH];
    intros Hwf; [left; reflexivity|right].
  unfold wf_entries in Hwf. rewrite forallb_forall in Hwf.
  specialize (Hwf _ Hin). simpl in Hwf. apply andb_true_iff in Hwf.
  destruct Hwf as [Hname Hsub].
  destruct (join_valid_name top name Hname) as [Hlen Hend].
  destruct (IH Hsub) as [->|[Hlen' Hend']]; split; try assumption. lia.
Qed.

Lemma dir_prefix_inj (top d d' : pystr) :
  (d = top \/ (length top < length d
               /\ PyStr.endswith d [os_path.sep] = false)) ->
  (d' = top \/ (length top < length d'
                /\ PyStr.endswith d' [os_path.sep] = false)) ->
  dir_prefix d = dir_prefix d' -> d = d'.
Proof.
  intros Hd Hd' Heq. unfold dir_prefix in Heq.
  destruct d as [|c t]; destruct d' as [|c' t']; [reflexivity| | |].
  - destruct (PyStr.endswith (c' :: t') [os_path.sep]); [discriminate|].
    destruct t'; discriminate.
  - destruct (PyStr.endswith (c :: t) [os_path.sep]); [discriminate|].
    destruct t; discriminate.
  - destruct (PyStr.endswith (c :: t) [os_path.sep]) eqn:E;
      destruct (PyStr.endswith (c' :: t') [os_path.sep]) eqn:E'.
    + exact Heq.
    + assert (Hlen : length (c :: t) = S (length (c' :: t')))
        by (rewrite Heq, length_app; simpl; lia).
      destruct Hd as [Hd|[_ Hd]]; [|congruence].
      destruct Hd' as [Hd'|[Hd' _]]; [|subst top; lia].
      rewrite <- Hd' in Hd. rewrite Hd in Hlen. lia.
    + assert (Hlen : length (c' :: t') = S (length (c :: t)))
        by (rewrite <- Heq, length_app; simpl; lia).
      destruct Hd' as [Hd'|[_ Hd']]; [|congruence].
      destruct Hd as [Hd|[Hd _]]; [|subst top; lia].
      rewrite <- Hd' in Hd. rewrite Hd in Hlen. lia.
    + apply app_inj_tail in Heq. exact (proj1 Heq).
Qed.

(** ** Lyrics and their media siblings *)

(** C2: in an album folder that passes the year filter, every file of the
    subtree with extension exactly [lrc] is selected; for such a lyrics file
    and each media extension, the path of the same directory with the same
    stem and that extension is selected exactly when it exists; a media file
    without a lyrics file of the same stem in its directory is not
    selected. *)
Theorem lyrics_and_media_siblings (path_exists : pystr -> bool)
        (album_path : pystr) (entries : list node) (min_year max_year : pystr)
        (y : Z) :
  album_of_year album_path y ->
  year_in_range min_year max_year y = ret true ->
  wf_entries entries = true ->
  exists sel,
    process_album_dir path_exists album_path entries min_year max_year
    = ret sel
    /\ (forall dir f,
          file_in album_path entries dir f ->
          get_file_ext f = str "lrc" ->
          In (os_path.join dir f) sel
          /\ forall x,
              In x EXTS_MEDIA ->
              let sibling :=
                os_path.join dir (fst (os_path.splitext f) ++ str "." ++ x) in
              In sibling sel <-> path_exists sibling = true)
    /\ (forall dir f,
          file_in album_path entries dir f ->
          In (get_file_ext f) EXTS_MEDIA ->
          (forall g,
              file_in album_path entries dir g ->
              get_file_ext g = str "lrc" ->
              fst (os_path.splitext g) <> fst (os_path.splitext f)) ->
          ~ In (os_path.join dir f) sel).
Proof.
  intros Hal Hin Hwf.
  pose proof (album_of_year_nonempty _ _ Hal) as Htop.
  exists (select_files path_exists album_path entries). split; [|split].
  - rewrite (process_album_dir_of_year _ _ _ _ _ _ Hal), Hin. reflexivity.
  - intros dir f Hf Hext. split.
    + apply select_files_in; [exact Htop|]. exists dir, f. split; [exact Hf|].
      apply select_file_in. left. split; [exact Hext|left; reflexivity].
    + intros x Hx sibling. subst sibling.
      change (str "." ++ x) with (os_path.extsep :: x). split.
      * intros Hsel. apply select_files_in in Hsel; [|exact Htop].
        destruct Hsel as (root' & f' & Hf' & Hsel).
        pose proof (valid_name_sep_free _ (file_in_valid _ _ _ _ Hf' Hwf)) as Hs'.
        destruct (selected_shape _ _ _ _ Hs' Hsel) as (n & Hp & Hn & Hcase).
        destruct Hcase as [[-> Hlj]|(_ & _ & _ & Hex)]; [|exact Hex].
        exfalso.
        pose proof (valid_name_sep_free _ (file_in_valid _ _ _ _ Hf Hwf)) as Hs.
        destruct (get_file_ext_name f (str "lrc") Hs Hext) as
          (b & Hsp & _ & _ & _ & Hb & Hnd); [discriminate|].
        destruct (media_ext_plain x Hx) as [Hdx Hsx].
        rewrite Hsp in Hp. cbn [fst] in Hp.
        apply (f_equal get_file_ext) in Hp.
        rewrite (get_file_ext_join _ _ Hs') in Hp.
        rewrite get_file_ext_join in Hp by (rewrite sep_free_app, Hb; exact Hsx).
        rewrite (get_file_ext_stem _ _ Hb Hnd Hdx Hsx) in Hp.
        destruct Hx as [<-|[<-|[]]]; destruct Hlj as [Hlj|Hlj];
          rewrite Hlj in Hp; discriminate Hp.
      * intros Hex. apply select_files_in; [exact Htop|].
        exists dir, f. split; [exact Hf|]. apply select_file_in. left.
        split; [exact Hext|]. right. exists x. repeat split; assumption.
  - intros dir f Hf Hmedia Hnone Hsel.
    apply select_files_in in Hsel; [|exact Htop].
    destruct Hsel as (root' & f' & Hf' & Hsel).
    pose proof (valid_name_sep_free _ (file_in_valid _ _ _ _ Hf' Hwf)) as Hs'.
    pose proof (valid_name_sep_free _ (file_in_valid _ _ _ _ Hf Hwf)) as Hs.
    destruct (selected_shape _ _ _ _ Hs' Hsel) as (n & Hp & Hn & Hcase).
    destruct (join_name_unique _ _ _ _ Hs Hn Hp) as [Hpre <-].
    destruct Hcase as [[<- Hlj]|(Hlrc & _ & Hstem & _)].
    + destruct Hmedia as [Hm|[Hm|[]]]; destruct Hlj as [Hlj|Hlj];
        rewrite Hlj in Hm; discriminate Hm.
    + apply (dir_prefix_inj album_path) in Hpre;
        [|eapply file_in_dir; eassumption|eapply file_in_dir; eassumption].
      subst root'. apply (Hnone f' Hf' Hlrc). symmetry. exact Hstem.
Qed.

(** ** Files without an extension *)

Lemma get_file_ext_dot_free (pre n : pystr) :
  pre = [] \/ (exists q, pre = q ++ [os_path.sep]) ->
  sep_free n = true -> dot_free n = true ->
  get_file_ext (pre ++ n) = [].
Proof.
  intros Hpre Hs Hd. unfold get_file_ext.
  rewrite (splitext_prefix _ _ Hpre Hs). unfold os_path.splitext.
  rewrite (rfind_absent n os_path.extsep Hd).
  pose proof (rfind_ge n os_path.sep).
  replace (PyStr.rfind n os_path.sep <? -1)%Z with false
    by (symmetry; apply Z.ltb_ge; lia).
  reflexivity.
Qed.

Lemma get_file_ext_dotfile (pre rest : pystr) :
  pre = [] \/ (exists q, pre = q ++ [os_path.sep]) ->
  sep_free rest = true -> dot_free rest = true ->
  get_file_ext (pre ++ os_path.extsep :: rest) = [].
Proof.
  intros Hpre Hs Hd. unfold get_file_ext.
  rewrite (splitext_prefix _ _ Hpre) by exact Hs. unfold os_path.splitext.
  assert (Hsep : PyStr.rfind (os_path.extsep :: rest) os_path.sep = (-1)%Z)
    by (apply rfind_absent; exact Hs).
  assert (Hdot : PyStr.rfind (os_path.extsep :: rest) os_path.extsep = 0%Z).
  { cbn [PyStr.rfind]. cbv zeta. rewrite (rfind_absent rest os_path.extsep Hd).
    reflexivity. }
  rewrite Hsep, Hdot. reflexivity.
Qed.

(** C10: a file whose last segment has no dot, and a file whose name is one
    leading dot followed by characters other than the dot, has the empty
    extension; it belongs to none of the media, art and lyrics lists and is
    never selected. *)
Theorem no_extension_never_selected (n : pystr) :
  sep_free n = true ->
  dot_free n = true
  \/ (exists rest, n = os_path.extsep :: rest /\ dot_free rest = true) ->
  (forall pre,
      pre = [] \/ (exists q, pre = q ++ [os_path.sep]) ->
      get_file_ext (pre ++ n) = []
      /\ PyStr.mem (get_file_ext (pre ++ n)) ALLOWED_EXTS = false
      /\ is_file_type_media (pre ++ n) = false)
  /\ (forall path_exists album_path entries min_year max_year out sel dir,
        process_album_dir path_exists album_path entries min_year max_year
        = (out, Return sel) ->
        wf_entries entries = true ->
        file_in album_path entries dir n ->
        ~ In (os_path.join dir n) sel).
Proof.
  intros Hs Hshape.
  assert (Hext : forall pre,
            pre = [] \/ (exists q, pre = q ++ [os_path.sep]) ->
            get_file_ext (pre ++ n) = []).
  { intros pre Hpre. destruct Hshape as [Hd|(rest & -> & Hd)].
    - apply get_file_ext_dot_free; assumption.
    - apply get_file_ext_dotfile; assumption. }
  split.
  - intros pre Hpre. unfold is_file_type_media. rewrite (Hext pre Hpre).
    repeat split.
  - intros pe album_path entries mn mx out sel dir Hret Hwf Hf Hsel.
    apply process_album_dir_returns in Hret. destruct Hret as [->| ->];
      [contradiction Hsel|].
    apply select_files_ext in Hsel; [|exact Hwf].
    rewrite (get_file_ext_join _ _ Hs) in Hsel.
    pose proof (Hext [] (or_introl eq_refl)) as Hnil. cbn [app] in Hnil.
    rewrite Hnil in Hsel. apply mem_in in Hsel. discriminate Hsel.
Qed.

(** ** Loops *)

Lemma bind_ext (A B : Type) (m : M A) (k k' : A -> M B) :
  (forall a, k a = k' a) -> bind m k = bind m k'.
Proof.
  intros H. destruct m as [out [a| |]]; simpl; try reflexivity.
  rewrite H. reflexivity.
Qed.

Lemma for_each_app (A S : Type) (l1 l2 : list A) (s : S)
      (body : S -> A -> M S) :
  for_each (l1 ++ l2) s body
  = bind (for_each l1 s body) (fun s' => for_each l2 s' body).
Proof.
  revert s; induction l1 as [|x t IH]; intros s.
  - simpl app. cbn [for_each]. rewrite bind_ret_l. reflexivity.
  - simpl app. cbn [for_each]. rewrite bind_assoc.
    apply bind_ext. intros s'. apply IH.
Qed.

Lemma for_each_ext (A S : Type) (l : list A) (s : S)
      (body body' : S -> A -> M S) :
  (forall s x, In x l -> body s x = body' s x) ->
  for_each l s body = for_each l s body'.
Proof.
  revert s; induction l as [|x t IH]; intros s H; [reflexivity|].
  cbn [for_each]. rewrite (H s x (or_introl eq_refl)).
  apply bind_ext. intros s'. apply IH. intros s0 x0 Hx0. apply H. right. exact Hx0.
Qed.

Lemma for_each_map (A B S : Type) (g : A -> B) (l : list A) (s : S)
      (body : S -> B -> M S) :
  for_each (map g l) s body = for_each l s (fun s x => body s (g x)).
Proof.
  revert s; induction l as [|x t IH]; intros s; [reflexivity|].
  cbn [map for_each]. apply bind_ext. intros s'. apply IH.
Qed.

Lemma for_each_flat_map (A B S : Type) (g : A -> list B) (l : list A) (s : S)
      (body : S -> B -> M S) :
  for_each (flat_map g l) s body
  = for_each l s (fun s x => for_each (g x) s body).
Proof.
  revert s; induction l as [|x t IH]; intros s; [reflexivity|].
  cbn [flat_map for_each]. rewrite for_each_app.
  apply bind_ext. intros s'. apply IH.
Qed.

Lemma for_each_filter (A S : Type) (keep : A -> bool) (l : list A) (s : S)
      (body : S -> A -> M S) :
  for_each (filter keep l) s body
  = for_each l s (fun s x => if keep x then body s x else ret s).
Proof.
  revert s; induction l as [|x t IH]; intros s; [reflexivity|].
  cbn [filter for_each]. destruct (keep x).
  - cbn [for_each]. apply bind_ext. intros s'. apply IH.
  - rewrite bind_ret_l. apply IH.
Qed.

Lemma for_each_invariant (A S : Type) (P : S -> Prop) (l : list A)
      (body : S -> A -> M S) :
  (forall s x out s',
      In x l -> P s -> body s x = (out, Return s') -> P s') ->
  forall s out s',
    P s -> for_each l s body = (out, Return s') -> P s'.
Proof.
  induction l as [|x t IH]; intros Hbody s out s' Hs Hrun.
  - injection Hrun as _ <-. exact Hs.
  - cbn [for_each] in Hrun. apply bind_return_inv in Hrun.
    destruct Hrun as (o1 & s1 & o2 & Hx & Ht & _).
    apply (IH (fun s0 x0 out0 s0' Hin => Hbody s0 x0 out0 s0' (or_intror Hin))
              s1 o2 s' (Hbody s x o1 s1 (or_introl eq_refl) Hs Hx) Ht).
Qed.

(** [walk_media_dir] is one loop over the album directories. *)
Lemma walk_media_dir_albums (path_exists : pystr -> bool)
      (media_path : pystr) (entries : list node) (min_year max_year : pystr) :
  walk_media_dir path_exists media_path entries min_year max_year
  = for_each (album_dirs media_path entries) []
      (fun files v =>
         bind (process_album_dir path_exists (fst v) (entries_of (snd v))
                                 min_year max_year)
              (fun sel => ret (files ++ sel))).
Proof.
  unfold walk_media_dir, album_dirs, visited_dirs.
  rewrite for_each_filter, for_each_flat_map.
  apply for_each_ext. intros s [[root dirs] files] _.
  rewrite for_each_map. reflexivity.
Qed.

Lemma wf_node_entries (d : node) :
  wf_node d = true -> wf_entries (entries_of d) = true.
Proof.
  destruct d as [f|name sub]; [reflexivity|]. simpl.
  intros H. apply andb_true_iff in H. exact (proj2 H).
Qed.

Lemma walk_dir_wf (topdown : bool) (e : node) :
  forall top root dirs files,
    wf_entries (entries_of e) = true ->
    In (root, dirs, files) (walk_dir topdown top e) ->
    forall d, In d dirs -> wf_node d = true.
Proof.
  induction e as [g|name entries IH] using node_induction;
    intros top root dirs files Hwf Hitem d Hd; [contradiction Hitem|].
  cbn [entries_of] in Hwf. unfold wf_entries in Hwf.
  rewrite forallb_forall in Hwf.
  apply walk_dir_in in Hitem. destruct Hitem as [Heq|(d' & Hd' & Hitem)].
  - injection Heq as _ -> _. apply in_dirs_of in Hd. apply Hwf. exact (proj1 Hd).
  - rewrite Forall_forall in IH.
    apply (IH d' Hd' _ _ _ _ (wf_node_entries _ (Hwf _ Hd')) Hitem d Hd).
Qed.

Lemma visited_dirs_wf (media_path : pystr) (entries : list node)
      (fullpath : pystr) (d : node) :
  wf_entries entries = true ->
  In (fullpath, d) (visited_dirs media_path entries) ->
  wf_node d = true.
Proof.
  intros Hwf Hin. unfold visited_dirs in Hin. apply in_flat_map in Hin.
  destruct Hin as ([[root dirs] files] & Hitem & Hin).
  apply in_map_iff in Hin. destruct Hin as (d' & [= _ ->] & Hd).
  unfold os_walk in Hitem. destruct media_path as [|c t]; [contradiction Hitem|].
  apply (walk_dir_wf false (Dir (c :: t) entries) _ _ _ _ Hwf Hitem d Hd).
Qed.

(** ** Extensions of the selection *)

(** C9: every path that the walk of the library selects has, by
    [get_file_ext], one of the extensions [mp3], [m4a], [jpg], [lrc]. *)
Theorem selection_extensions_allowed (path_exists : pystr -> bool)
        (media_path : pystr) (entries : list node) (min_year max_year : pystr)
        (out : list pystr) (files : list pystr) :
  wf_entries entries = true ->
  walk_media_dir path_exists media_path entries min_year max_year
  = (out, Return files) ->
  forall p, In p files -> In (get_file_ext p) ALLOWED_EXTS.
Proof.
  intros Hwf Hrun. rewrite walk_media_dir_albums in Hrun.
  refine (for_each_invariant _ _
            (fun files => forall p, In p files -> In (get_file_ext p) ALLOWED_EXTS)
            _ _ _ _ _ _ _ Hrun).
  - intros s [fullpath d] o s' Hv Hs Hbody.
    apply bind_return_inv in Hbody.
    destruct Hbody as (o1 & sel & o2 & Hsel & [= _ <-] & _).
    intros p Hp. apply in_app_or in Hp. destruct Hp as [Hp|Hp]; [apply Hs; exact Hp|].
    cbn [fst snd] in Hsel. apply process_album_dir_returns in Hsel.
    destruct Hsel as [->| ->]; [contradiction Hp|].
    apply select_files_ext in Hp; [exact Hp|].
    apply wf_node_entries. unfold album_dirs in Hv. apply filter_In in Hv.
    eapply visited_dirs_wf; [exact Hwf|exact (proj1 Hv)].
  - intros p [].
Qed.

(** ** Album folders without a year *)

Lemma split_nonempty (s : pystr) (c : ascii) : PyStr.split s c <> [].
Proof.
  destruct s as [|x t]; simpl; [discriminate|].
  destruct (Ascii.eqb x c); [discriminate|].
  destruct (PyStr.split t c); discriminate.
Qed.

Lemma split_app_sep (a b : pystr) (c : ascii) :
  PyStr.split (a ++ c :: b) c = PyStr.split a c ++ PyStr.split b c.
Proof.
  induction a as [|x a IH]; simpl.
  - rewrite Ascii.eqb_refl. reflexivity.
  - destruct (Ascii.eqb x c); [rewrite IH; reflexivity|].
    rewrite IH. pose proof (split_nonempty a c) as Hne.
    destruct (PyStr.split a c) as [|w ws]; [contradiction Hne|]; reflexivity.
Qed.

Lemma split_sep_free (n : pystr) :
  sep_free n = true -> PyStr.split n os_path.sep = [n].
Proof.
  induction n as [|x t IH]; [reflexivity|]. simpl.
  rewrite andb_true_iff, negb_true_iff. intros [Hx Ht].
  rewrite Hx, (IH Ht). reflexivity.
Qed.

(** The segments of a directory joined with an entry name: the name comes
    last, and a segment stands before it. *)
Lemma join_tokens (root name : pystr) :
  root <> [] -> valid_name name = true ->
  exists artist_name,
    index_neg (PyStr.split (os_path.join root name) os_path.sep) 1 = ret name
    /\ index_neg (PyStr.split (os_path.join root name) os_path.sep) 2
       = ret artist_name.
Proof.
  intros Hroot Hname. apply valid_name_sep_free in Hname.
  rewrite join_prefix by (apply sep_free_startswith; exact Hname).
  destruct (dir_prefix_nonempty root Hroot) as [q ->].
  rewrite <- app_assoc. cbn [app].
  rewrite split_app_sep, (split_sep_free _ Hname).
  unfold index_neg. rewrite rev_app_distr. cbn [rev app nth_error Nat.pred].
  pose proof (split_nonempty q os_path.sep) as Hne.
  destruct (rev (PyStr.split q os_path.sep)) as [|w ws] eqn:Hr.
  - apply (f_equal (@rev pystr)) in Hr. rewrite rev_involutive in Hr.
    contradiction Hne.
  - exists w. split; reflexivity.
Qed.

Lemma join_nonempty (top name : pystr) : top <> [] -> os_path.join top name <> [].
Proof.
  intros Htop. unfold os_path.join.
  destruct name as [|c t]; cbn [PyStr.startswith].
  - destruct top as [|x top]; [contradiction Htop; reflexivity|].
    destruct (PyStr.endswith (x :: top) [os_path.sep]); discriminate.
  - destruct (Ascii.eqb c os_path.sep && true); [discriminate|].
    destruct top as [|x top]; [contradiction Htop; reflexivity|].
    destruct (PyStr.endswith (x :: top) [os_path.sep]); discriminate.
Qed.

Lemma walk_dir_root_nonempty (topdown : bool) (e : node) :
  forall top root dirs files,
    top <> [] -> In (root, dirs, files) (walk_dir topdown top e) -> root <> [].
Proof.
  induction e as [g|name entries IH] using node_induction;
    intros top root dirs files Htop Hitem; [contradiction Hitem|].
  apply walk_dir_in in Hitem. destruct Hitem as [Heq|(d & Hd & Hitem)].
  - injection Heq as -> _ _. exact Htop.
  - rewrite Forall_forall in IH.
    apply (IH d Hd _ _ _ _ (join_nonempty top (node_name d) Htop) Hitem).
Qed.

Lemma wf_node_name (d : node) : wf_node d = true -> valid_name (node_name d) = true.
Proof.
  destruct d as [f|name sub]; simpl; [exact (fun H => H)|].
  intros H. apply andb_true_iff in H. exact (proj1 H).
Qed.

(** A directory met by the walk has its own name as album segment and a
    segment before it. *)
Lemma visited_dir_tokens (media_path : pystr) (entries : list node)
      (fullpath : pystr) (d : node) :
  wf_entries entries = true ->
  In (fullpath, d) (visited_dirs media_path entries) ->
  exists artist_name,
    index_neg (PyStr.split fullpath os_path.sep) 1 = ret (node_name d)
    /\ index_neg (PyStr.split fullpath os_path.sep) 2 = ret artist_name.
Proof.
  intros Hwf Hin. pose proof (visited_dirs_wf _ _ _ _ Hwf Hin) as Hd.
  unfold visited_dirs in Hin. apply in_flat_map in Hin.
  destruct Hin as ([[root dirs] files] & Hitem & Hin).
  apply in_map_iff in Hin. destruct Hin as (d' & [= <- ->] & _).
  unfold os_walk in Hitem. destruct media_path as [|c t]; [contradiction Hitem|].
  apply join_tokens; [|apply wf_node_name; exact Hd].
  eapply walk_dir_root_nonempty; [|exact Hitem]. discriminate.
Qed.

Lemma album_year_none (name : pystr) :
  (forall i digits, ~ year_token_at name i digits) ->
  album_year name = raise (IndexError (str "list index out of range")).
Proof.
  intros Hnone. unfold album_year.
  rewrite re_findall_year_all_matches.
  replace (all_matches name) with (@nil pystr); [reflexivity|].
  symmetry. apply all_matches_nil. intros j.
  destruct (match_year (skipn j name)) as [g|] eqn:Hm; [|reflexivity].
  apply year_token_match in Hm. contradiction (Hnone j g).
Qed.

(** An album folder without a year: the two lines are printed and the
    process exits with status 1. *)
Lemma process_album_dir_no_year (path_exists : pystr -> bool)
      (album_path : pystr) (entries : list node) (min_year max_year : pystr)
      (album_name artist_name : pystr) :
  index_neg (PyStr.split album_path os_path.sep) 1 = ret album_name ->
  index_neg (PyStr.split album_path os_path.sep) 2 = ret artist_name ->
  (forall i digits, ~ year_token_at album_name i digits) ->
  process_album_dir path_exists album_path entries min_year max_year
  = ([str "Exception processing album: " ++ album_name;
      str "list index out of range"], SysExit 1%Z).
Proof.
  intros Hal Har Hnone. unfold process_album_dir.
  rewrite Hal, bind_ret_l, Har, bind_ret_l, (album_year_none _ Hnone).
  reflexivity.
Qed.

Lemma year_in_range_valid (min_year max_year : pystr) (y : Z) :
  valid_bound min_year -> valid_bound max_year ->
  exists inside, year_in_range min_year max_year y = ret inside.
Proof.
  intros [->|[lo Hlo]] [->|[hi Hhi]].
  - exists true. reflexivity.
  - exists (y <=? hi)%Z. unfold year_in_range, int_.
    rewrite (not_any_of_int _ _ Hhi), Hhi. reflexivity.
  - exists (lo <=? y)%Z. unfold year_in_range, int_.
    rewrite (not_any_of_int _ _ Hlo), Hlo. simpl. destruct (lo <=? y)%Z; reflexivity.
  - eexists. apply year_in_range_bounded; eassumption.
Qed.

(** An album folder with a year, under well-formed bounds, is processed
    without output and without error. *)
Lemma process_album_dir_with_year (path_exists : pystr -> bool)
      (album_path : pystr) (entries : list node) (min_year max_year : pystr)
      (album_name artist_name : pystr) :
  index_neg (PyStr.split album_path os_path.sep) 1 = ret album_name ->
  index_neg (PyStr.split album_path os_path.sep) 2 = ret artist_name ->
  (exists i digits, year_token_at album_name i digits) ->
  valid_bound min_year -> valid_bound max_year ->
  exists sel,
    process_album_dir path_exists album_path entries min_year max_year
    = ret sel.
Proof.
  intros Hal Har Htok Hmin Hmax.
  destruct (album_year_last_match album_name Htok)
    as (i & digits & _ & _ & Hy).
  destruct (year_in_range_valid min_year max_year (decimal_value digits)
                                Hmin Hmax) as [inside Hin].
  eexists.
  rewrite (process_album_dir_of_year _ _ _ _ _ (decimal_value digits)).
  - rewrite Hin, bind_ret_l. reflexivity.
  - exists album_name, artist_name. repeat split; assumption.
Qed.

Lemma for_each_returns (A S : Type) (l : list A) (body : S -> A -> M S) :
  (forall s x, In x l -> exists s', body s x = ret s') ->
  forall s, exists s', for_each l s body = ret s'.
Proof.
  induction l as [|x t IH]; intros Hbody s; [exists s; reflexivity|].
  cbn [for_each]. destruct (Hbody s x (or_introl eq_refl)) as [s1 ->].
  rewrite bind_ret_l. apply IH. intros s0 x0 Hx0. apply Hbody. right. exact Hx0.
Qed.

Lemma album_dirs_visited (media_path : pystr) (entries : list node)
      (v : pystr * node) :
  In v (album_dirs media_path entries) ->
  In v (visited_dirs media_path entries).
Proof.
  intros Hv. unfold album_dirs in Hv. apply filter_In in Hv. exact (proj1 Hv).
Qed.

(** C4: an album folder whose name has no bracketed 4-digit year is fatal.
    [process_album_dir] prints the album name and the detail of the failure
    and exits with status 1; and when the walk reaches such a folder, the
    album folders before it having a year, the run ends there with that
    output and that status: the folders behind it are not processed. *)
Theorem missing_year_aborts_run (path_exists : pystr -> bool)
        (media_path : pystr) (entries : list node) (min_year max_year : pystr)
        (fullpath : pystr) (d : node) :
  wf_entries entries = true ->
  (forall i digits, ~ year_token_at (node_name d) i digits) ->
  (In (fullpath, d) (visited_dirs media_path entries) ->
   process_album_dir path_exists fullpath (entries_of d) min_year max_year
   = ([str "Exception processing album: " ++ node_name d;
       str "list index out of range"], SysExit 1%Z))
  /\ (forall before after,
        valid_bound min_year -> valid_bound max_year ->
        album_dirs media_path entries = before ++ (fullpath, d) :: after ->
        (forall v, In v before ->
                   exists i digits,
                     year_token_at (node_name (snd v)) i digits) ->
        walk_media_dir path_exists media_path entries min_year max_year
        = ([str "Exception processing album: " ++ node_name d;
            str "list index out of range"], SysExit 1%Z)).
Proof.
  intros Hwf Hnone.
  assert (Hfatal : In (fullpath, d) (visited_dirs media_path entries) ->
    process_album_dir path_exists fullpath (entries_of d) min_year max_year
    = ([str "Exception processing album: " ++ node_name d;
        str "list index out of range"], SysExit 1%Z)).
  { intros Hin.
    destruct (visited_dir_tokens media_path entries fullpath d Hwf Hin)
      as (artist & Hal & Har).
    apply (process_album_dir_no_year path_exists fullpath (entries_of d)
             min_year max_year _ _ Hal Har Hnone). }
  split; [exact Hfatal|].
  intros before after Hmin Hmax Halbums Hbefore.
  assert (Hvisited : forall v, In v (before ++ (fullpath, d) :: after) ->
                               In v (visited_dirs media_path entries)).
  { intros v Hv. apply album_dirs_visited. rewrite Halbums. exact Hv. }
  rewrite walk_media_dir_albums, Halbums, for_each_app.
  destruct (for_each_returns _ _ before
              (fun files v =>
                 bind (process_album_dir path_exists (fst v)
                         (entries_of (snd v)) min_year max_year)
                      (fun sel => ret (files ++ sel)))) with (s := @nil pystr)
    as [files Hfiles].
  { intros s [p d'] Hv.
    destruct (visited_dir_tokens media_path entries p d' Hwf) as (artist & Hal & Har).
    { apply Hvisited. apply in_or_app. left. exact Hv. }
    destruct (process_album_dir_with_year path_exists p (entries_of d')
                min_year max_year _ _ Hal Har (Hbefore _ Hv) Hmin Hmax)
      as [sel Hsel].
    cbn [fst snd]. rewrite Hsel, bind_ret_l. eexists. reflexivity. }
  rewrite Hfiles, bind_ret_l. cbn [for_each fst snd].
  rewrite Hfatal; [reflexivity|].
  apply Hvisited. apply in_or_app. right. left. reflexivity.
Qed.

(** ** Depth of the album folders *)

Lemma drop_while_snoc (p : ascii -> bool) (a : pystr) (l : ascii) :
  p l = false -> exists a', PyStr.drop_while p (a ++ [l]) = a' ++ [l].
Proof.
  intros Hl. induction a as [|c a IH]; simpl.
  - rewrite Hl. exists []. reflexivity.
  - destruct (p c); [exact IH|]. exists (c :: a). reflexivity.
Qed.

Lemma drop_while_app_stop (p : ascii -> bool) (a y : pystr) (l : ascii) :
  p l = false ->
  PyStr.drop_while p ((a ++ [l]) ++ y) = PyStr.drop_while p (a ++ [l]) ++ y.
Proof.
  intros Hl. induction a as [|c a IH]; simpl.
  - rewrite Hl. reflexivity.
  - destruct (p c); [exact IH|reflexivity].
Qed.

Lemma rstrip_by_drop (p : ascii -> bool) (x : pystr) (c : ascii) :
  p c = true -> PyStr.rstrip_by p (x ++ [c]) = PyStr.rstrip_by p x.
Proof.
  intros Hc. unfold PyStr.rstrip_by. rewrite rev_app_distr. simpl.
  rewrite Hc. reflexivity.
Qed.

Lemma in_chars_sep (c : ascii) :
  PyStr.in_chars [os_path.sep] c = Ascii.eqb c os_path.sep.
Proof. unfold PyStr.in_chars. simpl. apply orb_false_r. Qed.

Lemma strip_sep_snoc (a : pystr) (l : ascii) :
  Ascii.eqb l os_path.sep = false ->
  PyStr.strip (a ++ [l]) [os_path.sep]
  = PyStr.drop_while (PyStr.in_chars [os_path.sep]) (a ++ [l]).
Proof.
  intros Hl. rewrite <- in_chars_sep in Hl.
  unfold PyStr.strip, PyStr.strip_by, PyStr.lstrip_by.
  destruct (drop_while_snoc _ a l Hl) as [a' ->].
  apply rstrip_by_stop. exact Hl.
Qed.

Lemma strip_sep_snoc_sep (a : pystr) (l : ascii) :
  Ascii.eqb l os_path.sep = false ->
  PyStr.strip ((a ++ [l]) ++ [os_path.sep]) [os_path.sep]
  = PyStr.drop_while (PyStr.in_chars [os_path.sep]) (a ++ [l]).
Proof.
  intros Hl. rewrite <- (strip_sep_snoc a l Hl).
  rewrite <- in_chars_sep in Hl.
  unfold PyStr.strip, PyStr.strip_by, PyStr.lstrip_by.
  rewrite (drop_while_app_stop _ a [os_path.sep] l Hl).
  apply rstrip_by_drop. reflexivity.
Qed.

(** A proper root is a path that ends with a character other than the
    separator, with one separator behind it or none. *)
Lemma proper_root_shape (top : pystr) :
  proper_root top = true ->
  exists q l,
    Ascii.eqb l os_path.sep = false
    /\ (top = q ++ [l] \/ top = (q ++ [l]) ++ [os_path.sep]).
Proof.
  unfold proper_root. intros H.
  destruct (exists_last (l := top)) as (q1 & x & ->).
  { intros ->. discriminate H. }
  destruct (Ascii.eqb x os_path.sep) eqn:Hx.
  - apply Ascii.eqb_eq in Hx. subst x.
    destruct q1 as [|c0 q0]; [discriminate H|].
    destruct (exists_last (l := c0 :: q0)) as (q2 & y & Hq); [discriminate|].
    rewrite Hq in *. exists q2, y.
    destruct (Ascii.eqb y os_path.sep) eqn:Hy; [|split; [reflexivity|right; reflexivity]].
    exfalso. destruct (PyStr.strip _ _); [discriminate H|].
    unfold PyStr.endswith in H. rewrite !rev_app_distr in H. simpl in H.
    rewrite Hy in H. discriminate H.
  - exists q1, x. split; [exact Hx|left; reflexivity].
Qed.

Lemma proper_root_snoc (x : pystr) (m : ascii) :
  Ascii.eqb m os_path.sep = false -> proper_root (x ++ [m]) = true.
Proof.
  intros Hm. unfold proper_root. rewrite (strip_sep_snoc x m Hm).
  rewrite <- in_chars_sep in Hm.
  destruct (drop_while_snoc _ x m Hm) as [a' ->]. rewrite in_chars_sep in Hm.
  destruct a'; simpl; unfold PyStr.endswith; rewrite rev_app_distr; simpl;
    rewrite Hm; reflexivity.
Qed.

(** Below a proper root, joining an entry name adds one to the depth and
    gives a proper root again. *)
Lemma depth_join (top n : pystr) :
  proper_root top = true -> valid_name n = true ->
  get_path_depth (os_path.join top n) = (get_path_depth top + 1)%Z
  /\ proper_root (os_path.join top n) = true.
Proof.
  intros Htop Hn.
  destruct (proper_root_shape top Htop) as (q & l & Hl & Hshape).
  destruct (valid_name_last n Hn) as (n' & m & -> & Hm).
  pose proof (valid_name_sep_free _ Hn) as Hfree.
  assert (Hjoin : os_path.join top (n' ++ [m])
                  = (((q ++ [l]) ++ os_path.sep :: n') ++ [m])).
  { rewrite join_prefix by (apply sep_free_startswith; exact Hfree).
    unfold dir_prefix.
    destruct Hshape as [-> | ->].
    - rewrite endswith_sep_last, Hl.
      destruct (q ++ [l]) eqn:E; [destruct q; discriminate E|].
      rewrite <- E, <- !app_assoc. reflexivity.
    - rewrite endswith_sep_last, Ascii.eqb_refl.
      destruct ((q ++ [l]) ++ [os_path.sep]) eqn:E;
        [destruct q; discriminate E|].
      rewrite <- E, <- !app_assoc. reflexivity. }
  assert (Hdepth : get_path_depth top
                   = Z.of_nat (length (PyStr.split
                       (PyStr.drop_while (PyStr.in_chars [os_path.sep])
                                         (q ++ [l])) os_path.sep))).
  { unfold get_path_depth. destruct Hshape as [-> | ->].
    - rewrite (strip_sep_snoc q l Hl). reflexivity.
    - rewrite (strip_sep_snoc_sep q l Hl). reflexivity. }
  split.
  - rewrite Hdepth, Hjoin. unfold get_path_depth.
    rewrite (strip_sep_snoc _ m Hm).
    rewrite <- app_assoc.
    rewrite drop_while_app_stop by (rewrite in_chars_sep; exact Hl).
    cbn [app]. rewrite split_app_sep, (split_sep_free _ Hfree).
    rewrite length_app. simpl length. lia.
  - rewrite Hjoin. apply proper_root_snoc. exact Hm.
Qed.

Lemma proper_root_nonempty (top : pystr) : proper_root top = true -> top <> [].
Proof. intros H ->. discriminate H. Qed.

Lemma dir_at_depth (k : nat) (top : pystr) (entries : list node)
      (fullpath : pystr) (d : node) :
  dir_at k top entries fullpath d ->
  proper_root top = true -> wf_entries entries = true ->
  (get_path_depth fullpath - get_path_depth top)%Z = Z.of_nat k.
Proof.
  induction 1 as [top entries d Hd|k top entries name sub fullpath d Hin _ IH];
    intros Htop Hwf; unfold wf_entries in Hwf; rewrite forallb_forall in Hwf.
  - apply in_dirs_of in Hd. destruct Hd as [Hd _].
    destruct (depth_join top (node_name d) Htop (wf_node_name _ (Hwf _ Hd)))
      as [Hdepth _].
    rewrite Hdepth. lia.
  - pose proof (Hwf _ Hin) as Hnode.
    destruct (depth_join top name Htop (wf_node_name _ Hnode)) as [Hdepth Hroot].
    specialize (IH Hroot (wf_node_entries _ Hnode)). lia.
Qed.

Lemma walk_dir_dir_at (topdown : bool) (e : node) :
  forall top root dirs files d,
    In (root, dirs, files) (walk_dir topdown top e) -> In d dirs ->
    exists k, dir_at k top (entries_of e) (os_path.join root (node_name d)) d.
Proof.
  induction e as [g|name entries IH] using node_induction;
    intros top root dirs files d Hitem Hd; [contradiction Hitem|].
  apply walk_dir_in in Hitem. destruct Hitem as [Heq|(d' & Hd' & Hitem)].
  - injection Heq as -> -> _. exists 1. apply dir_child. exact Hd.
  - rewrite Forall_forall in IH.
    destruct (IH d' Hd' _ _ _ _ d Hitem Hd) as [k Hk].
    destruct d' as [g|name' sub]; [contradiction Hitem|].
    exists (S k). eapply dir_below; eassumption.
Qed.

Lemma dir_at_walk_dir (topdown : bool) (k : nat) (top : pystr)
      (entries : list node) (fullpath : pystr) (d : node) :
  dir_at k top entries fullpath d ->
  forall name,
  exists root dirs files,
    In (root, dirs, files) (walk_dir topdown top (Dir name entries))
    /\ In d dirs /\ fullpath = os_path.join root (node_name d).
Proof.
  induction 1 as [top entries d Hd|k top entries name' sub fullpath d Hin _ IH];
    intros name.
  - exists top, (dirs_of entries), (files_of entries). split.
    + apply walk_dir_in. left. reflexivity.
    + split; [exact Hd|reflexivity].
  - destruct (IH name') as (root & dirs & files & Hitem & Hd & Hpath).
    exists root, dirs, files. split; [|split; assumption].
    apply walk_dir_in. right. exists (Dir name' sub). split; assumption.
Qed.

Lemma visited_dirs_dir_at (media_path : pystr) (entries : list node)
      (fullpath : pystr) (d : node) :
  media_path <> [] ->
  (In (fullpath, d) (visited_dirs media_path entries)
   <-> exists k, dir_at k media_path entries fullpath d).
Proof.
  intros Htop. unfold visited_dirs, os_walk.
  destruct media_path as [|c t]; [contradiction Htop; reflexivity|].
  rewrite in_flat_map. split.
  - intros ([[root dirs] files] & Hitem & Hin).
    apply in_map_iff in Hin. destruct Hin as (d' & [= <- ->] & Hd).
    apply (walk_dir_dir_at false (Dir (c :: t) entries) _ _ _ _ _ Hitem Hd).
  - intros [k Hk].
    destruct (dir_at_walk_dir false _ _ _ _ _ Hk (c :: t))
      as (root & dirs & files & Hitem & Hd & ->).
    exists (root, dirs, files). split; [exact Hitem|].
    apply in_map_iff. exists d. split; [reflexivity|exact Hd].
Qed.

(** X5: under a proper root, the folders handed to [process_album_dir] are the
    directories two levels below the root. *)
Lemma album_dirs_two_levels (media_path : pystr) (entries : list node)
      (fullpath : pystr) (d : node) :
  proper_root media_path = true -> wf_entries entries = true ->
  (In (fullpath, d) (album_dirs media_path entries)
   <-> dir_at 2 media_path entries fullpath d).
Proof.
  intros Htop Hwf. pose proof (proper_root_nonempty _ Htop) as Hne.
  unfold album_dirs. rewrite filter_In, (visited_dirs_dir_at _ _ _ _ Hne).
  cbn [fst]. unfold is_album_dir. rewrite Z.eqb_eq. split.
  - intros [[k Hk] Hdepth].
    rewrite (dir_at_depth _ _ _ _ _ Hk Htop Hwf) in Hdepth.
    replace 2 with k by lia. exact Hk.
  - intros H. split; [exists 2; exact H|].
    apply (dir_at_depth _ _ _ _ _ H Htop Hwf).
Qed.

(** C6: with the library at the root directory [/], the walk does not hand
    the folder two segments below the root to [process_album_dir] but the
    folder three segments below it: the depth of [/] is counted as 1, the
    depth of [/ArtistX] too. *)
Theorem root_library_shifts_album_depth :
  let library :=
    [Dir (str "ArtistX")
       [Dir (str "Album [1985]")
          [File (str "01.lrc");
           Dir (str "Disc [1985]") [File (str "02.lrc")]]]] in
  get_path_depth (str "/") = 1%Z
  /\ get_path_depth (str "/ArtistX/Album [1985]") = 2%Z
  /\ map fst (album_dirs (str "/") library)
     = [str "/ArtistX/Album [1985]/Disc [1985]"]
  /\ walk_media_dir (fun _ => false) (str "/") library (str "any") (str "any")
     = ([], Return [str "/ArtistX/Album [1985]/Disc [1985]/02.lrc"]).
Proof. repeat split; vm_compute; reflexivity. Qed.

(** ** Instances on the small library *)

Lemma example_album_of_year :
  album_of_year (str "/music/ArtistX/Album [1985]") 1985%Z.
Proof.
  exists (str "Album [1985]"), (str "ArtistX"). repeat split; reflexivity.
Defined.

Lemma album_year_is_last_token_witness :
  (exists i digits,
      year_token_at (str "Live [2001] (Remaster) [1983]") i digits
      /\ (forall j digits',
             year_token_at (str "Live [2001] (Remaster) [1983]") j digits' ->
             j <= i)
      /\ album_year (str "Live [2001] (Remaster) [1983]")
         = ret (decimal_value digits))
  /\ album_year (str "Danseparc [1983]") = ret (decimal_value (str "1983")).
Proof.
  split.
  - apply (proj1 (album_year_is_last_token
                    (str "Live [2001] (Remaster) [1983]"))).
    exists 23, (str "1983"). apply year_tokens_spec.
    vm_compute. right. left. reflexivity.
  - apply (proj2 (album_year_is_last_token (str "Danseparc [1983]"))
                 10 (str "1983")).
    + apply year_tokens_spec. vm_compute. left. reflexivity.
    + intros j digits' H. apply year_tokens_spec in H. vm_compute in H.
      destruct H as [H|[]]. injection H as <- _. reflexivity.
Defined.

Lemma missing_year_aborts_run_witness :
  process_album_dir example_exists (str "/music/ArtistX/Demos")
                    [File (str "d.lrc")] (str "1980") (str "1989")
  = ([str "Exception processing album: Demos";
      str "list index out of range"], SysExit 1%Z)
  /\ walk_media_dir example_exists (str "/music") example_library
                    (str "1980") (str "1989")
     = ([str "Exception processing album: Demos";
         str "list index out of range"], SysExit 1%Z).
Proof.
  destruct (missing_year_aborts_run example_exists (str "/music")
              example_library (str "1980") (str "1989")
              (str "/music/ArtistX/Demos")
              (Dir (str "Demos") [File (str "d.lrc")]))
    as [Hdir Hrun].
  - reflexivity.
  - intros i digits H. apply year_tokens_spec in H. vm_compute in H. exact H.
  - split.
    + apply Hdir. vm_compute. right. right. left. reflexivity.
    + apply (Hrun [(str "/music/ArtistX/Album [1985]",
                    Dir (str "Album [1985]") example_album)]
                  [(str "/music/ArtistX/Late [1991]",
                    Dir (str "Late [1991]") [File (str "l.lrc")])]).
      * right. exists 1980%Z. reflexivity.
      * right. exists 1989%Z. reflexivity.
      * reflexivity.
      * intros v [<-|[]]. exists 6, (str "1985").
        apply year_tokens_spec. vm_compute. left. reflexivity.
Defined.

Lemma year_filter_inclusive_witness :
  year_in_range (str "any") (str "1989") 1985%Z = ret (1985 <=? 1989)%Z
  /\ year_in_range (str "1980") (str "any") 1985%Z = ret (1980 <=? 1985)%Z
  /\ year_in_range (str "1980") (str "1989") 1990%Z
     = ret ((1980 <=? 1990)%Z && (1990 <=? 1989)%Z)
  /\ (year_in_range (str "1980") (str "1989") 1980%Z = ret true
      /\ year_in_range (str "1980") (str "1989") 1989%Z = ret true)
  /\ process_album_dir example_exists (str "/music/ArtistX/Album [1985]")
                       example_album (str "1990") (str "1999")
     = ret []
  /\ process_album_dir example_exists (str "/music/ArtistX/Album [1985]")
                       example_album (str "1985") (str "1985")
     = ret (select_files example_exists (str "/music/ArtistX/Album [1985]")
                         example_album).
Proof.
  destruct year_filter_inclusive as (_ & Hmax & Hmin & Hboth & Hbounds & Hout & Hin).
  split; [apply Hmax; reflexivity|].
  split; [apply Hmin; reflexivity|].
  split; [apply Hboth; reflexivity|].
  split; [apply Hbounds; [reflexivity|reflexivity|lia]|].
  split.
  - apply (Hout _ _ _ _ _ 1985%Z); [exact example_album_of_year|reflexivity].
  - apply (Hin _ _ _ _ _ 1985%Z); [exact example_album_of_year|reflexivity].
Defined.

Lemma art_always_selected_witness :
  exists sel,
    process_album_dir example_exists (str "/music/ArtistX/Album [1985]")
                      example_album (str "1980") (str "1989")
    = ret sel
    /\ forall dir f,
        file_in (str "/music/ArtistX/Album [1985]") example_album dir f ->
        get_file_ext f = str "jpg" ->
        In (os_path.join dir f) sel.
Proof.
  apply (art_always_selected example_exists (str "/music/ArtistX/Album [1985]")
           example_album (str "1980") (str "1989") 1985%Z).
  - exact example_album_of_year.
  - reflexivity.
Defined.

Lemma lyrics_and_media_siblings_witness :
  exists sel,
    process_album_dir example_exists (str "/music/ArtistX/Album [1985]")
                      example_album (str "1980") (str "1989")
    = ret sel
    /\ (forall dir f,
          file_in (str "/music/ArtistX/Album [1985]") example_album dir f ->
          get_file_ext f = str "lrc" ->
          In (os_path.join dir f) sel
          /\ forall x,
              In x EXTS_MEDIA ->
              let sibling :=
                os_path.join dir (fst (os_path.splitext f) ++ str "." ++ x) in
              In sibling sel <-> example_exists sibling = true)
    /\ (forall dir f,
          file_in (str "/music/ArtistX/Album [1985]") example_album dir f ->
          In (get_file_ext f) EXTS_MEDIA ->
          (forall g,
              file_in (str "/music/ArtistX/Album [1985]") example_album dir g ->
              get_file_ext g = str "lrc" ->
              fst (os_path.splitext g) <> fst (os_path.splitext f)) ->
          ~ In (os_path.join dir f) sel).
Proof.
  apply (lyrics_and_media_siblings example_exists
           (str "/music/ArtistX/Album [1985]") example_album
           (str "1980") (str "1989") 1985%Z).
  - exact example_album_of_year.
  - reflexivity.
  - reflexivity.
Defined.

Lemma selection_extensions_allowed_witness :
  walk_media_dir example_exists (str "/music") example_library_dated
                 (str "1980") (str "1989")
  = ([], Return example_selection)
  /\ forall p, In p example_selection -> In (get_file_ext p) ALLOWED_EXTS.
Proof.
  assert (Hrun : walk_media_dir example_exists (str "/music")
                   example_library_dated (str "1980") (str "1989")
                 = ([], Return example_selection)) by reflexivity.
  split; [exact Hrun|].
  apply (selection_extensions_allowed example_exists (str "/music")
           example_library_dated (str "1980") (str "1989") []
           example_selection).
  - reflexivity.
  - exact Hrun.
Defined.

Lemma no_extension_never_selected_witness :
  (get_file_ext (str "/music/ArtistX/Album [1985]/.lrc") = []
   /\ ~ In (str "/music/ArtistX/Album [1985]/.lrc")
          (select_files example_exists (str "/music/ArtistX/Album [1985]")
                        example_album))
  /\ (get_file_ext (str "/music/ArtistX/Album [1985]/notes") = []
      /\ ~ In (str "/music/ArtistX/Album [1985]/notes")
             (select_files example_exists (str "/music/ArtistX/Album [1985]")
                           example_album)).
Proof.
  assert (Hrun : process_album_dir example_exists
                   (str "/music/ArtistX/Album [1985]") example_album
                   (str "1980") (str "1989")
                 = ([], Return (select_files example_exists
                                  (str "/music/ArtistX/Album [1985]")
                                  example_album))) by reflexivity.
  split.
  - destruct (no_extension_never_selected (str ".lrc")) as [Hext Hsel].
    + reflexivity.
    + right. exists (str "lrc"). split; reflexivity.
    + split.
      * apply (Hext (str "/music/ArtistX/Album [1985]/")).
        right. exists (str "/music/ArtistX/Album [1985]"). reflexivity.
      * apply (Hsel example_exists (str "/music/ArtistX/Album [1985]")
                    example_album (str "1980") (str "1989") []
                    _ (str "/music/ArtistX/Album [1985]") Hrun).
        -- reflexivity.
        -- apply file_here. simpl. tauto.
  - destruct (no_extension_never_selected (str "notes")) as [Hext Hsel].
    + reflexivity.
    + left. reflexivity.
    + split.
      * apply (Hext (str "/music/ArtistX/Album [1985]/")).
        right. exists (str "/music/ArtistX/Album [1985]"). reflexivity.
      * apply (Hsel example_exists (str "/music/ArtistX/Album [1985]")
                    example_album (str "1980") (str "1989") []
                    _ (str "/music/ArtistX/Album [1985]") Hrun).
        -- reflexivity.
        -- apply file_here. simpl. tauto.
Defined.

(** * Further properties of the script *)

(** ** [copy_file] *)

Lemma startswith_prefix (s p : pystr) :
  PyStr.startswith s p = true <-> exists r, s = p ++ r.
Proof.
  revert s; induction p as [|c p IH]; intros s.
  - split; [intros _; exists s; reflexivity|reflexivity].
  - destruct s as [|x s]; simpl.
    + split; [discriminate|]. intros [r H]. discriminate H.
    + rewrite andb_true_iff, Ascii.eqb_eq, IH. split.
      * intros [-> [r ->]]. exists r. reflexivity.
      * intros [r [= -> ->]]. split; [reflexivity|exists r; reflexivity].
Qed.

(** X1: [copy_file] raises its exception, without output, exactly when the
    source directory is not a literal prefix of the source path; otherwise
    it returns a destination. *)
Theorem copy_file_raises_iff_not_prefix (source_dir dest_dir src : pystr) :
  (copy_file source_dir dest_dir src
   = ([], Raise (Exception
                   (str "Source file path doesn't match source directory")))
   <-> ~ exists rest, src = source_dir ++ rest)
  /\ ((exists rest, src = source_dir ++ rest)
      <-> exists dest, copy_file source_dir dest_dir src = ([], Return dest)).
Proof.
  unfold copy_file. rewrite <- startswith_prefix.
  destruct (PyStr.startswith src source_dir); cbn [negb]; split; split.
  - discriminate.
  - intros H. contradiction H. reflexivity.
  - intros _. eexists. reflexivity.
  - reflexivity.
  - discriminate.
  - reflexivity.
  - discriminate.
  - intros [dest H]. discriminate H.
Qed.

Lemma drop_while_head (p : ascii -> bool) (s : pystr) :
  PyStr.drop_while p s = []
  \/ exists c t, PyStr.drop_while p s = c :: t /\ p c = false.
Proof.
  induction s as [|c s IH]; [left; reflexivity|]. simpl.
  destruct (p c) eqn:Hc; [exact IH|]. right. exists c, s. split; [reflexivity|exact Hc].
Qed.

(** What [strip] leaves is empty or starts with a character outside the
    set. *)
Lemma strip_by_head (p : ascii -> bool) (s : pystr) :
  PyStr.strip_by p s = []
  \/ exists c t, PyStr.strip_by p s = c :: t /\ p c = false.
Proof.
  unfold PyStr.strip_by, PyStr.lstrip_by.
  destruct (drop_while_head p s) as [->|(c & t & -> & Hc)]; [left; reflexivity|].
  right. unfold PyStr.rstrip_by. simpl rev.
  destruct (drop_while_snoc p (rev t) c Hc) as [a' ->].
  rewrite rev_app_distr. simpl. exists c, (rev a'). split; [reflexivity|exact Hc].
Qed.

Lemma dir_prefix_extends (a : pystr) : exists r, dir_prefix a = a ++ r.
Proof.
  unfold dir_prefix. destruct a as [|c a]; [exists []; reflexivity|].
  destruct (PyStr.endswith (c :: a) [os_path.sep]).
  - exists []. rewrite app_nil_r. reflexivity.
  - exists [os_path.sep]. reflexivity.
Qed.

Lemma join_extends (a n : pystr) :
  PyStr.startswith n [os_path.sep] = false ->
  exists r, os_path.join a n = a ++ r.
Proof.
  intros Hn. rewrite (join_prefix _ _ Hn).
  destruct (dir_prefix_extends a) as [r ->]. exists (r ++ n).
  rewrite app_assoc. reflexivity.
Qed.

(** X2: a destination that [copy_file] computes has the destination
    directory as a literal prefix. *)
Theorem copy_file_dest_under_dest_dir (source_dir dest_dir src : pystr)
        (out : list pystr) (dest : pystr) :
  copy_file source_dir dest_dir src = (out, Return dest) ->
  exists r, dest = dest_dir ++ r.
Proof.
  unfold copy_file. destruct (PyStr.startswith src source_dir); cbn [negb];
    [|discriminate].
  intros [= _ <-]. apply join_extends. unfold PyStr.strip.
  destruct (strip_by_head (PyStr.in_chars [os_path.sep])
              (PyStr.strip_by (PyStr.in_chars source_dir) src))
    as [->|(c & t & -> & Hc)]; [reflexivity|].
  rewrite in_chars_sep in Hc. simpl. rewrite Hc. reflexivity.
Qed.

Lemma copy_file_dest_under_dest_dir_witness :
  exists r, str "/out/ArtistX/Album [1985]/01.mp3" = str "/out" ++ r.
Proof.
  apply (copy_file_dest_under_dest_dir (str "/music") (str "/out")
           (str "/music/ArtistX/Album [1985]/01.mp3") []).
  reflexivity.
Defined.

Lemma copy_file_remainder_witness :
  copy_file (str "/music") (str "/out")
            (str "/music" ++ str "/" ++ str "ArtistX/Album [1985]/01.mp3")
  = ret (os_path.join (str "/out") (str "ArtistX/Album [1985]/01.mp3")).
Proof.
  apply (copy_file_remainder (str "/music") (str "/out") (str "/")
           (str "ArtistX/Album [1985]/01.mp3")); reflexivity.
Defined.

(** ** [get_path_depth] *)

Lemma split_length (s : pystr) (c : ascii) :
  length (PyStr.split s c) = S (length (filter (Ascii.eqb c) s)).
Proof.
  induction s as [|x s IH]; [reflexivity|]. simpl.
  rewrite (Ascii.eqb_sym c x). destruct (Ascii.eqb x c); simpl.
  - rewrite IH. reflexivity.
  - rewrite <- IH. pose proof (split_nonempty s c) as Hne.
    destruct (PyStr.split s c); [contradiction Hne|]; reflexivity.
Qed.

Lemma rstrip_by_all (p : ascii -> bool) (s b : pystr) :
  forallb p b = true -> PyStr.rstrip_by p (s ++ b) = PyStr.rstrip_by p s.
Proof.
  intros Hb. unfold PyStr.rstrip_by. rewrite rev_app_distr.
  rewrite drop_while_all; [reflexivity|].
  apply forallb_forall. intros x Hx. apply in_rev in Hx.
  rewrite forallb_forall in Hb. apply Hb. exact Hx.
Qed.

Lemma strip_by_outer (p : ascii -> bool) (a s b : pystr) :
  forallb p a = true -> forallb p b = true ->
  PyStr.strip_by p (a ++ s ++ b) = PyStr.strip_by p s.
Proof.
  intros Ha Hb. unfold PyStr.strip_by, PyStr.lstrip_by.
  rewrite (drop_while_all p a _ Ha).
  destruct (drop_while_head p s) as [Hs|(c & t & Hs & Hc)].
  - assert (Hall : forallb p s = true).
    { clear -Hs. induction s as [|x s IH]; [reflexivity|]. simpl in *.
      destruct (p x); [apply IH; exact Hs|discriminate Hs]. }
    rewrite <- (app_nil_r (s ++ b)).
    rewrite drop_while_all by (rewrite forallb_app, Hall, Hb; reflexivity).
    rewrite Hs. reflexivity.
  - assert (Happ : PyStr.drop_while p (s ++ b) = PyStr.drop_while p s ++ b).
    { clear -Hs. induction s as [|x s IH]; [discriminate Hs|]. simpl in *.
      destruct (p x); [apply IH; exact Hs|reflexivity]. }
    rewrite Happ. apply rstrip_by_all. exact Hb.
Qed.

(** X3: the depth of a path is one more than the number of separators left
    after the separators at both ends are removed: it is at least 1 (also
    for the empty path and for a path of separators only), an empty segment
    inside the path counts, and separators added at either end change
    nothing. *)
Theorem get_path_depth_counts_separators (path : pystr) :
  get_path_depth path
  = (1 + Z.of_nat (length (filter (Ascii.eqb os_path.sep)
                                  (PyStr.strip path [os_path.sep]))))%Z
  /\ (1 <= get_path_depth path)%Z
  /\ (forall before after,
        forallb (Ascii.eqb os_path.sep) before = true ->
        forallb (Ascii.eqb os_path.sep) after = true ->
        get_path_depth (before ++ path ++ after) = get_path_depth path).
Proof.
  assert (Hcount : forall p,
    get_path_depth p
    = (1 + Z.of_nat (length (filter (Ascii.eqb os_path.sep)
                                    (PyStr.strip p [os_path.sep]))))%Z).
  { intros p. unfold get_path_depth. rewrite split_length. lia. }
  split; [apply Hcount|]. split; [rewrite Hcount; lia|].
  intros before after Hb Ha. unfold get_path_depth, PyStr.strip.
  rewrite strip_by_outer; [reflexivity| |];
    apply forallb_forall; intros x Hx; rewrite in_chars_sep, Ascii.eqb_sym.
  - rewrite forallb_forall in Hb. apply Hb. exact Hx.
  - rewrite forallb_forall in Ha. apply Ha. exact Hx.
Qed.

Lemma get_path_depth_counts_separators_witness :
  get_path_depth (str "//" ++ str "music//lib" ++ str "/")
  = get_path_depth (str "music//lib").
Proof.
  destruct (get_path_depth_counts_separators (str "music//lib"))
    as (_ & _ & H).
  apply H; reflexivity.
Defined.

(** ** [get_file_ext] *)

Lemma rfind_neg_absent (s : pystr) (c : ascii) :
  (PyStr.rfind s c < 0)%Z -> forallb (fun x => negb (Ascii.eqb x c)) s = true.
Proof.
  induction s as [|x t IH]; [reflexivity|].
  cbn [PyStr.rfind]. cbv zeta.
  destruct (0 <=? PyStr.rfind t c)%Z eqn:E.
  - apply Z.leb_le in E. lia.
  - apply Z.leb_gt in E. destruct (Ascii.eqb x c) eqn:Hx; [lia|].
    intros _. simpl. rewrite Hx. simpl. apply IH. exact E.
Qed.

(** X4: the extension that [get_file_ext] returns holds neither a dot nor a
    separator; when it is not empty the path is a stem, a dot and the
    extension; and the extension of a directory joined with a name is the
    extension of the name. *)
Theorem get_file_ext_shape (path : pystr) :
  dot_free (get_file_ext path) = true
  /\ sep_free (get_file_ext path) = true
  /\ (get_file_ext path <> [] ->
      exists stem,
        path = stem ++ os_path.extsep :: get_file_ext path
        /\ os_path.splitext path = (stem, os_path.extsep :: get_file_ext path))
  /\ (forall dir,
        sep_free path = true ->
        get_file_ext (os_path.join dir path) = get_file_ext path).
Proof.
  assert (Hcases : get_file_ext path = []
                   \/ exists b,
                       os_path.splitext path
                       = (b, os_path.extsep :: get_file_ext path)
                       /\ path = b ++ os_path.extsep :: get_file_ext path
                       /\ dot_free (get_file_ext path) = true
                       /\ (PyStr.rfind path os_path.sep
                           < Z.of_nat (length b))%Z).
  { destruct (get_file_ext path) as [|c x] eqn:Hext; [left; reflexivity|right].
    destruct (get_file_ext_inv path (c :: x) Hext) as (b & H1 & H2 & H3 & H4 & _);
      [discriminate|].
    exists b. repeat split; assumption. }
  destruct Hcases as [Hnil|(b & Hsp & Hp & Hdot & Hlt)].
  - rewrite Hnil. repeat split.
    + intros H. contradiction H. reflexivity.
    + intros dir Hfree. rewrite get_file_ext_join by exact Hfree. exact Hnil.
  - split; [exact Hdot|]. split; [|split].
    + rewrite Hp in Hlt at 1. rewrite rfind_app in Hlt.
      destruct (0 <=? PyStr.rfind (os_path.extsep :: get_file_ext path)
                                  os_path.sep)%Z eqn:E.
      * apply Z.leb_le in E. lia.
      * apply Z.leb_gt in E. apply rfind_neg_absent in E. exact E.
    + intros _. exists b. split; assumption.
    + intros dir Hfree. apply get_file_ext_join. exact Hfree.
Qed.

Lemma get_file_ext_shape_witness :
  (exists stem,
      str "cd2/a.b.lrc" = stem ++ os_path.extsep :: get_file_ext (str "cd2/a.b.lrc")
      /\ os_path.splitext (str "cd2/a.b.lrc")
         = (stem, os_path.extsep :: get_file_ext (str "cd2/a.b.lrc")))
  /\ get_file_ext (os_path.join (str "/music/") (str "a.lrc"))
     = get_file_ext (str "a.lrc").
Proof.
  split.
  - apply (proj1 (proj2 (proj2 (get_file_ext_shape (str "cd2/a.b.lrc"))))).
    discriminate.
  - apply (proj2 (proj2 (proj2 (get_file_ext_shape (str "a.lrc"))))).
    reflexivity.
Defined.

(** ** Album folders and the depth of the walk *)

Lemma album_dirs_two_levels_witness :
  In (str "/music/ArtistX/Late [1991]",
      Dir (str "Late [1991]") [File (str "l.lrc")])
     (album_dirs (str "/music") example_library)
  <-> dir_at 2 (str "/music") example_library
             (str "/music/ArtistX/Late [1991]")
             (Dir (str "Late [1991]") [File (str "l.lrc")]).
Proof.
  apply (album_dirs_two_levels (str "/music") example_library); reflexivity.
Defined.

(** ** Edge cases of [process_album_dir] *)

(** X6: an album path without a separator has no artist segment:
    [process_album_dir] raises [IndexError] at [tokens[-2]], without output,
    before it looks at the year. *)
Theorem process_album_dir_one_segment (path_exists : pystr -> bool)
        (album_path : pystr) (entries : list node) (min_year max_year : pystr) :
  sep_free album_path = true ->
  process_album_dir path_exists album_path entries min_year max_year
  = ([], Raise (IndexError (str "list index out of range"))).
Proof.
  intros Hfree. unfold process_album_dir.
  rewrite (split_sep_free _ Hfree). reflexivity.
Qed.

Lemma process_album_dir_one_segment_witness :
  process_album_dir example_exists (str "Album [1985]") example_album
                    (str "1980") (str "1989")
  = ([], Raise (IndexError (str "list index out of range"))).
Proof.
  apply (process_album_dir_one_segment example_exists (str "Album [1985]")).
  reflexivity.
Defined.

(** X7: the bounds are read as the condition needs them.  For an album
    with a year: a lower bound that is neither ["any"] nor an integer raises
    [ValueError]; a year below the lower bound gives the empty selection
    whatever the upper bound is, also one that is no integer; a year that
    passes the lower bound, with an upper bound that is neither ["any"] nor
    an integer, raises [ValueError]. *)
Theorem process_album_dir_reads_bounds (path_exists : pystr -> bool)
        (album_path : pystr) (entries : list node) (y : Z) :
  album_of_year album_path y ->
  (forall min_year max_year,
      min_year <> str "any" -> py_int min_year = None ->
      process_album_dir path_exists album_path entries min_year max_year
      = ([], Raise (ValueError min_year)))
  /\ (forall min_year max_year lo,
        py_int min_year = Some lo -> (y < lo)%Z ->
        process_album_dir path_exists album_path entries min_year max_year
        = ret [])
  /\ (forall min_year max_year,
        min_year = str "any"
        \/ (exists lo, py_int min_year = Some lo /\ (lo <= y)%Z) ->
        max_year <> str "any" -> py_int max_year = None ->
        process_album_dir path_exists album_path entries min_year max_year
        = ([], Raise (ValueError max_year))).
Proof.
  intros Hal. repeat apply conj.
  - intros mn mx Hany Hint.
    rewrite (process_album_dir_of_year _ _ _ _ _ _ Hal).
    unfold year_in_range, int_. apply eqb_neq in Hany. rewrite Hany, Hint.
    reflexivity.
  - intros mn mx lo Hlo Hlt.
    rewrite (process_album_dir_of_year _ _ _ _ _ _ Hal).
    unfold year_in_range, int_. rewrite (not_any_of_int _ _ Hlo), Hlo.
    rewrite bind_ret_l.
    replace (lo <=? y)%Z with false by (symmetry; apply Z.leb_gt; exact Hlt).
    reflexivity.
  - intros mn mx Hmin Hany Hint.
    rewrite (process_album_dir_of_year _ _ _ _ _ _ Hal).
    unfold year_in_range, int_. apply eqb_neq in Hany.
    destruct Hmin as [->|(lo & Hlo & Hle)].
    + rewrite eqb_refl, bind_ret_l, Hany, Hint. reflexivity.
    + rewrite (not_any_of_int _ _ Hlo), Hlo, bind_ret_l.
      replace (lo <=? y)%Z with true by (symmetry; apply Z.leb_le; exact Hle).
      rewrite bind_ret_l, Hany, Hint. reflexivity.
Qed.

Lemma process_album_dir_reads_bounds_witness :
  process_album_dir example_exists (str "/music/ArtistX/Album [1985]")
                    example_album (str "eighties") (str "1989")
  = ([], Raise (ValueError (str "eighties")))
  /\ process_album_dir example_exists (str "/music/ArtistX/Album [1985]")
                       example_album (str "1990") (str "nineties")
     = ret []
  /\ process_album_dir example_exists (str "/music/ArtistX/Album [1985]")
                       example_album (str "1980") (str "eighties")
     = ([], Raise (ValueError (str "eighties"))).
Proof.
  destruct (process_album_dir_reads_bounds example_exists
              (str "/music/ArtistX/Album [1985]") example_album 1985%Z
              example_album_of_year) as (Hmin & Hbelow & Hmax).
  split; [apply Hmin; [discriminate|reflexivity]|].
  split; [apply (Hbelow _ _ 1990%Z); [reflexivity|lia]|].
  apply Hmax; [right; exists 1980%Z; split; [reflexivity|lia]|discriminate|reflexivity].
Defined.

(** ** What [walk_media_dir] returns *)

Lemma index_neg_quiet (A : Type) (l : list A) (k : nat) :
  fst (index_neg l k) = [].
Proof. unfold index_neg. destruct (nth_error _ _); reflexivity. Qed.

Lemma album_year_quiet (name : pystr) : fst (album_year name) = [].
Proof.
  unfold album_year, index_neg, int_.
  destruct (nth_error _ _) as [g|]; [|reflexivity].
  rewrite bind_ret_l. destruct (py_int g); reflexivity.
Qed.

Lemma year_in_range_quiet (min_year max_year : pystr) (y : Z) :
  fst (year_in_range min_year max_year y) = [].
Proof.
  unfold year_in_range, int_.
  destruct (PyStr.eqb min_year (str "any")).
  - rewrite bind_ret_l. destruct (PyStr.eqb max_year (str "any")); [reflexivity|].
    destruct (py_int max_year); reflexivity.
  - destruct (py_int min_year) as [lo|]; [|reflexivity].
    rewrite !bind_ret_l. destruct (lo <=? y)%Z; [|reflexivity].
    destruct (PyStr.eqb max_year (str "any")); [reflexivity|].
    destruct (py_int max_year); reflexivity.
Qed.

(** When [process_album_dir] returns it has printed nothing, the album path
    has yielded a year and the condition on the year has been evaluated. *)
Lemma process_album_dir_return_inv (path_exists : pystr -> bool)
      (album_path : pystr) (entries : list node) (min_year max_year : pystr)
      (out : list pystr) (sel : list pystr) :
  process_album_dir path_exists album_path entries min_year max_year
  = (out, Return sel) ->
  out = []
  /\ exists y inside,
      album_of_year album_path y
      /\ year_in_range min_year max_year y = ret inside
      /\ sel = if inside : bool
               then select_files path_exists album_path entries else [].
Proof.
  unfold process_album_dir. intros H.
  apply bind_return_inv in H. destruct H as (o1 & album_name & o2 & H1 & H & ->).
  apply bind_return_inv in H. destruct H as (o3 & artist_name & o4 & H2 & H & ->).
  apply bind_return_inv in H. destruct H as (o5 & year & o6 & H3 & H & ->).
  apply bind_return_inv in H. destruct H as (o7 & inside & o8 & H4 & H & ->).
  pose proof (index_neg_quiet _ (PyStr.split album_path os_path.sep) 1) as Q1.
  pose proof (index_neg_quiet _ (PyStr.split album_path os_path.sep) 2) as Q2.
  pose proof (album_year_quiet album_name) as Q3.
  pose proof (year_in_range_quiet min_year max_year year) as Q4.
  rewrite H1 in Q1. rewrite H2 in Q2. rewrite H4 in Q4. cbn [fst] in Q1, Q2, Q4.
  subst o1 o3 o7.
  assert (Hyear : album_year album_name = ret year /\ o5 = []).
  { destruct (album_year album_name) as [oy [y| |]]; cbn [fst] in Q3; subst oy;
      simpl in H3; try discriminate H3.
    injection H3 as <- <-. split; reflexivity. }
  destruct Hyear as [Hyear ->].
  assert (Ho8 : o8 = [] /\ sel = if inside
                                 then select_files path_exists album_path entries
                                 else []).
  { destruct inside; injection H as <- <-; split; reflexivity. }
  destruct Ho8 as [-> ->]. split; [reflexivity|].
  exists year, inside. split; [|split; [exact H4|reflexivity]].
  exists album_name, artist_name. repeat split; assumption.
Qed.

Lemma for_each_extend_inv (A B : Type) (f : A -> M (list B)) (l : list A) :
  (forall v o sel, In v l -> f v = (o, Return sel) -> o = []) ->
  forall s out files,
    for_each l s (fun files v => bind (f v) (fun sel => ret (files ++ sel)))
    = (out, Return files) ->
    out = []
    /\ exists sels,
        Forall2 (fun v sel => f v = ret sel) l sels
        /\ files = s ++ concat sels.
Proof.
  induction l as [|v l IH]; intros Hquiet s out files Hrun.
  - injection Hrun as <- <-. split; [reflexivity|].
    exists []. split; [constructor|]. simpl. rewrite app_nil_r. reflexivity.
  - cbn [for_each] in Hrun. apply bind_return_inv in Hrun.
    destruct Hrun as (o1 & s1 & o2 & Hv & Hrest & ->).
    apply bind_return_inv in Hv. destruct Hv as (o3 & sel & o4 & Hsel & [= <- <-] & ->).
    pose proof (Hquiet v o3 sel (or_introl eq_refl) Hsel) as ->.
    destruct (IH (fun v0 o0 sel0 Hin => Hquiet v0 o0 sel0 (or_intror Hin))
                 _ _ _ Hrest) as (-> & sels & Hall & ->).
    split; [reflexivity|]. exists (sel :: sels). split.
    + constructor; [exact Hsel|exact Hall].
    + simpl. rewrite app_assoc. reflexivity.
Qed.

(** X8: when [walk_media_dir] returns it has printed nothing, and the list
    it returns is the concatenation, in the order of the walk, of what
    [process_album_dir] returns for the album folders. *)
Theorem walk_media_dir_concatenates (path_exists : pystr -> bool)
        (media_path : pystr) (entries : list node) (min_year max_year : pystr)
        (out : list pystr) (files : list pystr) :
  walk_media_dir path_exists media_path entries min_year max_year
  = (out, Return files) ->
  out = []
  /\ exists sels,
      Forall2 (fun v sel =>
                 process_album_dir path_exists (fst v) (entries_of (snd v))
                                   min_year max_year
                 = ret sel)
              (album_dirs media_path entries) sels
      /\ files = concat sels.
Proof.
  intros Hrun. rewrite walk_media_dir_albums in Hrun.
  apply (for_each_extend_inv _ _
           (fun v => process_album_dir path_exists (fst v) (entries_of (snd v))
                                       min_year max_year)) in Hrun.
  - exact Hrun.
  - intros v o sel _ Hsel. apply process_album_dir_return_inv in Hsel.
    exact (proj1 Hsel).
Qed.

Lemma walk_media_dir_concatenates_witness :
  exists sels,
    Forall2 (fun v sel =>
               process_album_dir example_exists (fst v) (entries_of (snd v))
                                 (str "1980") (str "1989")
               = ret sel)
            (album_dirs (str "/music") example_library_dated) sels
    /\ example_selection = concat sels.
Proof.
  apply (walk_media_dir_concatenates example_exists (str "/music")
           example_library_dated (str "1980") (str "1989") []).
  reflexivity.
Defined.

(** The walk over a list of directories it has met: either all have a year
    and the loop returns, or the first without one ends the run. *)
Lemma albums_loop_outcome (path_exists : pystr -> bool)
      (media_path : pystr) (entries : list node) (min_year max_year : pystr)
      (l : list (pystr * node)) :
  wf_entries entries = true ->
  valid_bound min_year -> valid_bound max_year ->
  (forall v, In v l -> In v (visited_dirs media_path entries)) ->
  forall s,
    ((forall v, In v l ->
                exists i digits, year_token_at (node_name (snd v)) i digits)
     /\ exists files,
         for_each l s
           (fun files v =>
              bind (process_album_dir path_exists (fst v) (entries_of (snd v))
                                      min_year max_year)
                   (fun sel => ret (files ++ sel)))
         = ret files)
    \/ (exists v,
           In v l
           /\ (forall i digits, ~ year_token_at (node_name (snd v)) i digits)
           /\ for_each l s
                (fun files v =>
                   bind (process_album_dir path_exists (fst v)
                           (entries_of (snd v)) min_year max_year)
                        (fun sel => ret (files ++ sel)))
              = ([str "Exception processing album: " ++ node_name (snd v);
                  str "list index out of range"], SysExit 1%Z)).
Proof.
  intros Hwf Hmin Hmax. induction l as [|[p d] l IH]; intros Hvis s.
  - left. split; [intros v []|]. exists s. reflexivity.
  - destruct (visited_dir_tokens media_path entries p d Hwf
                (Hvis _ (or_introl eq_refl))) as (artist & Hal & Har).
    cbn [for_each fst snd].
    destruct (year_tokens (node_name d)) as [|[i g] rest] eqn:Htok.
    + right. exists (p, d). split; [left; reflexivity|].
      assert (Hnone : forall i digits, ~ year_token_at (node_name d) i digits).
      { intros i digits H. apply year_tokens_spec in H. rewrite Htok in H. exact H. }
      split; [exact Hnone|]. cbn [snd].
      rewrite (process_album_dir_no_year path_exists p (entries_of d)
                 min_year max_year _ _ Hal Har Hnone).
      reflexivity.
    + assert (Hsome : exists i digits, year_token_at (node_name d) i digits).
      { exists i, g. apply year_tokens_spec. rewrite Htok. left. reflexivity. }
      destruct (process_album_dir_with_year path_exists p (entries_of d)
                  min_year max_year _ _ Hal Har Hsome Hmin Hmax) as [sel Hsel].
      rewrite Hsel, !bind_ret_l.
      destruct (IH (fun v Hv => Hvis v (or_intror Hv)) (s ++ sel))
        as [[Hall Hret]|(v & Hv & Hnone & Hexit)].
      * left. split; [|exact Hret].
        intros v [<-|Hv]; [exact Hsome|apply Hall; exact Hv].
      * right. exists v. split; [right; exact Hv|]. split; assumption.
Qed.

(** X9: in a library whose entry names are names of a file system, with
    bounds that are ["any"] or integers, [walk_media_dir] ends in one of two
    ways and raises no exception: every album folder has a bracketed year
    and it returns, having printed nothing; or some album folder has none
    and it exits with status 1, having printed the name of that folder and
    the detail. *)
Theorem walk_media_dir_outcome (path_exists : pystr -> bool)
        (media_path : pystr) (entries : list node) (min_year max_year : pystr) :
  wf_entries entries = true ->
  valid_bound min_year -> valid_bound max_year ->
  ((forall v, In v (album_dirs media_path entries) ->
              exists i digits, year_token_at (node_name (snd v)) i digits)
   /\ exists files,
       walk_media_dir path_exists media_path entries min_year max_year
       = ([], Return files))
  \/ (exists v,
         In v (album_dirs media_path entries)
         /\ (forall i digits, ~ year_token_at (node_name (snd v)) i digits)
         /\ walk_media_dir path_exists media_path entries min_year max_year
            = ([str "Exception processing album: " ++ node_name (snd v);
                str "list index out of range"], SysExit 1%Z)).
Proof.
  intros Hwf Hmin Hmax. rewrite walk_media_dir_albums.
  apply (albums_loop_outcome path_exists media_path entries min_year max_year
           (album_dirs media_path entries) Hwf Hmin Hmax).
  intros v Hv. apply album_dirs_visited. exact Hv.
Qed.

Lemma walk_media_dir_outcome_witness :
  ((forall v, In v (album_dirs (str "/music") example_library_dated) ->
              exists i digits, year_token_at (node_name (snd v)) i digits)
   /\ exists files,
       walk_media_dir example_exists (str "/music") example_library_dated
                      (str "1980") (str "any")
       = ([], Return files))
  \/ (exists v,
         In v (album_dirs (str "/music") example_library_dated)
         /\ (forall i digits, ~ year_token_at (node_name (snd v)) i digits)
         /\ walk_media_dir example_exists (str "/music") example_library_dated
                           (str "1980") (str "any")
            = ([str "Exception processing album: " ++ node_name (snd v);
                str "list index out of range"], SysExit 1%Z)).
Proof.
  apply (walk_media_dir_outcome example_exists (str "/music")
           example_library_dated (str "1980") (str "any")).
  - reflexivity.
  - right. exists 1980%Z. reflexivity.
  - left. reflexivity.
Defined.

(** ** The selection and [copy_file] *)

Lemma join_valid_extends (a n : pystr) :
  valid_name n = true -> exists r, os_path.join a n = a ++ r.
Proof.
  intros Hn. apply join_extends. apply sep_free_startswith.
  apply valid_name_sep_free. exact Hn.
Qed.

Lemma walk_dir_root_extends (topdown : bool) (e : node) :
  forall top root dirs files,
    wf_entries (entries_of e) = true ->
    In (root, dirs, files) (walk_dir topdown top e) ->
    exists r, root = top ++ r.
Proof.
  induction e as [g|name entries IH] using node_induction;
    intros top root dirs files Hwf Hitem; [contradiction Hitem|].
  cbn [entries_of] in Hwf. unfold wf_entries in Hwf.
  rewrite forallb_forall in Hwf.
  apply walk_dir_in in Hitem. destruct Hitem as [Heq|(d & Hd & Hitem)].
  - injection Heq as -> _ _. exists []. rewrite app_nil_r. reflexivity.
  - rewrite Forall_forall in IH.
    destruct (IH d Hd _ _ _ _ (wf_node_entries _ (Hwf _ Hd)) Hitem) as [r2 ->].
    destruct (join_valid_extends top (node_name d) (wf_node_name _ (Hwf _ Hd)))
      as [r1 ->].
    exists (r1 ++ r2). rewrite app_assoc. reflexivity.
Qed.

Lemma file_in_dir_extends (top : pystr) (entries : list node) (dir f : pystr) :
  file_in top entries dir f -> wf_entries entries = true ->
  exists r, dir = top ++ r.
Proof.
  induction 1 as [top entries f Hin|top entries name sub dir f Hin _ IH];
    intros Hwf.
  - exists []. rewrite app_nil_r. reflexivity.
  - unfold wf_entries in Hwf. rewrite forallb_forall in Hwf.
    specialize (Hwf _ Hin). simpl in Hwf. apply andb_true_iff in Hwf.
    destruct Hwf as [Hname Hsub].
    destruct (IH Hsub) as [r2 ->].
    destruct (join_valid_extends top name Hname) as [r1 ->].
    exists (r1 ++ r2). rewrite app_assoc. reflexivity.
Qed.

Lemma visited_dir_extends (media_path : pystr) (entries : list node)
      (fullpath : pystr) (d : node) :
  wf_entries entries = true ->
  In (fullpath, d) (visited_dirs media_path entries) ->
  exists r, fullpath = media_path ++ r.
Proof.
  intros Hwf Hin. pose proof (visited_dirs_wf _ _ _ _ Hwf Hin) as Hd.
  unfold visited_dirs in Hin. apply in_flat_map in Hin.
  destruct Hin as ([[root dirs] files] & Hitem & Hin).
  apply in_map_iff in Hin. destruct Hin as (d' & [= <- ->] & _).
  unfold os_walk in Hitem. destruct media_path as [|c t]; [contradiction Hitem|].
  destruct (walk_dir_root_extends false (Dir (c :: t) entries) _ _ _ _ Hwf Hitem)
    as [r1 ->].
  destruct (join_valid_extends ((c :: t) ++ r1) (node_name d) (wf_node_name _ Hd))
    as [r2 ->].
  exists (r1 ++ r2). rewrite app_assoc. reflexivity.
Qed.

Lemma select_files_extends (path_exists : pystr -> bool) (top : pystr)
      (entries : list node) (p : pystr) :
  wf_entries entries = true ->
  In p (select_files path_exists top entries) ->
  exists r, p = top ++ r.
Proof.
  intros Hwf Hp. destruct top as [|c t]; [contradiction Hp|].
  apply select_files_in in Hp; [|discriminate].
  destruct Hp as (root & f & Hin & Hp).
  pose proof (valid_name_sep_free _ (file_in_valid _ _ _ _ Hin Hwf)) as Hf.
  destruct (selected_shape _ _ _ _ Hf Hp) as (n & -> & Hn & _).
  destruct (file_in_dir_extends _ _ _ _ Hin Hwf) as [r1 ->].
  destruct (join_extends ((c :: t) ++ r1) n (sep_free_startswith _ Hn)) as [r2 ->].
  exists (r1 ++ r2). rewrite app_assoc. reflexivity.
Qed.

(** X10: every path that [walk_media_dir] returns has the library path as
    a literal prefix, so [copy_file] with the library as source directory
    never raises its exception on a selected file. *)
Theorem selection_passes_copy_file_check (path_exists : pystr -> bool)
        (media_path : pystr) (entries : list node) (min_year max_year : pystr)
        (out : list pystr) (files : list pystr) :
  wf_entries entries = true ->
  walk_media_dir path_exists media_path entries min_year max_year
  = (out, Return files) ->
  forall p,
    In p files ->
    (exists r, p = media_path ++ r)
    /\ forall dest_dir,
        exists dest, copy_file media_path dest_dir p = ([], Return dest).
Proof.
  intros Hwf Hrun.
  assert (Hprefix : forall p, In p files -> exists r, p = media_path ++ r).
  { rewrite walk_media_dir_albums in Hrun.
    refine (for_each_invariant _ _
              (fun files => forall p, In p files -> exists r, p = media_path ++ r)
              _ _ _ _ _ _ _ Hrun).
    - intros s [fullpath d] o s' Hv Hs Hbody.
      apply bind_return_inv in Hbody.
      destruct Hbody as (o1 & sel & o2 & Hsel & [= _ <-] & _).
      intros p Hp. apply in_app_or in Hp.
      destruct Hp as [Hp|Hp]; [apply Hs; exact Hp|].
      cbn [fst snd] in Hsel. apply process_album_dir_returns in Hsel.
      destruct Hsel as [->| ->]; [contradiction Hp|].
      apply album_dirs_visited in Hv.
      pose proof (wf_node_entries _ (visited_dirs_wf _ _ _ _ Hwf Hv)) as Hd.
      destruct (select_files_extends _ _ _ _ Hd Hp) as [r2 ->].
      destruct (visited_dir_extends _ _ _ _ Hwf Hv) as [r1 ->].
      exists (r1 ++ r2). rewrite app_assoc. reflexivity.
    - intros p []. }
  intros p Hp. split; [apply Hprefix; exact Hp|].
  intros dest_dir. unfold copy_file.
  replace (PyStr.startswith p media_path) with true
    by (symmetry; apply startswith_prefix, Hprefix; exact Hp).
  eexists. reflexivity.
Qed.

Lemma selection_passes_copy_file_check_witness :
  (exists r, str "/music/ArtistX/Album [1985]/01.mp3" = str "/music" ++ r)
  /\ forall dest_dir,
      exists dest,
        copy_file (str "/music") dest_dir
                  (str "/music/ArtistX/Album [1985]/01.mp3")
        = ([], Return dest).
Proof.
  apply (selection_passes_copy_file_check example_exists (str "/music")
           example_library_dated (str "1980") (str "1989") []
           example_selection).
  - reflexivity.
  - reflexivity.
  - right. left. reflexivity.
Defined.

(** ** The year range and the selection *)

(** X11: with integer bounds and the upper bound below the lower one no
    album matches: when the walk returns, it returns the empty list. *)
Theorem inverted_range_selects_nothing (path_exists : pystr -> bool)
        (media_path : pystr) (entries : list node) (min_year max_year : pystr)
        (lo hi : Z) (out : list pystr) (files : list pystr) :
  py_int min_year = Some lo -> py_int max_year = Some hi -> (hi < lo)%Z ->
  walk_media_dir path_exists media_path entries min_year max_year
  = (out, Return files) ->
  files = [].
Proof.
  intros Hlo Hhi Hlt Hrun. rewrite walk_media_dir_albums in Hrun.
  refine (for_each_invariant _ _ (fun files => files = [])
            _ _ _ _ _ _ _ Hrun); [|reflexivity].
  intros s v o s' _ -> Hbody. apply bind_return_inv in Hbody.
  destruct Hbody as (o1 & sel & o2 & Hsel & [= _ <-] & _).
  apply process_album_dir_return_inv in Hsel.
  destruct Hsel as (_ & y & inside & _ & Hin & ->).
  rewrite (year_in_range_bounded _ _ _ _ y Hlo Hhi) in Hin.
  injection Hin as <-.
  replace ((lo <=? y)%Z && (y <=? hi)%Z) with false; [reflexivity|].
  symmetry. apply andb_false_iff.
  destruct (Z.leb_spec lo y); [right; apply Z.leb_gt; lia|left; reflexivity].
Qed.

Lemma inverted_range_selects_nothing_witness :
  walk_media_dir example_exists (str "/music") example_library_dated
                 (str "1989") (str "1980")
  = ([], Return []).
Proof.
  assert (Hrun : exists files,
             walk_media_dir example_exists (str "/music")
                            example_library_dated (str "1989") (str "1980")
             = ([], Return files)).
  { eexists. reflexivity. }
  destruct Hrun as [files Hrun]. rewrite Hrun. do 2 f_equal.
  apply (inverted_range_selects_nothing example_exists (str "/music")
           example_library_dated (str "1989") (str "1980") 1989%Z 1980%Z
           [] files); [reflexivity|reflexivity|lia|exact Hrun].
Defined.

Lemma process_album_dir_wider (path_exists : pystr -> bool)
      (album_path : pystr) (entries : list node)
      (min_year max_year min_year' max_year' : pystr) (lo hi lo' hi' : Z)
      (out : list pystr) (sel : list pystr) :
  py_int min_year = Some lo -> py_int max_year = Some hi ->
  py_int min_year' = Some lo' -> py_int max_year' = Some hi' ->
  (lo' <= lo)%Z -> (hi <= hi')%Z ->
  process_album_dir path_exists album_path entries min_year max_year
  = (out, Return sel) ->
  exists sel',
    process_album_dir path_exists album_path entries min_year' max_year'
    = ret sel'
    /\ incl sel sel'.
Proof.
  intros Hlo Hhi Hlo' Hhi' Hle Hge Hrun.
  apply process_album_dir_return_inv in Hrun.
  destruct Hrun as (_ & y & inside & Hal & Hin & ->).
  rewrite (process_album_dir_of_year _ _ _ _ _ _ Hal).
  rewrite (year_in_range_bounded _ _ _ _ y Hlo' Hhi').
  rewrite (year_in_range_bounded _ _ _ _ y Hlo Hhi) in Hin.
  injection Hin as <-. rewrite bind_ret_l. eexists. split; [reflexivity|].
  destruct ((lo <=? y)%Z && (y <=? hi)%Z) eqn:E; [|intros p []].
  apply andb_true_iff in E. destruct E as [E1 E2].
  apply Z.leb_le in E1, E2.
  replace ((lo' <=? y)%Z && (y <=? hi')%Z) with true; [apply incl_refl|].
  symmetry. apply andb_true_iff. split; apply Z.leb_le; lia.
Qed.

(** X12: widening an integer year range loses nothing: when the walk
    returns for the bounds [lo] and [hi], it returns for bounds [lo' <= lo]
    and [hi' >= hi] too, and every path of the first selection is in the
    second. *)
Theorem wider_range_selects_more (path_exists : pystr -> bool)
        (media_path : pystr) (entries : list node)
        (min_year max_year min_year' max_year' : pystr) (lo hi lo' hi' : Z)
        (out : list pystr) (files : list pystr) :
  py_int min_year = Some lo -> py_int max_year = Some hi ->
  py_int min_year' = Some lo' -> py_int max_year' = Some hi' ->
  (lo' <= lo)%Z -> (hi <= hi')%Z ->
  walk_media_dir path_exists media_path entries min_year max_year
  = (out, Return files) ->
  exists files',
    walk_media_dir path_exists media_path entries min_year' max_year'
    = ([], Return files')
    /\ incl files files'.
Proof.
  intros Hlo Hhi Hlo' Hhi' Hle Hge. rewrite !walk_media_dir_albums.
  generalize (album_dirs media_path entries) as l.
  assert (Hloop : forall l s s' o fs,
    incl s s' ->
    for_each l s
      (fun files v =>
         bind (process_album_dir path_exists (fst v) (entries_of (snd v))
                                 min_year max_year)
              (fun sel => ret (files ++ sel)))
    = (o, Return fs) ->
    exists fs',
      for_each l s'
        (fun files v =>
           bind (process_album_dir path_exists (fst v) (entries_of (snd v))
                                   min_year' max_year')
                (fun sel => ret (files ++ sel)))
      = ([], Return fs')
      /\ incl fs fs').
  { induction l as [|v l IH]; intros s s' o fs Hincl Hrun.
    - injection Hrun as _ <-. exists s'. split; [reflexivity|exact Hincl].
    - cbn [for_each] in Hrun |- *. apply bind_return_inv in Hrun.
      destruct Hrun as (o1 & s1 & o2 & Hv & Hrest & _).
      apply bind_return_inv in Hv.
      destruct Hv as (o3 & sel & o4 & Hsel & [= _ <-] & _).
      destruct (process_album_dir_wider _ _ _ _ _ _ _ _ _ _ _ _ _
                  Hlo Hhi Hlo' Hhi' Hle Hge Hsel) as (sel' & Hsel' & Hsub).
      rewrite Hsel', !bind_ret_l.
      apply (IH (s ++ sel) (s' ++ sel') o2 fs); [|exact Hrest].
      apply incl_app; [apply incl_appl; exact Hincl|apply incl_appr; exact Hsub]. }
  intros l Hrun. apply (Hloop l [] [] out files); [apply incl_refl|exact Hrun].
Qed.

Lemma wider_range_selects_more_witness :
  exists files',
    walk_media_dir example_exists (str "/music") example_library_dated
                   (str "1980") (str "1995")
    = ([], Return files')
    /\ incl example_selection files'.
Proof.
  apply (wider_range_selects_more example_exists (str "/music")
           example_library_dated (str "1980") (str "1989")
           (str "1980") (str "1995") 1980%Z 1989%Z 1980%Z 1995%Z []);
    try reflexivity; lia.
Defined.

(** ** [query_yes_no] *)

Lemma query_loop_answer (text : pystr) (default : option pystr)
      (line : pystr) (rest : list pystr) (b : bool) :
  answer_of default line = Some b ->
  query_loop text default (line :: rest) = (rest, [Stdout text], Done b).
Proof.
  unfold answer_of. cbn [query_loop]. cbv zeta.
  destruct default as [d|]; destruct (lower line) as [|c t];
    intros H; rewrite H; reflexivity.
Qed.

Lemma query_loop_no_answer (text : pystr) (default : option pystr)
      (line : pystr) (rest : list pystr) :
  default = None \/ default = Some (str "yes") \/ default = Some (str "no") ->
  answer_of default line = None ->
  query_loop text default (line :: rest)
  = (let '(stdin', events, r) := query_loop text default rest in
     (stdin',
      Stdout text
        :: Stdout (str "Please respond with 'yes' or 'no' (or 'y' or 'n')."
                   ++ [newline])
        :: events,
      r)).
Proof.
  unfold answer_of. cbn [query_loop]. cbv zeta.
  intros [->|[->| ->]]; destruct (lower line) as [|c t]; intros H;
    try discriminate H; rewrite H; reflexivity.
Qed.

(** X13: [query_yes_no] asks until a line is an answer.  With the default
    [None], ["yes"] or ["no"], when the input starts with lines that are no
    answers and then holds an answer, it returns that answer, has read up to
    that line and no further, and has written the question with its prompt
    before each line read and the reminder after each line that was no
    answer; when no line of the input is an answer it raises [EOFError]
    after one more question. *)
Theorem query_yes_no_asks_until_answered (question : pystr)
        (default : option pystr) (prompt : pystr) :
  (default = None /\ prompt = str " [y/n] ")
  \/ (default = Some (str "yes") /\ prompt = str " [Y/n] ")
  \/ (default = Some (str "no") /\ prompt = str " [y/N] ") ->
  forall others,
    (forall line, In line others -> answer_of default line = None) ->
    let asked :=
      flat_map (fun _ : pystr =>
                  [Stdout (question ++ prompt);
                   Stdout (str "Please respond with 'yes' or 'no' (or 'y' or 'n')."
                           ++ [newline])])
               others in
    (forall line rest b,
        answer_of default line = Some b ->
        query_yes_no question default (others ++ line :: rest)
        = (rest, asked ++ [Stdout (question ++ prompt)], Done b))
    /\ query_yes_no question default others
       = ([], asked ++ [Stdout (question ++ prompt)], Failed EOFError).
Proof.
  intros Hdefault others Hothers asked.
  assert (Hvalid : default = None \/ default = Some (str "yes")
                   \/ default = Some (str "no")).
  { destruct Hdefault as [[H _]|[[H _]|[H _]]]; auto. }
  assert (Hrun : query_yes_no question default
                 = query_loop (question ++ prompt) default).
  { destruct Hdefault as [[-> ->]|[[-> ->]|[-> ->]]]; reflexivity. }
  rewrite Hrun. subst asked. clear Hrun Hdefault.
  induction others as [|o others IH].
  - split; [|reflexivity]. intros line rest b Hb. apply query_loop_answer. exact Hb.
  - destruct IH as [IH1 IH2].
    { intros line Hin. apply Hothers. right. exact Hin. }
    pose proof (Hothers o (or_introl eq_refl)) as Ho. split.
    + intros line rest b Hb. cbn [app].
      rewrite (query_loop_no_answer _ _ _ _ Hvalid Ho), (IH1 line rest b Hb).
      reflexivity.
    + rewrite (query_loop_no_answer _ _ _ _ Hvalid Ho), IH2. reflexivity.
Qed.

Lemma query_yes_no_asks_until_answered_witness :
  query_yes_no (str "Proceed with copy?") (Some (str "yes"))
               ([str "maybe"; str "si"] ++ str "YES" :: [str "later"])
  = ([str "later"],
     flat_map (fun _ : pystr =>
                 [Stdout (str "Proceed with copy?" ++ str " [Y/n] ");
                  Stdout (str "Please respond with 'yes' or 'no' (or 'y' or 'n')."
                          ++ [newline])])
              [str "maybe"; str "si"]
     ++ [Stdout (str "Proceed with copy?" ++ str " [Y/n] ")],
     Done true).
Proof.
  apply (query_yes_no_asks_until_answered (str "Proceed with copy?")
           (Some (str "yes")) (str " [Y/n] ")).
  - right. left. split; reflexivity.
  - intros line [<-|[<-|[]]]; reflexivity.
  - reflexivity.
Defined.

(** X14: the lines that are answers.  A line is read without regard to the
    case of its letters; ["yes"], ["ye"] and ["y"] answer yes, ["no"] and
    ["n"] answer no; the empty line is the default when there is one and no
    answer when there is none; nothing else is an answer. *)
Theorem answer_of_lines (default : option pystr) (line : pystr) (b : bool) :
  default = None \/ default = Some (str "yes") \/ default = Some (str "no") ->
  (answer_of default line = Some b
   <-> (In (lower line) [str "yes"; str "ye"; str "y"] /\ b = true)
       \/ (In (lower line) [str "no"; str "n"] /\ b = false)
       \/ (line = [] /\ default = Some (str "yes") /\ b = true)
       \/ (line = [] /\ default = Some (str "no") /\ b = false)).
Proof.
  intros Hdefault.
  assert (Hdict : forall choice,
    dict_get valid choice = Some b
    <-> (In choice [str "yes"; str "ye"; str "y"] /\ b = true)
        \/ (In choice [str "no"; str "n"] /\ b = false)).
  { intros choice. unfold valid. cbn [dict_get].
    destruct (PyStr.eqb choice (str "yes")) eqn:E1;
      [apply eqb_eq in E1; subst choice; split;
       [intros [= <-]; left; split; [left; reflexivity|reflexivity]
       |intros [[_ ->]|[[H|[H|[]]] _]]; [reflexivity|discriminate H|discriminate H]]|].
    destruct (PyStr.eqb choice (str "y")) eqn:E2;
      [apply eqb_eq in E2; subst choice; split;
       [intros [= <-]; left; split; [right; right; left; reflexivity|reflexivity]
       |intros [[_ ->]|[[H|[H|[]]] _]]; [reflexivity|discriminate H|discriminate H]]|].
    destruct (PyStr.eqb choice (str "ye")) eqn:E3;
      [apply eqb_eq in E3; subst choice; split;
       [intros [= <-]; left; split; [right; left; reflexivity|reflexivity]
       |intros [[_ ->]|[[H|[H|[]]] _]]; [reflexivity|discriminate H|discriminate H]]|].
    destruct (PyStr.eqb choice (str "no")) eqn:E4;
      [apply eqb_eq in E4; subst choice; split;
       [intros [= <-]; right; split; [left; reflexivity|reflexivity]
       |intros [[[H|[H|[H|[]]]] _]|[_ ->]]; [discriminate H|discriminate H|discriminate H|reflexivity]]|].
    destruct (PyStr.eqb choice (str "n")) eqn:E5;
      [apply eqb_eq in E5; subst choice; split;
       [intros [= <-]; right; split; [right; left; reflexivity|reflexivity]
       |intros [[[H|[H|[H|[]]]] _]|[_ ->]]; [discriminate H|discriminate H|discriminate H|reflexivity]]|].
    apply eqb_neq in E1, E2, E3, E4, E5. split; [discriminate|].
    intros [[[H|[H|[H|[]]]] _]|[[H|[H|[]]] _]]; congruence. }
  assert (Hempty : lower line = [] <-> line = []).
  { destruct line; simpl; split; congruence. }
  unfold answer_of. destruct (lower line) as [|c t] eqn:Hl.
  - assert (Hline : line = []) by (apply Hempty; reflexivity). subst line.
    destruct Hdefault as [->|[->| ->]].
    + rewrite Hdict. split; [intros [[[H|[H|[H|[]]]] _]|[[H|[H|[]]] _]]; discriminate H|].
      intros [[[H|[H|[H|[]]]] _]|[[[H|[H|[]]] _]|[(_ & H & _)|(_ & H & _)]]];
        discriminate H.
    + cbn. split.
      * intros [= <-]. right; right; left. repeat split.
      * intros [[[H|[H|[H|[]]]] _]|[[[H|[H|[]]] _]|[(_ & _ & ->)|(_ & H & _)]]];
          try discriminate H. reflexivity.
    + cbn. split.
      * intros [= <-]. right; right; right. repeat split.
      * intros [[[H|[H|[H|[]]]] _]|[[[H|[H|[]]] _]|[(_ & H & _)|(_ & _ & ->)]]];
          try discriminate H. reflexivity.
  - assert (Hne : line <> []) by (intros ->; discriminate Hl).
    assert (Hgoal : dict_get valid (c :: t) = Some b
                    <-> (In (c :: t) [str "yes"; str "ye"; str "y"] /\ b = true)
                        \/ (In (c :: t) [str "no"; str "n"] /\ b = false)
                        \/ (line = [] /\ default = Some (str "yes") /\ b = true)
                        \/ (line = [] /\ default = Some (str "no") /\ b = false)).
    { rewrite Hdict. split.
      - intros [H|H]; [left; exact H|right; left; exact H].
      - intros [H|[H|[[H _]|[H _]]]]; [left; exact H|right; exact H| |];
          contradiction (Hne H). }
    destruct default; exact Hgoal.
Qed.

Lemma answer_of_lines_witness :
  answer_of (Some (str "no")) (str "Ye") = Some true
  /\ answer_of (Some (str "no")) [] = Some false.
Proof.
  split.
  - apply (answer_of_lines (Some (str "no")) (str "Ye") true); [auto|].
    left. split; [right; left; reflexivity|reflexivity].
  - apply (answer_of_lines (Some (str "no")) [] false); [auto|].
    right; right; right. repeat split.
Defined.

(** X15: a default that is neither [None] nor ["yes"] nor ["no"] raises
    [ValueError] with the default in its message; nothing is written and no
    line is read. *)
Theorem query_yes_no_invalid_default (question d : pystr)
        (stdin : list pystr) :
  d <> str "yes" -> d <> str "no" ->
  query_yes_no question (Some d) stdin
  = (stdin, [],
     Failed (ValueErrorMsg (str "invalid default answer: '" ++ d ++ str "'"))).
Proof.
  intros Hyes Hno. unfold query_yes_no.
  apply eqb_neq in Hyes, Hno. rewrite Hyes, Hno. reflexivity.
Qed.

Lemma query_yes_no_invalid_default_witness :
  query_yes_no (str "Proceed with copy?") (Some (str "y")) [str "yes"]
  = ([str "yes"], [],
     Failed (ValueErrorMsg (str "invalid default answer: '" ++ str "y" ++ str "'"))).
Proof.
  apply (query_yes_no_invalid_default (str "Proceed with copy?") (str "y"));
    discriminate.
Defined.

(** ** [show_copy_proceed_menu] *)

Lemma fs_events_app (a b : list event) :
  fs_events (a ++ b) = fs_events a ++ fs_events b.
Proof. apply filter_app. Qed.

Lemma query_loop_writes_only (text : pystr) (default : option pystr)
      (stdin : list pystr) :
  fs_events (snd (fst (query_loop text default stdin))) = [].
Proof.
  induction stdin as [|line rest IH]; [reflexivity|].
  cbn [query_loop]. cbv zeta.
  assert (Hcase : forall choice,
    fs_events (snd (fst
      match dict_get valid choice with
      | Some answer => (rest, [Stdout text], Done answer)
      | None =>
          let '(stdin', events, r) := query_loop text default rest in
          (stdin',
           Stdout text
             :: Stdout (str "Please respond with 'yes' or 'no' (or 'y' or 'n')."
                        ++ [newline])
             :: events,
           r)
      end)) = []).
  { intros choice. destruct (dict_get valid choice); [reflexivity|].
    destruct (query_loop text default rest) as [[s e] r]. exact IH. }
  destruct default as [d|]; destruct (lower line) as [|c t]; try apply Hcase.
  destruct (dict_get valid d); reflexivity.
Qed.

Lemma query_yes_no_writes_only (question : pystr) (default : option pystr)
      (stdin : list pystr) :
  fs_events (snd (fst (query_yes_no question default stdin))) = [].
Proof.
  unfold query_yes_no.
  destruct default as [d|]; [|apply query_loop_writes_only].
  destruct (PyStr.eqb d (str "yes")); [apply query_loop_writes_only|].
  destruct (PyStr.eqb d (str "no")); [apply query_loop_writes_only|reflexivity].
Qed.

Lemma fs_events_stdout (text : pystr) (l : list event) :
  fs_events (Stdout text :: l) = fs_events l.
Proof. reflexivity. Qed.

Ltac file_operations :=
  repeat (rewrite fs_events_app || rewrite fs_events_stdout).

Ltac no_file_operation :=
  split; [left; reflexivity|];
  split; [intros H; contradiction H; reflexivity|];
  split; [intros H; try discriminate H; eexists; eexists; reflexivity|];
  split; [intros _; reflexivity|];
  intros H; try discriminate H; reflexivity.

Lemma menu_cases
        (path_exists : pystr -> bool) (fs_error : event -> option pystr)
        (files : list pystr) (dest_folder : pystr)
        (stdin rest : list pystr) (events : list event) (res : result bool) :
  show_copy_proceed_menu path_exists fs_error files dest_folder stdin
  = (rest, events, res) ->
  (fs_events events = [] \/ fs_events events = [Rmtree dest_folder]
   \/ fs_events events = [Rmtree dest_folder; Mkdir dest_folder])
  /\ (fs_events events <> [] ->
      path_exists dest_folder = true
      /\ exists stdin1 e1 e2,
          query_yes_no (str "Proceed with copy?") (Some (str "yes")) stdin
          = (stdin1, e1, Done true)
          /\ query_yes_no
               (str "Destination folder exists, are you sure you wish to overwrite it (all contents will be lost)?")
               (Some (str "yes")) stdin1
             = (rest, e2, Done true))
  /\ (res = Done true ->
      exists stdin1 e1,
        query_yes_no (str "Proceed with copy?") (Some (str "yes")) stdin
        = (stdin1, e1, Done true))
  /\ (res = Done false -> fs_events events = [])
  /\ (res = Done true ->
      fs_events events
      = if path_exists dest_folder
        then [Rmtree dest_folder; Mkdir dest_folder] else []).
Proof.
  unfold show_copy_proceed_menu, io_bind.
  pose proof (query_yes_no_writes_only (str "Proceed with copy?")
                (Some (str "yes")) stdin) as Q1.
  destruct (query_yes_no (str "Proceed with copy?") (Some (str "yes")) stdin)
    as [[s1 e1] r1]. cbn [fst snd] in Q1.
  unfold io_print, stdout_write, io_ret.
  destruct r1 as [[|]| |]; cbn [negb]; cbv beta iota;
    try (intros [= <- <- <-]; file_operations; rewrite ?Q1; cbn;
         no_file_operation).
  destruct (path_exists dest_folder) eqn:Hexists;
    [|intros [= <- <- <-]; file_operations; rewrite ?Q1; cbn;
      no_file_operation].
  pose proof (query_yes_no_writes_only
                (str "Destination folder exists, are you sure you wish to overwrite it (all contents will be lost)?")
                (Some (str "yes")) s1) as Q2.
  destruct (query_yes_no
              (str "Destination folder exists, are you sure you wish to overwrite it (all contents will be lost)?")
              (Some (str "yes")) s1) as [[s2 e2] r2] eqn:E2. cbn [fst snd] in Q2.
  destruct r2 as [[|]| |]; cbn [negb]; cbv beta iota;
    try (intros [= <- <- <-]; file_operations; rewrite ?Q1, ?Q2; cbn;
         no_file_operation).
  unfold fs_op.
  destruct (fs_error (Rmtree dest_folder));
    [intros [= <- <- <-]; file_operations; rewrite ?Q1, ?Q2; cbn;
     no_file_operation|].
  destruct (fs_error (Mkdir dest_folder)).
  - intros [= <- <- <-]. file_operations. rewrite ?Q1, ?Q2. cbn.
    split; [right; left; reflexivity|].
    split; [intros _; split; [reflexivity|]; exists s1, e1, e2;
            split; [reflexivity|exact E2]|].
    split; [intros H; discriminate H|].
    split; intros H; discriminate H.
  - intros [= <- <- <-]. file_operations. rewrite ?Q1, ?Q2. cbn.
    split; [right; right; reflexivity|].
    split; [intros _; split; [reflexivity|]; exists s1, e1, e2;
            split; [reflexivity|exact E2]|].
    split; [intros _; exists s1, e1; reflexivity|].
    split; [intros H; discriminate H|intros _; reflexivity].
Qed.

(** X16: [show_copy_proceed_menu] deletes nothing without two consents.
    The operations on files it performs are none, or the removal of the
    destination tree, or that removal and the creation of the destination
    directory, in this order; it performs one only if the destination exists
    and both questions were answered yes; when it returns [False] it has
    performed none; when it returns [True] it has performed both if the
    destination exists and none otherwise. *)
Theorem show_copy_proceed_menu_file_operations
        (path_exists : pystr -> bool) (fs_error : event -> option pystr)
        (files : list pystr) (dest_folder : pystr)
        (stdin rest : list pystr) (events : list event) (res : result bool) :
  show_copy_proceed_menu path_exists fs_error files dest_folder stdin
  = (rest, events, res) ->
  (fs_events events = [] \/ fs_events events = [Rmtree dest_folder]
   \/ fs_events events = [Rmtree dest_folder; Mkdir dest_folder])
  /\ (fs_events events <> [] ->
      path_exists dest_folder = true
      /\ exists stdin1 e1 e2,
          query_yes_no (str "Proceed with copy?") (Some (str "yes")) stdin
          = (stdin1, e1, Done true)
          /\ query_yes_no
               (str "Destination folder exists, are you sure you wish to overwrite it (all contents will be lost)?")
               (Some (str "yes")) stdin1
             = (rest, e2, Done true))
  /\ (res = Done false -> fs_events events = [])
  /\ (res = Done true ->
      fs_events events
      = if path_exists dest_folder
        then [Rmtree dest_folder; Mkdir dest_folder] else []).
Proof.
  intros Hrun.
  destruct (menu_cases path_exists fs_error files dest_folder stdin rest
              events res Hrun) as (H1 & H2 & _ & H3 & H4).
  repeat apply conj; assumption.
Qed.


(** ** [copy_files] *)

Lemma copy_file_cases (source_dir dest_dir f : pystr) :
  ((~ exists r, f = source_dir ++ r)
   /\ copy_file source_dir dest_dir f
      = raise (Exception
                 (str "Source file path doesn't match source directory")))
  \/ ((exists r, f = source_dir ++ r)
      /\ exists dest, copy_file source_dir dest_dir f = ret dest).
Proof.
  unfold copy_file. rewrite <- startswith_prefix.
  destruct (PyStr.startswith f source_dir); cbn [negb].
  - right. split; [reflexivity|]. eexists. reflexivity.
  - left. split; [discriminate|reflexivity].
Qed.

(** One call of the whole [copy_file]: it reads nothing, and what it does
    depends on whether the destination can be computed and on which of its
    two operations fails, if any. *)
Lemma copy_file_io_cases (fs_error : event -> option pystr)
      (source_dir dest_dir f : pystr) (stdin : list pystr) :
  (exists e partial,
      copy_file_io fs_error source_dir dest_dir f stdin
      = (stdin, partial, Failed e)
      /\ (partial = []
          \/ exists dest,
              copy_file source_dir dest_dir f = ret dest
              /\ partial = [MkdirParents (fst (os_path_split dest))]))
  \/ ((exists r, f = source_dir ++ r)
      /\ copy_file_io fs_error source_dir dest_dir f stdin
         = (stdin, copy_ops source_dir dest_dir f, Done tt)).
Proof.
  unfold copy_file_io, copy_ops, io_bind, lift.
  destruct (copy_file_cases source_dir dest_dir f)
    as [[_ ->]|[Hprefix [dest ->]]]; cbn [fst snd map ret raise].
  - left. eexists. exists []. split; [reflexivity|left; reflexivity].
  - destruct (os_path_split dest) as [dest_dir_abspath tail] eqn:Hsplit.
    unfold fs_op. cbn [fst].
    destruct (fs_error (MkdirParents dest_dir_abspath)) as [msg|].
    + left. eexists. exists []. split; [reflexivity|left; reflexivity].
    + destruct (fs_error (Copy f dest)) as [msg|].
      * left. eexists. exists [MkdirParents dest_dir_abspath].
        split; [reflexivity|]. right. exists dest. rewrite Hsplit.
        split; reflexivity.
      * right. split; [exact Hprefix|reflexivity].
Qed.

Lemma copy_ops_file_operations (source_dir dest_dir f : pystr) :
  fs_events (copy_ops source_dir dest_dir f) = copy_ops source_dir dest_dir f
  /\ stdout_text (copy_ops source_dir dest_dir f) = [].
Proof.
  unfold copy_ops. destruct (copy_file source_dir dest_dir f) as [o [dest| |]];
    split; reflexivity.
Qed.

Lemma copy_ops_list_file_operations (source_dir dest_dir : pystr)
      (files : list pystr) :
  fs_events (flat_map (copy_ops source_dir dest_dir) files)
  = flat_map (copy_ops source_dir dest_dir) files
  /\ stdout_text (flat_map (copy_ops source_dir dest_dir) files) = [].
Proof.
  induction files as [|f files [IH1 IH2]]; [split; reflexivity|].
  destruct (copy_ops_file_operations source_dir dest_dir f) as [H1 H2].
  cbn [flat_map]. unfold stdout_text in *.
  rewrite fs_events_app, flat_map_app, H1, H2, IH1, IH2. split; reflexivity.
Qed.

(** The loop of [copy_files]: all files are copied, or the loop stops at
    the first file for which [copy_file] raises. *)
Lemma copy_loop_cases (fs_error : event -> option pystr)
      (source_dir dest_dir : pystr) (files : list pystr) (stdin : list pystr) :
  ((forall f, In f files -> exists r, f = source_dir ++ r)
   /\ io_for files (fun f => copy_file_io fs_error source_dir dest_dir f) stdin
      = (stdin, flat_map (copy_ops source_dir dest_dir) files, Done tt))
  \/ (exists copied f remaining e partial,
         files = copied ++ f :: remaining
         /\ io_for files (fun f => copy_file_io fs_error source_dir dest_dir f) stdin
            = (stdin,
               flat_map (copy_ops source_dir dest_dir) copied ++ partial,
               Failed e)
         /\ (partial = []
             \/ exists dest,
                 copy_file source_dir dest_dir f = ret dest
                 /\ partial = [MkdirParents (fst (os_path_split dest))])).
Proof.
  induction files as [|f files IH].
  - left. split; [intros f []|reflexivity].
  - cbn [io_for]. unfold io_bind.
    destruct (copy_file_io_cases fs_error source_dir dest_dir f stdin)
      as [(e & partial & -> & Hpartial)|[Hprefix ->]].
    + right. exists [], f, files, e, partial. repeat split; assumption.
    + destruct IH as [[Hall ->]|(copied & g & remaining & e & partial
                                & -> & -> & Hpartial)].
      * left. split; [|reflexivity].
        intros g [<-|Hg]; [exact Hprefix|apply Hall; exact Hg].
      * right. exists (f :: copied), g, remaining, e, partial.
        split; [reflexivity|]. split; [|exact Hpartial].
        cbn [flat_map]. rewrite app_assoc. reflexivity.
Qed.

(** X17: [copy_files] reads no input.  When it returns, it has performed,
    for each file in the order of the list, the creation of the directory
    of its destination and the copy, nothing else, every file has the source
    directory as a prefix, and it has written one line with the number of
    files.  Otherwise it has stopped at the first file whose copy raised: the
    files before it are copied, of that file at most the directory is
    created, the files behind it are not touched and the line is not
    written.  It never exits. *)
Theorem copy_files_operations (fs_error : event -> option pystr)
        (files : list pystr) (source_dir dest_dir : pystr)
        (stdin rest : list pystr) (events : list event) (res : result unit) :
  copy_files fs_error files source_dir dest_dir stdin = (rest, events, res) ->
  rest = stdin
  /\ (forall code, res <> Exited code)
  /\ (res = Done tt ->
      fs_events events = flat_map (copy_ops source_dir dest_dir) files
      /\ (forall f, In f files -> exists r, f = source_dir ++ r)
      /\ stdout_text events
         = str "Copied " ++ str_of_int (Z.of_nat (length files))
           ++ str " files" ++ [newline])
  /\ (forall e,
        res = Failed e ->
        stdout_text events = []
        /\ exists copied f remaining partial,
            files = copied ++ f :: remaining
            /\ fs_events events
               = flat_map (copy_ops source_dir dest_dir) copied ++ partial
            /\ (partial = []
                \/ exists dest,
                    copy_file source_dir dest_dir f = ret dest
                    /\ partial = [MkdirParents (fst (os_path_split dest))])).
Proof.
  unfold copy_files, io_bind.
  destruct (copy_ops_list_file_operations source_dir dest_dir files) as [F1 F2].
  destruct (copy_loop_cases fs_error source_dir dest_dir files stdin)
    as [[Hall ->]|(copied & f & remaining & e & partial & Hfiles & -> & Hpartial)].
  - unfold io_print, stdout_write. intros [= <- <- <-].
    split; [reflexivity|]. split; [discriminate|]. split; [|discriminate].
    intros _. rewrite fs_events_app, F1. unfold stdout_text in *.
    rewrite flat_map_app, F2. cbn [flat_map fs_events filter app].
    rewrite !app_nil_r, <- !app_assoc. repeat split. exact Hall.
  - intros [= <- <- <-].
    split; [reflexivity|]. split; [discriminate|]. split; [discriminate|].
    intros e' _.
    destruct (copy_ops_list_file_operations source_dir dest_dir copied)
      as [C1 C2].
    assert (Hp : fs_events partial = partial /\ stdout_text partial = []).
    { destruct Hpartial as [->|(dest & _ & ->)]; split; reflexivity. }
    destruct Hp as [P1 P2]. split.
    + unfold stdout_text in *. rewrite flat_map_app, C2, P2. reflexivity.
    + exists copied, f, remaining, partial. split; [exact Hfiles|].
      split; [|exact Hpartial]. rewrite fs_events_app, C1, P1. reflexivity.
Qed.

(** ** [sizeof_fmt] *)

Lemma round_half_even_close (num den : Z) :
  (0 <= num)%Z -> (0 < den)%Z ->
  (0 <= round_half_even num den)%Z
  /\ (Z.abs (2 * num - 2 * round_half_even num den * den) <= den)%Z.
Proof.
  intros Hnum Hden. unfold round_half_even.
  pose proof (Z.div_mod num den ltac:(lia)) as Hdm.
  pose proof (Z.mod_pos_bound num den Hden) as Hr.
  pose proof (Z.div_pos num den Hnum Hden) as Hq.
  destruct (2 * (num mod den) <? den)%Z eqn:E1.
  - apply Z.ltb_lt in E1. split; [lia|]. nia.
  - apply Z.ltb_ge in E1.
    destruct (den <? 2 * (num mod den))%Z eqn:E2.
    + apply Z.ltb_lt in E2. split; [lia|]. nia.
    + apply Z.ltb_ge in E2. destruct (Z.even (num / den)); split; try lia; nia.
Qed.

(** An integer below [2 ^ 53] is a float. *)
Lemma float_of_int_exact (n : Z) :
  (0 <= n < 2 ^ 53)%Z -> float_of_int n = Some n.
Proof.
  intros [H0 H53]. unfold float_of_int.
  rewrite (Z.abs_eq n H0).
  assert (Hlog : (Z.log2 n - 52 <= 0)%Z).
  { destruct (Z.eq_dec n 0) as [->|Hn]; [simpl; lia|].
    assert (Z.log2 n < 53)%Z by (apply Z.log2_lt_pow2; lia). lia. }
  replace (Z.log2 n - 52 <=? 0)%Z with true by (symmetry; apply Z.leb_le; exact Hlog).
  assert (Hbig : (2 ^ 53 < 2 ^ 1024)%Z) by (vm_compute; reflexivity).
  replace (2 ^ 1024 <=? n)%Z with false by (symmetry; apply Z.leb_gt; lia).
  f_equal. destruct (Z.eq_dec n 0) as [->|Hn]; [reflexivity|].
  rewrite Z.sgn_pos by lia. lia.
Qed.

Lemma format_tenths_nonneg (F : Z) (k : nat) :
  (0 <= F)%Z ->
  format_tenths F k
  = str_of_int (round_half_even (10 * F) (1024 ^ Z.of_nat k) / 10)
    ++ str "."
    ++ str_of_int (round_half_even (10 * F) (1024 ^ Z.of_nat k) mod 10).
Proof.
  intros HF. unfold format_tenths. rewrite (Z.abs_eq F HF).
  replace (F <? 0)%Z with false by (symmetry; apply Z.ltb_ge; exact HF).
  reflexivity.
Qed.

(** The loop picks the first unit in which the value is below 1024, or the
    last unit. *)
Lemma sizeof_units_unit (units : list pystr) (F : Z) (suffix : pystr) :
  (0 <= F)%Z ->
  forall k,
    (1024 ^ Z.of_nat k <= F)%Z ->
    exists j,
      k <= j <= k + length units
      /\ (1024 ^ Z.of_nat j <= F)%Z
      /\ (j < k + length units -> (F < 1024 ^ Z.of_nat (S j))%Z)
      /\ sizeof_units units F k suffix
         = format_tenths F j ++ str " "
           ++ nth (j - k) (units ++ [str "Yi"]) [] ++ suffix.
Proof.
  intros HF. induction units as [|unit units IH]; intros k Hk.
  - exists k. split; [simpl; lia|]. split; [exact Hk|]. split; [simpl; lia|].
    cbn [sizeof_units]. rewrite Nat.sub_diag. reflexivity.
  - cbn [sizeof_units]. rewrite (Z.abs_eq F HF).
    assert (Hpow : (1024 ^ Z.of_nat (S k) = 1024 * 1024 ^ Z.of_nat k)%Z).
    { rewrite Nat2Z.inj_succ, Z.pow_succ_r by lia. reflexivity. }
    destruct (F <? 1024 * 1024 ^ Z.of_nat k)%Z eqn:E.
    + apply Z.ltb_lt in E. exists k. split; [simpl; lia|].
      split; [exact Hk|]. split; [intros _; rewrite Hpow; exact E|].
      rewrite Nat.sub_diag. reflexivity.
    + apply Z.ltb_ge in E. rewrite <- Hpow in E.
      destruct (IH (S k) E) as (j & Hj & Hle & Hlt & Heq).
      exists j. split; [simpl; lia|]. split; [exact Hle|].
      split; [intros H; apply Hlt; simpl in H; lia|].
      rewrite Heq. replace (j - k) with (S (j - S k)) by lia. reflexivity.
Qed.

(** X18: for a size below [2 ^ 53], [sizeof_fmt] raises nothing and
    returns one decimal, a space, a unit and the suffix, where the unit is
    the largest power of 1024 that is not above the size (none below 1024,
    [Yi] at most) and the decimal is the size in that unit rounded to the
    nearest tenth: it differs from it by at most a twentieth, so that a
    size just below a unit is printed as [1024.0] of the unit before. *)
Theorem sizeof_fmt_rounds (n : Z) :
  (0 <= n < 2 ^ 53)%Z ->
  exists (k : nat) (q : Z),
    k <= 8
    /\ (k = 0 \/ (1024 ^ Z.of_nat k <= n)%Z)
    /\ (k < 8 -> (n < 1024 ^ Z.of_nat (S k))%Z)
    /\ (0 <= q)%Z
    /\ (Z.abs (2 * (10 * n) - 2 * q * 1024 ^ Z.of_nat k)
        <= 1024 ^ Z.of_nat k)%Z
    /\ sizeof_fmt n (str "B")
       = Some (str_of_int (q / 10) ++ str "." ++ str_of_int (q mod 10)
               ++ str " "
               ++ nth k [[]; str "Ki"; str "Mi"; str "Gi"; str "Ti";
                         str "Pi"; str "Ei"; str "Zi"; str "Yi"] []
               ++ str "B").
Proof.
  intros Hn. unfold sizeof_fmt. rewrite (Z.abs_eq n (proj1 Hn)).
  destruct (n <? 1024)%Z eqn:E.
  - apply Z.ltb_lt in E. exists 0, (round_half_even (10 * n) (1024 ^ Z.of_nat 0)).
    destruct (round_half_even_close (10 * n) (1024 ^ Z.of_nat 0))
      as [Hq Hclose]; [lia|simpl; lia|].
    split; [lia|]. split; [left; reflexivity|].
    split; [intros _; simpl; lia|]. split; [exact Hq|]. split; [exact Hclose|].
    rewrite (format_tenths_nonneg n 0 (proj1 Hn)). cbn [nth app].
    rewrite <- !app_assoc. reflexivity.
  - apply Z.ltb_ge in E. rewrite (float_of_int_exact n Hn).
    destruct (sizeof_units_unit
                [str "Ki"; str "Mi"; str "Gi"; str "Ti"; str "Pi"; str "Ei";
                 str "Zi"] n (str "B") (proj1 Hn) 1)
      as (j & Hj & Hle & Hlt & Heq); [simpl; lia|].
    simpl length in Hj, Hlt.
    exists j, (round_half_even (10 * n) (1024 ^ Z.of_nat j)).
    assert (Hpos : (0 < 1024 ^ Z.of_nat j)%Z) by (apply Z.pow_pos_nonneg; lia).
    destruct (round_half_even_close (10 * n) (1024 ^ Z.of_nat j))
      as [Hq Hclose]; [lia|exact Hpos|].
    split; [lia|]. split; [right; exact Hle|].
    split; [intros H; apply Hlt; lia|]. split; [exact Hq|]. split; [exact Hclose|].
    rewrite Heq, (format_tenths_nonneg n j (proj1 Hn)). f_equal.
    rewrite <- !app_assoc. do 4 f_equal.
    destruct j as [|[|[|[|[|[|[|[|[|j]]]]]]]]]; try lia; reflexivity.
Qed.

Lemma sizeof_fmt_rounds_witness :
  exists (k : nat) (q : Z),
    k <= 8
    /\ (k = 0 \/ (1024 ^ Z.of_nat k <= 1048575)%Z)
    /\ (k < 8 -> (1048575 < 1024 ^ Z.of_nat (S k))%Z)
    /\ (0 <= q)%Z
    /\ (Z.abs (2 * (10 * 1048575) - 2 * q * 1024 ^ Z.of_nat k)
        <= 1024 ^ Z.of_nat k)%Z
    /\ sizeof_fmt 1048575 (str "B")
       = Some (str_of_int (q / 10) ++ str "." ++ str_of_int (q mod 10)
               ++ str " "
               ++ nth k [[]; str "Ki"; str "Mi"; str "Gi"; str "Ti";
                         str "Pi"; str "Ei"; str "Zi"; str "Yi"] []
               ++ str "B").
Proof.
  apply (sizeof_fmt_rounds 1048575). split; [lia|reflexivity].
Defined.

(** ** [show_copy_stats] *)

Lemma stats_loop_run (os_stat : pystr -> Z + pystr) (files : list pystr)
      (sizes : list Z) :
  Forall2 (fun f size => os_stat f = inl size) files sizes ->
  forall tot media stdin,
    stats_loop os_stat files tot media stdin
    = (stdin,
       map (fun f => Stdout (f ++ [newline])) files,
       Done ((tot + fold_right Z.add 0 sizes)%Z,
             (media + Z.of_nat (length (filter is_file_type_media files)))%Z)).
Proof.
  induction 1 as [|f size files sizes Hf _ IH]; intros tot media stdin.
  - cbn. rewrite !Z.add_0_r. reflexivity.
  - cbn [stats_loop]. unfold io_bind, io_print, stdout_write.
    rewrite Hf, IH. cbn [map fold_right filter app].
    destruct (is_file_type_media f); cbn [length]; do 3 f_equal; lia.
Qed.

Lemma fs_events_lines (lines : list pystr) :
  fs_events (map (fun line => Stdout (line ++ [newline])) lines) = [].
Proof. induction lines as [|l lines IH]; [reflexivity|exact IH]. Qed.

Lemma stats_loop_quiet (os_stat : pystr -> Z + pystr) (files : list pystr) :
  forall tot media stdin,
  exists events res,
    stats_loop os_stat files tot media stdin = (stdin, events, res)
    /\ fs_events events = []
    /\ forall code, res <> Exited code.
Proof.
  induction files as [|f files IH]; intros tot media stdin.
  - eexists. eexists. split; [reflexivity|]. split; [reflexivity|discriminate].
  - cbn [stats_loop]. unfold io_bind, io_print, stdout_write, io_raise.
    destruct (os_stat f) as [size|msg].
    + destruct (IH (tot + size)%Z
                   (if is_file_type_media f then (media + 1)%Z else media)
                   stdin) as (events & res & -> & Hev & Hres).
      eexists. eexists. split; [reflexivity|]. split; [exact Hev|exact Hres].
    + eexists. eexists. split; [reflexivity|]. split; [reflexivity|discriminate].
Qed.

(** [show_copy_stats] reads nothing, performs no operation on files and
    does not exit. *)
Lemma show_copy_stats_quiet (os_stat : pystr -> Z + pystr)
      (files : list pystr) (stdin : list pystr) :
  exists events res,
    show_copy_stats os_stat files stdin = (stdin, events, res)
    /\ fs_events events = []
    /\ forall code, res <> Exited code.
Proof.
  unfold show_copy_stats, io_bind, io_print, stdout_write, io_raise.
  destruct (stats_loop_quiet os_stat files 0%Z 0%Z stdin)
    as (events & res & -> & Hev & Hres).
  destruct res as [[tot media]|code|e].
  - destruct (sizeof_fmt tot (str "B")); eexists; eexists;
      (split; [reflexivity|]); (split; [|discriminate]);
      file_operations; rewrite Hev; reflexivity.
  - contradiction (Hres code). reflexivity.
  - eexists. eexists. split; [reflexivity|]. split; [|discriminate].
    file_operations. exact Hev.
Qed.

Lemma show_copy_stats_run (os_stat : pystr -> Z + pystr)
        (files : list pystr) (sizes : list Z) (size_text : pystr)
        (stdin : list pystr) :
  Forall2 (fun f size => os_stat f = inl size) files sizes ->
  sizeof_fmt (fold_right Z.add 0%Z sizes) (str "B") = Some size_text ->
  exists events,
    show_copy_stats os_stat files stdin = (stdin, events, Done tt)
    /\ fs_events events = []
    /\ stdout_text events
       = str "Files to be copied:" ++ [newline]
         ++ flat_map (fun f => f ++ [newline]) files
         ++ str "Total number of files to be copied (including media/lyrics/art): "
         ++ str_of_int (Z.of_nat (length files)) ++ [newline]
         ++ str "Total number of media files to be copied: "
         ++ str_of_int (Z.of_nat (length (filter is_file_type_media files)))
         ++ [newline]
         ++ str "Total filesize to be copied: "
         ++ str_of_int (fold_right Z.add 0%Z sizes) ++ str " bytes ("
         ++ size_text ++ str ")" ++ [newline].
Proof.
  intros Hsizes Hfmt.
  unfold show_copy_stats, io_bind, io_print, stdout_write.
  rewrite (stats_loop_run os_stat files sizes Hsizes 0%Z 0%Z stdin).
  rewrite !Z.add_0_l, Hfmt.
  eexists. split; [reflexivity|]. split.
  - file_operations. rewrite fs_events_lines. reflexivity.
  - unfold stdout_text. cbn [flat_map app]. rewrite !flat_map_app.
    cbn [flat_map app]. rewrite !app_nil_r.
    assert (Hlines : flat_map (fun e => match e with Stdout t => t | _ => [] end)
                       (map (fun f => Stdout (f ++ [newline])) files)
                     = flat_map (fun f => f ++ [newline]) files).
    { clear. induction files as [|f files IH]; [reflexivity|].
      cbn [map flat_map]. rewrite IH. reflexivity. }
    rewrite Hlines, <- !app_assoc. reflexivity.
Qed.

(** X19: when every file of the list can be examined, [show_copy_stats]
    writes a heading, the files, one on a line and in the order of the
    list, the number of files, the number of those whose extension is a
    media extension, and the sum of the sizes with its short form; it reads
    nothing and performs no operation on files. *)
Theorem show_copy_stats_report (os_stat : pystr -> Z + pystr)
        (files : list pystr) (sizes : list Z) (size_text : pystr)
        (stdin : list pystr) :
  Forall2 (fun f size => os_stat f = inl size) files sizes ->
  sizeof_fmt (fold_right Z.add 0%Z sizes) (str "B") = Some size_text ->
  exists events,
    show_copy_stats os_stat files stdin = (stdin, events, Done tt)
    /\ fs_events events = []
    /\ stdout_text events
       = str "Files to be copied:" ++ [newline]
         ++ flat_map (fun f => f ++ [newline]) files
         ++ str "Total number of files to be copied (including media/lyrics/art): "
         ++ str_of_int (Z.of_nat (length files)) ++ [newline]
         ++ str "Total number of media files to be copied: "
         ++ str_of_int (Z.of_nat (length (filter is_file_type_media files)))
         ++ [newline]
         ++ str "Total filesize to be copied: "
         ++ str_of_int (fold_right Z.add 0%Z sizes) ++ str " bytes ("
         ++ size_text ++ str ")" ++ [newline].
Proof. apply show_copy_stats_run. Qed.

Lemma show_copy_stats_report_witness :
  exists events,
    show_copy_stats (fun _ => inl 2000%Z) example_selection [str "y"]
    = ([str "y"], events, Done tt)
    /\ fs_events events = []
    /\ stdout_text events
       = str "Files to be copied:" ++ [newline]
         ++ flat_map (fun f => f ++ [newline]) example_selection
         ++ str "Total number of files to be copied (including media/lyrics/art): "
         ++ str_of_int (Z.of_nat (length example_selection)) ++ [newline]
         ++ str "Total number of media files to be copied: "
         ++ str_of_int (Z.of_nat (length (filter is_file_type_media
                                                 example_selection)))
         ++ [newline]
         ++ str "Total filesize to be copied: "
         ++ str_of_int (fold_right Z.add 0%Z [2000; 2000; 2000; 2000; 2000]%Z)
         ++ str " bytes (" ++ str "9.8 KiB" ++ str ")" ++ [newline].
Proof.
  apply (show_copy_stats_report (fun _ => inl 2000%Z) example_selection
           [2000; 2000; 2000; 2000; 2000]%Z (str "9.8 KiB") [str "y"]).
  - repeat constructor.
  - reflexivity.
Defined.

(** ** [main] *)

Lemma walk_media_dir_prefix (path_exists : pystr -> bool)
      (media_path : pystr) (entries : list node) (min_year max_year : pystr)
      (out : list pystr) (files : list pystr) :
  wf_entries entries = true ->
  walk_media_dir path_exists media_path entries min_year max_year
  = (out, Return files) ->
  forall p, In p files -> exists r, p = media_path ++ r.
Proof.
  intros Hwf Hrun. rewrite walk_media_dir_albums in Hrun.
  refine (for_each_invariant _ _
            (fun files => forall p, In p files -> exists r, p = media_path ++ r)
            _ _ _ _ _ _ _ Hrun).
  - intros s [fullpath d] o s' Hv Hs Hbody.
    apply bind_return_inv in Hbody.
    destruct Hbody as (o1 & sel & o2 & Hsel & [= _ <-] & _).
    intros p Hp. apply in_app_or in Hp.
    destruct Hp as [Hp|Hp]; [apply Hs; exact Hp|].
    cbn [fst snd] in Hsel. apply process_album_dir_returns in Hsel.
    destruct Hsel as [->| ->]; [contradiction Hp|].
    apply album_dirs_visited in Hv.
    pose proof (wf_node_entries _ (visited_dirs_wf _ _ _ _ Hwf Hv)) as Hd.
    destruct (select_files_extends _ _ _ _ Hd Hp) as [r2 ->].
    destruct (visited_dir_extends _ _ _ _ Hwf Hv) as [r1 ->].
    exists (r1 ++ r2). rewrite app_assoc. reflexivity.
  - intros p [].
Qed.





(** X21: [main] changes nothing on disk without consent: if it performs
    any operation on files, then the walk has returned a selection and the
    first question, read from the input as [main] received it, was answered
    yes. *)
Theorem main_changes_nothing_without_consent (path_exists : pystr -> bool)
        (fs_error : event -> option pystr) (os_stat : pystr -> Z + pystr)
        (entries : list node) (stdin rest : list pystr)
        (events : list event) (res : result unit) :
  main path_exists fs_error os_stat entries stdin = (rest, events, res) ->
  fs_events events <> [] ->
  exists out files stdin1 e1,
    walk_media_dir path_exists SOURCE_FOLDER entries MIN_YEAR MAX_YEAR
    = (out, Return files)
    /\ query_yes_no (str "Proceed with copy?") (Some (str "yes")) stdin
       = (stdin1, e1, Done true).
Proof.
  unfold main, io_bind, lift.
  destruct (walk_media_dir path_exists SOURCE_FOLDER entries MIN_YEAR MAX_YEAR)
    as [out [files|code|e]] eqn:Hwalk; cbn [fst snd];
    try (intros [= <- <- <-] H; rewrite fs_events_lines in H;
         contradiction H; reflexivity).
  destruct (show_copy_stats_quiet os_stat files stdin)
    as (ev_s & res_s & -> & Hev_s & Hres_s).
  destruct res_s as [[]|code|e];
    [|contradiction (Hres_s code); reflexivity
     |intros [= <- <- <-] H; rewrite fs_events_app, fs_events_lines, Hev_s in H;
      contradiction H; reflexivity].
  destruct (show_copy_proceed_menu path_exists fs_error files DEST_FOLDER stdin)
    as [[s2 ev_m] res_m] eqn:Hmenu.
  destruct (menu_cases path_exists fs_error files DEST_FOLDER stdin s2 ev_m
              res_m Hmenu) as (_ & Hops & Htrue & Hfalse & _).
  assert (Hasked : res_m = Done true \/ fs_events ev_m <> [] ->
    exists out0 files0 stdin1 e1,
      (out, @Return (list pystr) files) = (out0, Return files0)
      /\ query_yes_no (str "Proceed with copy?") (Some (str "yes")) stdin
         = (stdin1, e1, Done true)).
  { intros [H|H].
    - destruct (Htrue H) as (stdin1 & e1 & Hq). exists out, files, stdin1, e1.
      split; [reflexivity|exact Hq].
    - destruct (Hops H) as (_ & stdin1 & e1 & e2 & Hq & _).
      exists out, files, stdin1, e1. split; [reflexivity|exact Hq]. }
  destruct res_m as [[|]|code|e].
  - intros _ _. apply Hasked. left. reflexivity.
  - unfold io_ret. intros [= <- <- <-] H.
    rewrite !fs_events_app, fs_events_lines, Hev_s, (Hfalse eq_refl) in H.
    contradiction H. reflexivity.
  - intros [= <- <- <-] H. apply Hasked. right. intros Hm. apply H.
    rewrite !fs_events_app, fs_events_lines, Hev_s, Hm. reflexivity.
  - intros [= <- <- <-] H. apply Hasked. right. intros Hm. apply H.
    rewrite !fs_events_app, fs_events_lines, Hev_s, Hm. reflexivity.
Qed.

Lemma copy_file_io_ok (source_dir dest_dir f : pystr) (stdin : list pystr) :
  (exists r, f = source_dir ++ r) ->
  copy_file_io no_fs_error source_dir dest_dir f stdin
  = (stdin, copy_ops source_dir dest_dir f, Done tt).
Proof.
  intros Hprefix. unfold copy_file_io, copy_ops, io_bind, lift.
  destruct (copy_file_cases source_dir dest_dir f)
    as [[Hno _]|[_ [dest ->]]]; [contradiction (Hno Hprefix)|].
  cbn [fst snd map ret]. destruct (os_path_split dest) as [d t]. reflexivity.
Qed.

Lemma copy_loop_ok (source_dir dest_dir : pystr) (files : list pystr)
      (stdin : list pystr) :
  (forall f, In f files -> exists r, f = source_dir ++ r) ->
  io_for files (fun f => copy_file_io no_fs_error source_dir dest_dir f) stdin
  = (stdin, flat_map (copy_ops source_dir dest_dir) files, Done tt).
Proof.
  induction files as [|f files IH]; intros Hall; [reflexivity|].
  cbn [io_for]. unfold io_bind.
  rewrite (copy_file_io_ok _ _ _ _ (Hall f (or_introl eq_refl))).
  rewrite IH by (intros g Hg; apply Hall; right; exact Hg). reflexivity.
Qed.

(** X22: a whole run.  When the walk returns a selection, every selected
    file can be examined, the destination folder does not exist, the first
    line of the input answers yes and no operation on files fails, [main]
    returns having read that one line and having performed, for each
    selected file in the order of the selection, the creation of the
    directory of its destination and its copy, and nothing else. *)
Theorem main_copies_the_selection (path_exists : pystr -> bool)
        (os_stat : pystr -> Z + pystr) (entries : list node)
        (files : list pystr) (sizes : list Z) (size_text : pystr)
        (line : pystr) (rest : list pystr) :
  wf_entries entries = true ->
  walk_media_dir path_exists SOURCE_FOLDER entries MIN_YEAR MAX_YEAR
  = ([], Return files) ->
  Forall2 (fun f size => os_stat f = inl size) files sizes ->
  sizeof_fmt (fold_right Z.add 0%Z sizes) (str "B") = Some size_text ->
  path_exists DEST_FOLDER = false ->
  answer_of (Some (str "yes")) line = Some true ->
  exists events,
    main path_exists no_fs_error os_stat entries (line :: rest)
    = (rest, events, Done tt)
    /\ fs_events events = flat_map (copy_ops SOURCE_FOLDER DEST_FOLDER) files.
Proof.
  intros Hwf Hwalk Hsizes Hfmt Hdest Hline.
  destruct (show_copy_stats_run os_stat files sizes size_text
              (line :: rest) Hsizes Hfmt) as (ev_s & Hstats & Hev_s & _).
  unfold main, io_bind, lift. rewrite Hwalk. cbn [fst snd map].
  rewrite Hstats.
  unfold show_copy_proceed_menu, io_bind.
  change (query_yes_no (str "Proceed with copy?") (Some (str "yes")))
    with (query_loop (str "Proceed with copy?" ++ str " [Y/n] ")
                     (Some (str "yes"))).
  rewrite (query_loop_answer _ _ _ _ _ Hline). cbn [negb].
  unfold io_print, stdout_write, io_ret. rewrite Hdest.
  unfold copy_files, io_bind.
  rewrite (copy_loop_ok SOURCE_FOLDER DEST_FOLDER files rest
             (walk_media_dir_prefix _ _ _ _ _ _ _ Hwf Hwalk)).
  unfold io_print, stdout_write.
  eexists. split; [reflexivity|].
  file_operations. rewrite Hev_s.
  cbn [fs_events filter app].
  rewrite (proj1 (copy_ops_list_file_operations SOURCE_FOLDER DEST_FOLDER files)).
  apply app_nil_r.
Qed.

Lemma main_changes_nothing_without_consent_witness :
  exists out files stdin1 e1,
    walk_media_dir (fun _ => false) SOURCE_FOLDER example_library_dated
                   MIN_YEAR MAX_YEAR
    = (out, Return files)
    /\ query_yes_no (str "Proceed with copy?") (Some (str "yes")) [str "y"]
       = (stdin1, e1, Done true).
Proof.
  apply (main_changes_nothing_without_consent (fun _ => false) no_fs_error
           (fun _ => inl 2000%Z) example_library_dated [str "y"]
           (fst (fst (main (fun _ => false) no_fs_error (fun _ => inl 2000%Z)
                           example_library_dated [str "y"])))
           (snd (fst (main (fun _ => false) no_fs_error (fun _ => inl 2000%Z)
                           example_library_dated [str "y"])))
           (snd (main (fun _ => false) no_fs_error (fun _ => inl 2000%Z)
                      example_library_dated [str "y"]))).
  - vm_compute. reflexivity.
  - vm_compute. discriminate.
Defined.

Lemma main_copies_the_selection_witness :
  exists events,
    main (fun _ => false) no_fs_error (fun _ => inl 2000%Z)
         example_library_dated (str "Y" :: [str "later"])
    = ([str "later"], events, Done tt)
    /\ fs_events events
       = flat_map (copy_ops SOURCE_FOLDER DEST_FOLDER) source_selection.
Proof.
  apply (main_copies_the_selection (fun _ => false) (fun _ => inl 2000%Z)
           example_library_dated source_selection
           [2000; 2000; 2000; 2000]%Z (str "7.8 KiB")).
  - reflexivity.
  - vm_compute. reflexivity.
  - repeat constructor.
  - reflexivity.
  - reflexivity.
  - reflexivity.
Defined.

Lemma show_copy_proceed_menu_file_operations_witness :
  fs_events
    (snd (fst (show_copy_proceed_menu (fun _ => true) no_fs_error []
                 (str "/out") [str "y"; []; str "z"])))
  = [Rmtree (str "/out"); Mkdir (str "/out")].
Proof.
  destruct (show_copy_proceed_menu_file_operations (fun _ => true) no_fs_error
              [] (str "/out") [str "y"; []; str "z"]
              [str "z"]
              (snd (fst (show_copy_proceed_menu (fun _ => true) no_fs_error []
                           (str "/out") [str "y"; []; str "z"])))
              (Done true))
    as (_ & _ & _ & Hdone).
  - vm_compute. reflexivity.
  - apply Hdone. reflexivity.
Defined.

Lemma copy_files_operations_witness :
  fs_events
    (snd (fst (copy_files no_fs_error example_selection (str "/music")
                          (str "/out") [str "y"])))
  = flat_map (copy_ops (str "/music") (str "/out")) example_selection.
Proof.
  destruct (copy_files_operations no_fs_error example_selection
              (str "/music") (str "/out") [str "y"] [str "y"]
              (snd (fst (copy_files no_fs_error example_selection
                                    (str "/music") (str "/out") [str "y"])))
              (Done tt))
    as (_ & _ & Hdone & _).
  - vm_compute. reflexivity.
  - apply Hdone. reflexivity.
Defined.

(** ** What [copy_file] loses at the end of a path *)

(** X23: characters of the source directory at the end of the source path
    are lost.  When the path ends with characters that all occur in the
    source directory, behind a character that does not occur in it and is
    not the separator, the destination ends with that character: the
    characters behind it are gone.  With the source folder of the script,
    which holds a [c], no lyrics file keeps its extension. *)
Theorem copy_file_drops_trailing_characters
        (source_dir dest_dir body tail : pystr) (x : ascii) :
  (exists r, body ++ x :: tail = source_dir ++ r) ->
  PyStr.in_chars source_dir x = false ->
  Ascii.eqb x os_path.sep = false ->
  forallb (PyStr.in_chars source_dir) tail = true ->
  exists q,
    copy_file source_dir dest_dir (body ++ x :: tail) = ret (q ++ [x]).
Proof.
  intros Hprefix Hx Hsep Htail. unfold copy_file.
  replace (PyStr.startswith (body ++ x :: tail) source_dir) with true
    by (symmetry; apply startswith_prefix; exact Hprefix).
  cbn [negb].
  assert (Hfirst : exists a, PyStr.strip (body ++ x :: tail) source_dir
                             = a ++ [x]).
  { unfold PyStr.strip, PyStr.strip_by, PyStr.lstrip_by.
    replace (body ++ x :: tail) with ((body ++ [x]) ++ tail)
      by (rewrite <- app_assoc; reflexivity).
    rewrite (drop_while_app_stop _ body tail x Hx).
    destruct (drop_while_snoc _ body x Hx) as [a ->].
    exists a. rewrite (rstrip_by_all _ _ _ Htail).
    apply rstrip_by_stop. exact Hx. }
  destruct Hfirst as [a ->].
  rewrite (strip_sep_snoc a x Hsep).
  assert (Hsep' : PyStr.in_chars [os_path.sep] x = false)
    by (rewrite in_chars_sep; exact Hsep).
  destruct (drop_while_snoc _ a x Hsep') as [a' Ha'].
  assert (Hstart : PyStr.startswith (a' ++ [x]) [os_path.sep] = false).
  { destruct (drop_while_head (PyStr.in_chars [os_path.sep]) (a ++ [x]))
      as [H|(c & t & H & Hc)]; rewrite Ha' in H.
    - destruct a'; discriminate H.
    - rewrite H. simpl. rewrite in_chars_sep in Hc. rewrite Hc. reflexivity. }
  rewrite Ha', (join_prefix _ _ Hstart).
  exists (dir_prefix dest_dir ++ a'). rewrite <- app_assoc. reflexivity.
Qed.

Lemma copy_file_drops_trailing_characters_witness :
  exists q,
    copy_file SOURCE_FOLDER DEST_FOLDER
              (str "D:\Music/ArtistX/Album [1985]/01.l" ++ "r"%char :: str "c")
    = ret (q ++ ["r"%char]).
Proof.
  apply (copy_file_drops_trailing_characters SOURCE_FOLDER DEST_FOLDER
           (str "D:\Music/ArtistX/Album [1985]/01.l") (str "c") "r"%char).
  - exists (str "/ArtistX/Album [1985]/01.lrc"). reflexivity.
  - reflexivity.
  - reflexivity.
  - reflexivity.
Defined.
